(** * PerpsX: the position-and-ledger engine

    A shallow embedding of the trading engine of the PerpsX demo
    (React hooks [useAppState] in App.jsx and [useTradingEngine] in
    hooks/useTradingEngine.js) and the properties of its position book.

    App.jsx is embedded in its margin-reserved revision: opening deducts
    the risk amount and closing credits margin plus pnl.  (The repository
    also holds a revision whose ledger credits the pnl only; its positions
    and its per-tick tests are the same.)

    Conventions of the embedding.
    - A JavaScript number is a [number]: an exact rational, one of the two
      infinities, or NaN.  Arithmetic is exact (no rounding, no overflow) and
      there is a single zero, so a nonzero finite number divided by zero is
      the infinity of the dividend's sign.
    - A React state cell is a field of the [state] record, a functional
      update [setX (prev => f prev)] is the function [f] applied to that
      field, and one event handler or effect is one state transformer.
    - [console.log] calls are not modelled.
    - Amounts are therefore the amounts of exact arithmetic, which the
      program's doubles match up to rounding.  Where rounding separates two
      paths of the program (closing all positions at once or one by one),
      the commands are repeated on binary64 floats in [Binary64]. *)

From Stdlib Require Import ZArith QArith Qround Bool List String Ascii.
From Stdlib Require Import Permutation Setoid Morphisms Lia Lqa.
From Stdlib Require Import Floats.
Import ListNotations.

Local Open Scope Q_scope.

(** ** JavaScript numbers *)

Module Js.

Inductive number : Type :=
| Fin (q : Q)
| PInf
| NInf
| NaN.

Definition zero : number := Fin 0.
Definition one : number := Fin 1.

(** The infinity whose sign is the given comparison with zero; [Eq] stands
    for the undefined forms [0 * Infinity] and [0 / 0]. *)
Definition inf_of (c : comparison) : number :=
  match c with
  | Gt => PInf
  | Lt => NInf
  | Eq => NaN
  end.

Definition neg (x : number) : number :=
  match x with
  | Fin q => Fin (- q)
  | PInf => NInf
  | NInf => PInf
  | NaN => NaN
  end.

Definition add (x y : number) : number :=
  match x, y with
  | NaN, _ | _, NaN => NaN
  | Fin a, Fin b => Fin (a + b)
  | PInf, NInf | NInf, PInf => NaN
  | PInf, _ | _, PInf => PInf
  | NInf, _ | _, NInf => NInf
  end.

Definition sub (x y : number) : number := add x (neg y).

Definition mul (x y : number) : number :=
  match x, y with
  | NaN, _ | _, NaN => NaN
  | Fin a, Fin b => Fin (a * b)
  | Fin a, PInf | PInf, Fin a => inf_of (a ?= 0)
  | Fin a, NInf | NInf, Fin a => inf_of (0 ?= a)
  | PInf, PInf | NInf, NInf => PInf
  | PInf, NInf | NInf, PInf => NInf
  end.

Definition div (x y : number) : number :=
  match x, y with
  | NaN, _ | _, NaN => NaN
  | Fin a, Fin b => if Qeq_bool b 0 then inf_of (a ?= 0) else Fin (a / b)
  | Fin _, PInf | Fin _, NInf => Fin 0
  | PInf, Fin b => if Qle_bool 0 b then PInf else NInf
  | NInf, Fin b => if Qle_bool 0 b then NInf else PInf
  | _, _ => NaN
  end.

(** [x <= y], [x < y], [x >= y], [x > y]: false as soon as a side is NaN. *)
Definition le (x y : number) : bool :=
  match x, y with
  | NaN, _ | _, NaN => false
  | Fin a, Fin b => Qle_bool a b
  | NInf, _ | _, PInf => true
  | _, _ => false
  end.

Definition lt (x y : number) : bool :=
  match x, y with
  | NaN, _ | _, NaN => false
  | Fin a, Fin b => negb (Qle_bool b a)
  | PInf, _ | _, NInf => false
  | _, _ => true
  end.

Definition ge (x y : number) : bool := le y x.
Definition gt (x y : number) : bool := lt y x.

(** ToBoolean on a number: zero and NaN are falsy. *)
Definition truthy (x : number) : bool :=
  match x with
  | Fin q => negb (Qeq_bool q 0)
  | PInf | NInf => true
  | NaN => false
  end.

(** [a || b] on numbers. *)
Definition or_else (a b : number) : number := if truthy a then a else b.

(** A nullable number: [null] or a number. *)
Inductive value : Type :=
| VNull
| VNum (n : number).

Definition toNumber (v : value) : number :=
  match v with
  | VNull => zero
  | VNum n => n
  end.

Definition truthy_value (v : value) : bool :=
  match v with
  | VNull => false
  | VNum n => truthy n
  end.

(** Numbers that denote the same rational. *)
Definition num_eq (x y : number) : Prop :=
  match x, y with
  | Fin a, Fin b => a == b
  | PInf, PInf | NInf, NInf | NaN, NaN => True
  | _, _ => False
  end.

Definition is_finite (x : number) : Prop :=
  match x with Fin _ => True | _ => False end.

(** A stored trigger price that is the number zero or NaN. *)
Definition zero_or_nan (v : value) : Prop :=
  match v with
  | VNum (Fin q) => q == 0
  | VNum NaN => True
  | _ => False
  end.

End Js.

Declare Scope js_scope.
Delimit Scope js_scope with js.
Infix "+" := Js.add : js_scope.
Infix "-" := Js.sub : js_scope.
Infix "*" := Js.mul : js_scope.
Infix "/" := Js.div : js_scope.
Notation "- x" := (Js.neg x) : js_scope.
Infix "<=?" := Js.le : js_scope.
Infix "<?" := Js.lt : js_scope.
Infix ">=?" := Js.ge (at level 70) : js_scope.
Infix "==" := Js.num_eq (at level 70, no associativity) : js_scope.

Local Open Scope string_scope.

(** ** [parseFloat]

    The longest prefix of the trimmed input that is a decimal literal
    (sign, digits, fraction, exponent, or [Infinity]); NaN when there is
    none.  The strings of the model are ASCII. *)

Module Parse.

Definition is_space (c : ascii) : bool :=
  let n := nat_of_ascii c in
  ((9 <=? n) && (n <=? 13) || (n =? 32))%nat.

Fixpoint skip_spaces (s : string) : string :=
  match s with
  | String c rest => if is_space c then skip_spaces rest else s
  | EmptyString => s
  end.

Definition digit_of (c : ascii) : option Z :=
  let n := nat_of_ascii c in
  if ((48 <=? n) && (n <=? 57))%nat then Some (Z.of_nat (n - 48)) else None.

(** Reads a run of decimal digits: its value after [acc], how many digits
    were read after [count], and the rest of the string. *)
Fixpoint digits (s : string) (acc : Z) (count : nat) : Z * nat * string :=
  match s with
  | String c rest =>
      match digit_of c with
      | Some d => digits rest (10 * acc + d)%Z (S count)
      | None => (acc, count, s)
      end
  | EmptyString => (acc, count, s)
  end.

Definition sign_of (s : string) : Q * string :=
  match s with
  | String "-" rest => (-1, rest)
  | String "+" rest => (1, rest)
  | _ => (1, s)
  end.

Definition exponent (s : string) : Z :=
  match s with
  | String c rest =>
      if (Ascii.eqb c "e" || Ascii.eqb c "E")%bool then
        let '(sg, rest') :=
          match rest with
          | String "-" r => ((-1)%Z, r)
          | String "+" r => (1%Z, r)
          | _ => (1%Z, rest)
          end in
        let '(e, n, _) := digits rest' 0%Z 0%nat in
        match n with
        | O => 0%Z
        | S _ => (sg * e)%Z
        end
      else 0%Z
  | EmptyString => 0%Z
  end.

Definition parseFloat (input : string) : Js.number :=
  let '(sg, s1) := sign_of (skip_spaces input) in
  if String.prefix "Infinity" s1 then
    (if Qle_bool 0 sg then Js.PInf else Js.NInf)
  else
    let '(i, ni, s2) := digits s1 0%Z 0%nat in
    let '(m, nf, s3) :=
      match s2 with
      | String "." rest => digits rest i 0%nat
      | _ => (i, 0%nat, s2)
      end in
    match (ni + nf)%nat with
    | O => Js.NaN
    | S _ =>
        Js.Fin (sg * (inject_Z m / inject_Z (10 ^ Z.of_nat nf))
                   * Qpower 10 (exponent s3))
    end.

(** ToBoolean on a string: only the empty string is falsy. *)
Definition nonempty (s : string) : bool :=
  match s with
  | EmptyString => false
  | String _ _ => true
  end.

End Parse.

(** ** Vocabulary shared by the two engines *)

Inductive Market : Type := BTC | ETH | SOL.
Inductive Direction : Type := LONG | SHORT.
Inductive RiskMode : Type := SAFE | BALANCED | DEGENERATE.
Inductive OrderType : Type := MARKET | LIMIT.

(** The [riskMode] written into a position: ['CUSTOM'] or the selected mode. *)
Inductive RiskLabel : Type :=
| CUSTOM
| Preset (m : RiskMode).

(** The terminal statuses of the specification, read off a position's
    [closedByTP], [closedBySL] and [liquidated] flags. *)
Inductive Status : Type := OPEN | CLOSED_BY_TP | CLOSED_BY_SL | LIQUIDATED.

(** The [advancedSettings] object: raw text of the form inputs. *)
Module Adv.
Record t : Type := mk {
  orderType : OrderType;
  limitPrice : string;
  customLeverage : string;
  takeProfit : string;
  stopLoss : string
}.
End Adv.

(** What an event handler reads from outside the account: the current
    price object, [Date.now()] and [new Date().toLocaleTimeString()]. *)
Record Env : Type := mkEnv {
  prices : Market -> Js.value;
  now : Z;
  clock : string
}.

Definition leverageMap (m : RiskMode) : Js.number :=
  match m with
  | SAFE => Js.Fin 2
  | BALANCED => Js.Fin 5
  | DEGENERATE => Js.Fin 10
  end.

(** [pos.direction === 'LONG' ? 1 : -1] *)
Definition multiplier (d : Direction) : Js.number :=
  match d with
  | LONG => Js.Fin 1
  | SHORT => Js.Fin (-1)
  end.

(** [text ? parseFloat(text) : null] *)
Definition trigger_of (text : string) : Js.value :=
  if Parse.nonempty text then Js.VNum (Parse.parseFloat text) else Js.VNull.

(** [orderType === 'LIMIT'] *)
Definition is_limit (o : OrderType) : bool :=
  match o with
  | LIMIT => true
  | MARKET => false
  end.

(** Why [openPosition] returned without touching the state. *)
Inductive Rejection : Type := NoPriceAvailable | InsufficientBalance.

Local Open Scope js_scope.

(** ** The engine of App.jsx ([useAppState]) *)

Module App.

(** A position object.  The three flags are the properties [closedByTP],
    [closedBySL] and [liquidated], absent (false) on an open position. *)
Module Pos.
Record t : Type := mk {
  id : Z;
  market : Market;
  entryPrice : Js.number;
  direction : Direction;
  size : Js.number;
  riskAmount : Js.number;
  riskMode : RiskLabel;
  leverage : Js.number;
  initialMargin : Js.number;
  maintenanceMargin : Js.number;
  marginUsed : Js.number;
  liquidationPrice : Js.number;
  unrealizedPnL : Js.number;
  openedAt : string;
  takeProfit : Js.value;
  stopLoss : Js.value;
  closedByTP : bool;
  closedBySL : bool;
  liquidated : bool
}.

(** [{ ...pos, unrealizedPnL: u }] *)
Definition withPnL (pos : t) (u : Js.number) : t :=
  mk (id pos) (market pos) (entryPrice pos) (direction pos) (size pos)
     (riskAmount pos) (riskMode pos) (leverage pos) (initialMargin pos)
     (maintenanceMargin pos) (marginUsed pos) (liquidationPrice pos) u
     (openedAt pos) (takeProfit pos) (stopLoss pos)
     (closedByTP pos) (closedBySL pos) (liquidated pos).

(** [{ ...pos, unrealizedPnL: u, closedByTP: true }] *)
Definition withTP (pos : t) (u : Js.number) : t :=
  mk (id pos) (market pos) (entryPrice pos) (direction pos) (size pos)
     (riskAmount pos) (riskMode pos) (leverage pos) (initialMargin pos)
     (maintenanceMargin pos) (marginUsed pos) (liquidationPrice pos) u
     (openedAt pos) (takeProfit pos) (stopLoss pos)
     true (closedBySL pos) (liquidated pos).

(** [{ ...pos, unrealizedPnL: u, closedBySL: true }] *)
Definition withSL (pos : t) (u : Js.number) : t :=
  mk (id pos) (market pos) (entryPrice pos) (direction pos) (size pos)
     (riskAmount pos) (riskMode pos) (leverage pos) (initialMargin pos)
     (maintenanceMargin pos) (marginUsed pos) (liquidationPrice pos) u
     (openedAt pos) (takeProfit pos) (stopLoss pos)
     (closedByTP pos) true (liquidated pos).

(** [{ ...pos, unrealizedPnL: u, liquidated: true }] *)
Definition withLiquidation (pos : t) (u : Js.number) : t :=
  mk (id pos) (market pos) (entryPrice pos) (direction pos) (size pos)
     (riskAmount pos) (riskMode pos) (leverage pos) (initialMargin pos)
     (maintenanceMargin pos) (marginUsed pos) (liquidationPrice pos) u
     (openedAt pos) (takeProfit pos) (stopLoss pos)
     (closedByTP pos) (closedBySL pos) true.

(** [!pos.liquidated && !pos.closedByTP && !pos.closedBySL] *)
Definition stillOpen (pos : t) : bool :=
  negb (liquidated pos) && negb (closedByTP pos) && negb (closedBySL pos).

Definition status (pos : t) : Status :=
  if closedByTP pos then CLOSED_BY_TP
  else if closedBySL pos then CLOSED_BY_SL
  else if liquidated pos then LIQUIDATED
  else OPEN.
End Pos.

Definition position : Type := Pos.t.

(** The state cells of [useAppState] that the engine reads or writes. *)
Record state : Type := mkState {
  balance : Js.number;
  selectedMarket : Market;
  positions : list position;
  direction : Direction;
  positionSize : Js.number;
  riskMode : RiskMode;
  showAdvanced : bool;
  advancedSettings : Adv.t
}.

Definition setBalance (f : Js.number -> Js.number) (st : state) : state :=
  mkState (f (balance st)) (selectedMarket st) (positions st) (direction st)
          (positionSize st) (riskMode st) (showAdvanced st)
          (advancedSettings st).

Definition setPositions (f : list position -> list position) (st : state)
  : state :=
  mkState (balance st) (selectedMarket st) (f (positions st)) (direction st)
          (positionSize st) (riskMode st) (showAdvanced st)
          (advancedSettings st).

Definition setPositionSize (r : Js.number) (st : state) : state :=
  mkState (balance st) (selectedMarket st) (positions st) (direction st)
          r (riskMode st) (showAdvanced st) (advancedSettings st).

(** *** The per-tick revaluation effect *)

(** [(priceDiff / pos.entryPrice) * pos.size * multiplier] *)
Definition pnlAt (currentPrice : Js.value) (pos : position) : Js.number :=
  let priceDiff := Js.toNumber currentPrice - Pos.entryPrice pos in
  let multiplier := multiplier (Pos.direction pos) in
  (priceDiff / Pos.entryPrice pos) * Pos.size pos * multiplier.

Definition tpHit (currentPrice : Js.value) (pos : position) : bool :=
  match Pos.direction pos with
  | LONG => Js.toNumber currentPrice >=? Js.toNumber (Pos.takeProfit pos)
  | SHORT => Js.toNumber currentPrice <=? Js.toNumber (Pos.takeProfit pos)
  end.

Definition slHit (currentPrice : Js.value) (pos : position) : bool :=
  match Pos.direction pos with
  | LONG => Js.toNumber currentPrice <=? Js.toNumber (Pos.stopLoss pos)
  | SHORT => Js.toNumber currentPrice >=? Js.toNumber (Pos.stopLoss pos)
  end.

(** The callback of [prevPositions.map]: the updated position, and whether
    it was pushed onto [closedPositions]. *)
Definition revalue (prices : Market -> Js.value) (pos : position)
  : position * bool :=
  let currentPrice := prices (Pos.market pos) in
  let pnl := pnlAt currentPrice pos in
  if Js.truthy_value (Pos.takeProfit pos) && tpHit currentPrice pos then
    (Pos.withTP pos pnl, true)
  else if Js.truthy_value (Pos.stopLoss pos) && slHit currentPrice pos then
    (Pos.withSL pos pnl, true)
  else
    let riskAmount :=
      Js.or_else (Pos.riskAmount pos) (Pos.initialMargin pos) in
    if pnl <=? - riskAmount then
      (Pos.withLiquidation pos (- riskAmount), true)
    else
      (Pos.withPnL pos pnl, false).

(** The three tests of [revalue], each on its own. *)
Definition tpFires (currentPrice : Js.value) (pos : position) : bool :=
  Js.truthy_value (Pos.takeProfit pos) && tpHit currentPrice pos.

Definition slFires (currentPrice : Js.value) (pos : position) : bool :=
  Js.truthy_value (Pos.stopLoss pos) && slHit currentPrice pos.

Definition liquidates (currentPrice : Js.value) (pos : position) : bool :=
  pnlAt currentPrice pos
  <=? - Js.or_else (Pos.riskAmount pos) (Pos.initialMargin pos).

(** [closedPositions.reduce(..., 0)] *)
Definition totalReturn (closedPositions : list position) : Js.number :=
  fold_left
    (fun sum p =>
       if Pos.liquidated p
       then sum + Pos.initialMargin p + Pos.unrealizedPnL p
       else sum + Pos.initialMargin p + Pos.unrealizedPnL p)
    closedPositions Js.zero.

(** The array [closedPositions] after the [map] pass. *)
Definition closedPositions (prices : Market -> Js.value)
  (prevPositions : list position) : list position :=
  map fst (filter snd (map (revalue prices) prevPositions)).

Definition updatePositions (prices : Market -> Js.value) (st : state)
  : state :=
  if (0 <? List.length (positions st))%nat && Js.truthy_value (prices BTC) then
    let updatedPositions := map fst (map (revalue prices) (positions st)) in
    let closedPositions := closedPositions prices (positions st) in
    let st' :=
      if (0 <? List.length closedPositions)%nat
      then setBalance (fun b => b + totalReturn closedPositions) st
      else st in
    setPositions (fun _ => filter Pos.stillOpen updatedPositions) st'
  else st.

(** *** Commands *)

Inductive outcome : Type :=
| Rejected (why : Rejection)
| Opened (st : state).

(** [showAdvanced && advancedSettings.customLeverage
      ? parseFloat(advancedSettings.customLeverage) : leverageMap[riskMode]] *)
Definition orderLeverage (st : state) : Js.number :=
  if showAdvanced st
     && Parse.nonempty (Adv.customLeverage (advancedSettings st))
  then Parse.parseFloat (Adv.customLeverage (advancedSettings st))
  else leverageMap (riskMode st).

(** The object literal [newPosition] with the locals it is built from, the
    same in both order branches up to the entry price. *)
Definition newPosition (env : Env) (st : state)
  (entryPrice leverage : Js.number) : position :=
  let riskAmount := positionSize st in
  let notionalSize := riskAmount * leverage in
  let margin := riskAmount in
  let maintenanceMargin := Js.zero in
  let liquidationPrice :=
    match direction st with
    | LONG => entryPrice * (Js.one - Js.one / leverage)
    | SHORT => entryPrice * (Js.one + Js.one / leverage)
    end in
  Pos.mk (now env) (selectedMarket st) entryPrice (direction st)
         notionalSize riskAmount
         (if showAdvanced st then CUSTOM else Preset (riskMode st))
         leverage margin maintenanceMargin margin liquidationPrice
         Js.zero (clock env)
         (trigger_of (Adv.takeProfit (advancedSettings st)))
         (trigger_of (Adv.stopLoss (advancedSettings st)))
         false false false.

Definition openPosition (env : Env) (st : state) : outcome :=
  let currentPrice := prices env (selectedMarket st) in
  if negb (Js.truthy_value currentPrice) then Rejected NoPriceAvailable
  else
    let leverage := orderLeverage st in
    let initialMargin := positionSize st / leverage in
    if balance st <? initialMargin then Rejected InsufficientBalance
    else
      if is_limit (Adv.orderType (advancedSettings st))
         && Parse.nonempty (Adv.limitPrice (advancedSettings st))
      then
        let limitPrice :=
          Parse.parseFloat (Adv.limitPrice (advancedSettings st)) in
        let entryPrice := limitPrice in
        let riskAmount := positionSize st in
        let margin := riskAmount in
        let newPosition := newPosition env st entryPrice leverage in
        Opened (setPositions (fun prev => (prev ++ [newPosition])%list)
                  (setBalance (fun prev => prev - margin) st))
      else
        let riskAmount := positionSize st in
        let margin := riskAmount in
        let newPosition :=
          newPosition env st (Js.toNumber currentPrice) leverage in
        Opened (setPositions (fun prev => (prev ++ [newPosition])%list)
                  (setBalance (fun prev => prev - margin) st)).

(** The state the handler leaves behind. *)
Definition afterOpen (env : Env) (st : state) : state :=
  match openPosition env st with
  | Rejected _ => st
  | Opened st' => st'
  end.

Definition closePosition (positionId : Z) (st : state) : state :=
  match find (fun p => Pos.id p =? positionId)%Z (positions st) with
  | None => st
  | Some position =>
      let pnl := Pos.unrealizedPnL position in
      let margin := Pos.initialMargin position in
      setPositions (filter (fun p => negb (Pos.id p =? positionId)%Z))
        (setBalance (fun prev => prev + margin + pnl) st)
  end.

Definition closeAllPositions (st : state) : state :=
  let totalPnL :=
    fold_left (fun sum pos => sum + Pos.unrealizedPnL pos)
              (positions st) Js.zero in
  let totalMargin :=
    fold_left (fun sum pos => sum + Pos.initialMargin pos)
              (positions st) Js.zero in
  setPositions (fun _ => [])
    (setBalance (fun prev => prev + totalMargin + totalPnL) st).

(** [closePosition] called once for each id of the list, in that order. *)
Definition closeEach (ids : list Z) (st : state) : state :=
  fold_left (fun s i => closePosition i s) ids st.

(** What closing credits for a whole book: margin plus pnl of each position. *)
Definition bookTotal (book : list position) : Js.number :=
  fold_right (fun p acc => (Pos.initialMargin p + Pos.unrealizedPnL p) + acc)
             Js.zero book.

(** A run of price ticks, oldest first. *)
Definition runTicks (ticks : list (Market -> Js.value)) (st : state) : state :=
  fold_left (fun s prices => updatePositions prices s) ticks st.

(** *** The account as a transition system *)

(** One event: a command, a price tick, or a change of the form selections
    (market, direction, size, risk mode, advanced settings), which touches
    neither the balance nor the book. *)
Inductive step : state -> state -> Prop :=
| step_open (env : Env) (st : state) : step st (afterOpen env st)
| step_close (positionId : Z) (st : state) :
    step st (closePosition positionId st)
| step_closeAll (st : state) : step st (closeAllPositions st)
| step_tick (prices : Market -> Js.value) (st : state) :
    step st (updatePositions prices st)
| step_select (st st' : state) :
    balance st' = balance st ->
    positions st' = positions st ->
    step st st'.


(** What [openPosition] writes into a position and no tick changes. *)
Record booked (p : position) : Prop := mkBooked {
  booked_size : Pos.size p = Pos.riskAmount p * Pos.leverage p;
  booked_margin : Pos.initialMargin p = Pos.riskAmount p;
  booked_liquidation :
    Pos.liquidationPrice p =
    match Pos.direction p with
    | LONG => Pos.entryPrice p * (Js.one - Js.one / Pos.leverage p)
    | SHORT => Pos.entryPrice p * (Js.one + Js.one / Pos.leverage p)
    end;
  booked_open : Pos.stillOpen p = true
}.

End App.

(** ** The engine of hooks/useTradingEngine.js

    The stand-alone hook that App.jsx imports: margin is the position size
    divided by the leverage, fees are charged on the size, and liquidation
    sits at half the margin distance.  Its price walk and its funding timer
    are not modelled. *)

Module TradingEngine.

Module Pos.
Record t : Type := mk {
  id : Z;
  market : Market;
  entryPrice : Js.number;
  direction : Direction;
  size : Js.number;
  riskMode : RiskLabel;
  leverage : Js.number;
  initialMargin : Js.number;
  maintenanceMargin : Js.number;
  marginUsed : Js.number;
  liquidationPrice : Js.number;
  unrealizedPnL : Js.number;
  openedAt : string;
  takeProfit : Js.value;
  stopLoss : Js.value;
  closedByTP : bool;
  closedBySL : bool;
  liquidated : bool
}.

Definition withPnL (pos : t) (u : Js.number) : t :=
  mk (id pos) (market pos) (entryPrice pos) (direction pos) (size pos)
     (riskMode pos) (leverage pos) (initialMargin pos)
     (maintenanceMargin pos) (marginUsed pos) (liquidationPrice pos) u
     (openedAt pos) (takeProfit pos) (stopLoss pos)
     (closedByTP pos) (closedBySL pos) (liquidated pos).

Definition withTP (pos : t) (u : Js.number) : t :=
  mk (id pos) (market pos) (entryPrice pos) (direction pos) (size pos)
     (riskMode pos) (leverage pos) (initialMargin pos)
     (maintenanceMargin pos) (marginUsed pos) (liquidationPrice pos) u
     (openedAt pos) (takeProfit pos) (stopLoss pos)
     true (closedBySL pos) (liquidated pos).

Definition withSL (pos : t) (u : Js.number) : t :=
  mk (id pos) (market pos) (entryPrice pos) (direction pos) (size pos)
     (riskMode pos) (leverage pos) (initialMargin pos)
     (maintenanceMargin pos) (marginUsed pos) (liquidationPrice pos) u
     (openedAt pos) (takeProfit pos) (stopLoss pos)
     (closedByTP pos) true (liquidated pos).

Definition withLiquidation (pos : t) (u : Js.number) : t :=
  mk (id pos) (market pos) (entryPrice pos) (direction pos) (size pos)
     (riskMode pos) (leverage pos) (initialMargin pos)
     (maintenanceMargin pos) (marginUsed pos) (liquidationPrice pos) u
     (openedAt pos) (takeProfit pos) (stopLoss pos)
     (closedByTP pos) (closedBySL pos) true.

Definition stillOpen (pos : t) : bool :=
  negb (liquidated pos) && negb (closedByTP pos) && negb (closedBySL pos).
End Pos.

Definition position : Type := Pos.t.

(** The hook's [balance], [prices] and [positions] cells. *)
Record state : Type := mkState {
  balance : Js.number;
  prices : Market -> Js.value;
  positions : list position
}.

(** The arguments of the hook's [openPosition]. *)
Record order : Type := mkOrder {
  selectedMarket : Market;
  direction : Direction;
  positionSize : Js.number;
  riskMode : RiskMode;
  showAdvanced : bool;
  advancedSettings : Adv.t
}.

(** 0.04% *)
Definition TRADING_FEE_RATE : Js.number := Js.Fin (4 # 10000).

Definition pnlAt (currentPrice : Js.value) (pos : position) : Js.number :=
  let priceDiff := Js.toNumber currentPrice - Pos.entryPrice pos in
  let multiplier := multiplier (Pos.direction pos) in
  let leverage := Pos.leverage pos in
  (priceDiff / Pos.entryPrice pos) * Pos.size pos * leverage * multiplier.

Definition tpHit (currentPrice : Js.value) (pos : position) : bool :=
  match Pos.direction pos with
  | LONG => Js.toNumber currentPrice >=? Js.toNumber (Pos.takeProfit pos)
  | SHORT => Js.toNumber currentPrice <=? Js.toNumber (Pos.takeProfit pos)
  end.

Definition slHit (currentPrice : Js.value) (pos : position) : bool :=
  match Pos.direction pos with
  | LONG => Js.toNumber currentPrice <=? Js.toNumber (Pos.stopLoss pos)
  | SHORT => Js.toNumber currentPrice >=? Js.toNumber (Pos.stopLoss pos)
  end.

Definition revalue (prices : Market -> Js.value) (pos : position)
  : position * bool :=
  let currentPrice := prices (Pos.market pos) in
  let pnl := pnlAt currentPrice pos in
  if Js.truthy_value (Pos.takeProfit pos) && tpHit currentPrice pos then
    (Pos.withTP pos pnl, true)
  else if Js.truthy_value (Pos.stopLoss pos) && slHit currentPrice pos then
    (Pos.withSL pos pnl, true)
  else
    let lossThreshold := Pos.initialMargin pos - Pos.maintenanceMargin pos in
    if pnl <=? - lossThreshold then
      (Pos.withLiquidation pos (- Pos.size pos), true)
    else
      (Pos.withPnL pos pnl, false).

Definition totalReturn (closedPositions : list position) : Js.number :=
  fold_left
    (fun sum p =>
       if Pos.liquidated p
       then sum + Pos.initialMargin p + Pos.unrealizedPnL p
       else sum + Pos.initialMargin p + Pos.unrealizedPnL p)
    closedPositions Js.zero.

Definition updatePositions (st : state) : state :=
  if (0 <? List.length (positions st))%nat && Js.truthy_value (prices st BTC)
  then
    let evaluated := map (revalue (prices st)) (positions st) in
    let closedPositions := map fst (filter snd evaluated) in
    let updatedPositions := map fst evaluated in
    mkState
      (if (0 <? List.length closedPositions)%nat
       then balance st + totalReturn closedPositions
       else balance st)
      (prices st)
      (filter Pos.stillOpen updatedPositions)
  else st.

Inductive outcome : Type :=
| Rejected (why : Rejection)
| Opened (st : state).

Definition orderLeverage (o : order) : Js.number :=
  if showAdvanced o && Parse.nonempty (Adv.customLeverage (advancedSettings o))
  then Parse.parseFloat (Adv.customLeverage (advancedSettings o))
  else leverageMap (riskMode o).

Definition newPosition (now : Z) (clock : string) (o : order)
  (entryPrice leverage initialMargin : Js.number) : position :=
  let maintenanceMargin := initialMargin * Js.Fin (1 # 2) in
  let marginUsed := initialMargin in
  let liquidationDistance := Js.Fin (1 # 2) / leverage in
  let liquidationPrice :=
    match direction o with
    | LONG => entryPrice * (Js.one - liquidationDistance)
    | SHORT => entryPrice * (Js.one + liquidationDistance)
    end in
  Pos.mk now (selectedMarket o) entryPrice (direction o) (positionSize o)
         (if showAdvanced o then CUSTOM else Preset (riskMode o))
         leverage initialMargin maintenanceMargin marginUsed liquidationPrice
         Js.zero clock
         (trigger_of (Adv.takeProfit (advancedSettings o)))
         (trigger_of (Adv.stopLoss (advancedSettings o)))
         false false false.

Definition openPosition (now : Z) (clock : string) (o : order) (st : state)
  : outcome :=
  let currentPrice := prices st (selectedMarket o) in
  if negb (Js.truthy_value currentPrice) then Rejected NoPriceAvailable
  else
    let leverage := orderLeverage o in
    let initialMargin := positionSize o / leverage in
    let openFee := positionSize o * TRADING_FEE_RATE in
    let totalCost := initialMargin + openFee in
    if balance st <? totalCost then Rejected InsufficientBalance
    else
      if is_limit (Adv.orderType (advancedSettings o))
         && Parse.nonempty (Adv.limitPrice (advancedSettings o))
      then
        let limitPrice :=
          Parse.parseFloat (Adv.limitPrice (advancedSettings o)) in
        let entryPrice := limitPrice in
        let p := newPosition now clock o entryPrice leverage initialMargin in
        Opened (mkState (balance st - totalCost) (prices st)
                        (positions st ++ [p])%list)
      else
        let p := newPosition now clock o (Js.toNumber currentPrice)
                             leverage initialMargin in
        Opened (mkState (balance st - totalCost) (prices st)
                        (positions st ++ [p])%list).

End TradingEngine.

(** ** The scenarios of the specification *)

Module Scenario.

Definition quotes (btc eth sol : Q) : Market -> Js.value :=
  fun m =>
    match m with
    | BTC => Js.VNum (Js.Fin btc)
    | ETH => Js.VNum (Js.Fin eth)
    | SOL => Js.VNum (Js.Fin sol)
    end.

(** The fallback prices of App.jsx. *)
Definition env0 : Env := mkEnv (quotes 95000 3500 140) 1700000000000 "10:00:00".

Definition market_order (tp sl : string) : Adv.t := Adv.mk MARKET "" "" tp sl.

(** The defaults of [useAppState]: balance 1000, BTC, LONG, 50, BALANCED. *)
Definition fresh : App.state :=
  App.mkState (Js.Fin 1000) BTC [] LONG (Js.Fin 50) BALANCED false
              (market_order "" "").

(** The same account with a stop-loss typed in at 90000. *)
Definition fresh_sl : App.state :=
  App.mkState (Js.Fin 1000) BTC [] LONG (Js.Fin 50) BALANCED false
              (market_order "" "90000").

(** A take-profit at 1 and a stop-loss at 90000 on the same long. *)
Definition fresh_tp_sl : App.state :=
  App.mkState (Js.Fin 1000) BTC [] LONG (Js.Fin 50) BALANCED false
              (market_order "1" "90000").

(** An account holding 20 that risks 50 at 5x. *)
Definition thin : App.state :=
  App.mkState (Js.Fin 20) BTC [] LONG (Js.Fin 50) BALANCED false
              (market_order "" "").

(** The long opened from [fresh] at 95000. *)
Definition long_btc : App.position :=
  App.newPosition env0 fresh (Js.Fin 95000) (Js.Fin 5).

Definition long_btc_sl : App.position :=
  App.newPosition env0 fresh_sl (Js.Fin 95000) (Js.Fin 5).

Definition long_btc_tp_sl : App.position :=
  App.newPosition env0 fresh_tp_sl (Js.Fin 95000) (Js.Fin 5).

(** A take-profit typed in as 0 and a stop-loss typed in as abc. *)
Definition fresh_void : App.state :=
  App.mkState (Js.Fin 1000) BTC [] LONG (Js.Fin 50) BALANCED false
              (market_order "0" "abc").

Definition long_btc_void : App.position :=
  App.newPosition env0 fresh_void (Js.Fin 95000) (Js.Fin 5).




(** A short on ETH at 10x with a stop-loss typed in at 3600. *)
Definition fresh_short_eth : App.state :=
  App.mkState (Js.Fin 1000) ETH [] SHORT (Js.Fin 50) DEGENERATE false
              (market_order "" "3600").

Definition short_eth : App.position :=
  App.newPosition env0 fresh_short_eth (Js.Fin 3500) (Js.Fin 10).

(** The hook's defaults and the same order placed through it. *)
Definition hook_fresh : TradingEngine.state :=
  TradingEngine.mkState (Js.Fin 1000) (quotes 95000 3500 140) [].

Definition hook_order : TradingEngine.order :=
  TradingEngine.mkOrder BTC LONG (Js.Fin 50) BALANCED false (market_order "" "").

Definition hook_long_btc : TradingEngine.position :=
  TradingEngine.newPosition 1700000000000 "10:00:00" hook_order
    (Js.Fin 95000) (Js.Fin 5) (Js.Fin 50 / Js.Fin 5).

End Scenario.

(** ** What App.jsx shows of the account *)

Module View.

(** [Header]: [balance + positions.reduce((sum, pos) => sum + pos.unrealizedPnL, 0)] *)
Definition totalUnrealizedPnL (positions : list App.position) : Js.number :=
  fold_left (fun sum pos => sum + App.Pos.unrealizedPnL pos) positions Js.zero.

Definition liveBalance (st : App.state) : Js.number :=
  App.balance st + totalUnrealizedPnL (App.positions st).

(** Balance plus, for every open position, its margin and its pnl: what the
    account is worth at the positions' current marks. *)
Definition accountValue (st : App.state) : Js.number :=
  App.balance st + App.bookTotal (App.positions st).

(** The positions of a book as a tick revalues them, closed ones included. *)
Definition revalued (prices : Market -> Js.value) (book : list App.position)
  : list App.position :=
  map fst (map (App.revalue prices) book).

(** [AdvancedSettings]: the leverage and the entry price it previews with. *)
Definition advancedLeverage (st : App.state) : Js.number :=
  if Parse.nonempty (Adv.customLeverage (App.advancedSettings st))
  then Parse.parseFloat (Adv.customLeverage (App.advancedSettings st))
  else leverageMap (App.riskMode st).

(** [orderType === 'LIMIT' && limitPrice ? parseFloat(limitPrice) : currentPrice],
    shared by [AdvancedSettings] and [ActionButtons]. *)
Definition entryPrice (env : Env) (st : App.state) : Js.value :=
  let currentPrice := prices env (App.selectedMarket st) in
  if is_limit (Adv.orderType (App.advancedSettings st))
     && Parse.nonempty (Adv.limitPrice (App.advancedSettings st))
  then Js.VNum (Parse.parseFloat (Adv.limitPrice (App.advancedSettings st)))
  else currentPrice.

(** The body shared by [calculateTPPnL] and [calculateSLPnL], [text] being
    [advancedSettings.takeProfit] or [advancedSettings.stopLoss]. *)
Definition calculatePnLAt (text : string) (env : Env) (st : App.state)
  : Js.value :=
  let entryPrice := entryPrice env st in
  if negb (Parse.nonempty text) || negb (Js.truthy_value entryPrice)
  then Js.VNull
  else
    let level := Parse.parseFloat text in
    let priceDiff := level - Js.toNumber entryPrice in
    let multiplier := multiplier (App.direction st) in
    let notionalSize := App.positionSize st * advancedLeverage st in
    Js.VNum ((priceDiff / Js.toNumber entryPrice) * notionalSize * multiplier).

Definition calculateTPPnL (env : Env) (st : App.state) : Js.value :=
  calculatePnLAt (Adv.takeProfit (App.advancedSettings st)) env st.

Definition calculateSLPnL (env : Env) (st : App.state) : Js.value :=
  calculatePnLAt (Adv.stopLoss (App.advancedSettings st)) env st.

(** [ActionButtons]:
    [entryPrice && direction === 'LONG' ? entryPrice * (1 - 1/leverage)
                                        : entryPrice && entryPrice * (1 + 1/leverage)] *)
Definition liquidationPrice (env : Env) (st : App.state) : Js.value :=
  let leverage := App.orderLeverage st in
  let entryPrice := entryPrice env st in
  let is_long := match App.direction st with LONG => true | SHORT => false end in
  if Js.truthy_value entryPrice && is_long
  then Js.VNum (Js.toNumber entryPrice * (Js.one - Js.one / leverage))
  else if Js.truthy_value entryPrice
       then Js.VNum (Js.toNumber entryPrice * (Js.one + Js.one / leverage))
       else entryPrice.

End View.

(** ** Arrays and [Math.min] / [Math.max] *)

Module Arr.

(** [array.slice(start)] for an integer [start]: from [start] counted from
    the end when it is negative, from [start] otherwise. *)
Definition slice {A : Type} (start : Z) (array : list A) : list A :=
  let len := Z.of_nat (List.length array) in
  let k := if (start <? 0)%Z then Z.max (len + start) 0 else Z.min start len in
  skipn (Z.to_nat k) array.

Definition max2 (a b : Js.number) : Js.number :=
  match a, b with
  | Js.NaN, _ | _, Js.NaN => Js.NaN
  | _, _ => if a <=? b then b else a
  end.

Definition min2 (a b : Js.number) : Js.number :=
  match a, b with
  | Js.NaN, _ | _, Js.NaN => Js.NaN
  | _, _ => if a <=? b then a else b
  end.

(** [Math.max(...values)]: -Infinity for no argument, NaN when one is NaN. *)
Definition max (values : list Js.number) : Js.number :=
  fold_left max2 values Js.NInf.

(** [Math.min(...values)]: Infinity for no argument, NaN when one is NaN. *)
Definition min (values : list Js.number) : Js.number :=
  fold_left min2 values Js.PInf.

(** [array.map((item, index) => f(item, index))], from a starting index. *)
Fixpoint mapi_from {A B : Type} (f : A -> nat -> B) (index : nat)
  (array : list A) : list B :=
  match array with
  | [] => []
  | item :: rest => f item index :: mapi_from f (S index) rest
  end.

Definition mapi {A B : Type} (f : A -> nat -> B) (array : list A) : list B :=
  mapi_from f 0 array.

Definition of_nat (n : nat) : Js.number := Js.Fin (inject_Z (Z.of_nat n)).

End Arr.

(** ** The price sources of App.jsx *)

Module Feed.

(** [(livePrices.BTC && livePrices.ETH && livePrices.SOL)
      ? livePrices : fallbackPrices] *)
Definition selectPrices (livePrices fallbackPrices : Market -> Js.value)
  : Market -> Js.value :=
  if Js.truthy_value (livePrices BTC) && Js.truthy_value (livePrices ETH)
     && Js.truthy_value (livePrices SOL)
  then livePrices else fallbackPrices.

(** The initial [fallbackPrices]. *)
Definition fallbackPrices0 : Market -> Js.value :=
  fun m =>
    match m with
    | BTC => Js.VNum (Js.Fin 95000)
    | ETH => Js.VNum (Js.Fin 3500)
    | SOL => Js.VNum (Js.Fin 140)
    end.

(** [prev.X * (1 + (Math.random() - 0.5) * 0.0005)], [random] being what
    [Math.random()] returned. *)
Definition jitter (prev : Js.value) (random : Js.number) : Js.value :=
  Js.VNum (Js.toNumber prev
           * (Js.one + (random - Js.Fin (1 # 2)) * Js.Fin (5 # 10000))).

(** The updater passed to [setFallbackPrices], one draw per market. *)
Definition jitterAll (random : Market -> Js.number)
  (prev : Market -> Js.value) : Market -> Js.value :=
  fun m => jitter (prev m) (random m).

(** The interval callback on the fallback prices: it jitters them only while
    some live price is missing. *)
Definition jitterStep (livePrices : Market -> Js.value)
  (random : Market -> Js.number) (fallbackPrices : Market -> Js.value)
  : Market -> Js.value :=
  if negb (Js.truthy_value (livePrices BTC))
     || negb (Js.truthy_value (livePrices ETH))
     || negb (Js.truthy_value (livePrices SOL))
  then jitterAll random fallbackPrices
  else fallbackPrices.

(** Any number of interval callbacks, each with its live prices and draws. *)
Definition jitterRun
  (steps : list ((Market -> Js.value) * (Market -> Js.number)))
  (fallbackPrices : Market -> Js.value) : Market -> Js.value :=
  fold_left (fun prev step => jitterStep (fst step) (snd step) prev)
            steps fallbackPrices.

(** [[...prevHistory.X, fallbackPrices.X].slice(-50)] *)
Definition pushHistory (prevHistory : list Js.value) (price : Js.value)
  : list Js.value :=
  Arr.slice (-50) (prevHistory ++ [price])%list.

End Feed.

(** ** hooks/useLivePrices.js *)

Module LivePrices.

(** The history update for one symbol:
    [if (price !== null)
       newHistory[symbol] = [...(prevHistory[symbol] || []), price]
                              .slice(-maxHistoryPoints)] *)
Definition pushHistory (maxHistoryPoints : Z) (prevHistory : list Js.number)
  (price : Js.value) : list Js.number :=
  match price with
  | Js.VNull => prevHistory
  | Js.VNum price =>
      Arr.slice (- maxHistoryPoints) (prevHistory ++ [price])%list
  end.

(** The [{ high, low }] entry written for one symbol:
    [allPrices = [...history, price]], then [Math.max] and [Math.min]. *)
Definition highLow (history : list Js.number) (price : Js.number)
  : Js.number * Js.number :=
  let allPrices := (history ++ [price])%list in
  (Arr.max allPrices, Arr.min allPrices).

End LivePrices.

(** ** components/AlivePriceChart.jsx *)

Module Chart.

Definition svgWidth : Js.number := Js.Fin 600.
Definition padding : Js.number := Js.Fin 20.

(** [maxPrice - minPrice || 1] *)
Definition priceRange (prices : list Js.number) : Js.number :=
  Js.or_else (Arr.max prices - Arr.min prices) Js.one.

(** [svgHeight - padding
      - ((price - minPrice) / priceRange) * (svgHeight - 2 * padding)] *)
Definition yOf (svgHeight : Js.number) (prices : list Js.number)
  (price : Js.number) : Js.number :=
  svgHeight - padding
  - ((price - Arr.min prices) / priceRange prices)
    * (svgHeight - Js.Fin 2 * padding).

(** [normalizedData] of the chart with the 250-high viewBox:
    [x = (index / Math.max(prices.length - 1, 1)) * (svgWidth - 2 * padding)
         + padding]. *)
Definition normalizedData (prices : option (list Js.number))
  : list (Js.number * Js.number) :=
  match prices with
  | None | Some [] => []
  | Some prices =>
      let svgHeight := Js.Fin 250 in
      Arr.mapi
        (fun price index =>
           let x := (Arr.of_nat index
                     / Arr.max [Arr.of_nat (List.length prices) - Js.one; Js.one])
                    * (svgWidth - Js.Fin 2 * padding) + padding in
           let y := yOf svgHeight prices price in
           (x, y))
        prices
  end.

(** [normalizedData] of the chart with the 200-high viewBox:
    [x = (index / (prices.length - 1)) * (svgWidth - 2 * padding) + padding]. *)
Definition normalizedData200 (prices : option (list Js.number))
  : list (Js.number * Js.number) :=
  match prices with
  | None | Some [] => []
  | Some prices =>
      let svgHeight := Js.Fin 200 in
      Arr.mapi
        (fun price index =>
           let x := (Arr.of_nat index
                     / (Arr.of_nat (List.length prices) - Js.one))
                    * (svgWidth - Js.Fin 2 * padding) + padding in
           let y := yOf svgHeight prices price in
           (x, y))
        prices
  end.

(** [entryPoint] of the chart with the 250-high viewBox: null without
    prices or without an entry price, else the middle of the chart at the
    height of the entry price. *)
Definition entryPoint (prices : option (list Js.number))
  (entryPrice : Js.value) : option (Js.number * Js.number) :=
  match prices with
  | None | Some [] => None
  | Some prices =>
      if negb (Js.truthy_value entryPrice) then None
      else
        let svgHeight := Js.Fin 250 in
        let x := svgWidth / Js.Fin 2 in
        let y := yOf svgHeight prices (Js.toNumber entryPrice) in
        Some (x, y)
  end.

(** [currentPoint]: the same at the right end of the chart. *)
Definition currentPoint (prices : option (list Js.number))
  (currentPrice : Js.value) : option (Js.number * Js.number) :=
  match prices with
  | None | Some [] => None
  | Some prices =>
      if negb (Js.truthy_value currentPrice) then None
      else
        let svgHeight := Js.Fin 250 in
        let x := svgWidth - padding in
        let y := yOf svgHeight prices (Js.toNumber currentPrice) in
        Some (x, y)
  end.

End Chart.

(** The pulse marker of the chart:
    [cx = normalizedData[normalizedData.length - 1]?.x || 300] and
    [cy = normalizedData[normalizedData.length - 1]?.y || 100]. *)
Module Marker.

Definition pulse (normalizedData : list (Js.number * Js.number))
  : Js.number * Js.number :=
  match nth_error normalizedData (List.length normalizedData - 1) with
  | None => (Js.Fin 300, Js.Fin 100)
  | Some (x, y) => (Js.or_else x (Js.Fin 300), Js.or_else y (Js.Fin 100))
  end.

End Marker.

(** ** The price walk of hooks/useTradingEngine.js *)

Module Walk.

Record config : Type := mkConfig {
  initialPrice : Js.number;
  volatility : Js.number;
  seed : Z
}.

Definition priceConfig (m : Market) : config :=
  match m with
  | BTC => mkConfig (Js.Fin 95000) (Js.Fin (2 # 1000)) 12345
  | ETH => mkConfig (Js.Fin 3500) (Js.Fin (3 # 1000)) 67890
  | SOL => mkConfig (Js.Fin 140) (Js.Fin (4 # 1000)) 11111
  end.

(** The state update of [seededRandom]:
    [x = (x * 1664525 + 1013904223) % 4294967296], on integers. *)
Definition next (x : Z) : Z :=
  Z.rem (x * 1664525 + 1013904223) 4294967296.

(** One call of the generator: its new state and [x / 4294967296]. *)
Definition draw (x : Z) : Z * Js.number :=
  let x' := next x in
  (x', Js.Fin (inject_Z x') / Js.Fin 4294967296).

(** [prev.X * (1 + (random - 0.5) * volatility * 2)] *)
Definition move (prev : Js.value) (random volatility : Js.number) : Js.value :=
  Js.VNum (Js.toNumber prev
           * (Js.one + (random - Js.Fin (1 # 2)) * volatility * Js.Fin 2)).

(** The generators' states and the [prices] cell. *)
Record state : Type := mkState {
  generators : Market -> Z;
  prices : Market -> Js.value
}.

(** After the two mount effects: seeded generators, initial prices. *)
Definition start : state :=
  mkState (fun m => seed (priceConfig m))
          (fun m => Js.VNum (initialPrice (priceConfig m))).

(** One interval callback. *)
Definition step (st : state) : state :=
  mkState (fun m => fst (draw (generators st m)))
          (fun m => move (prices st m) (snd (draw (generators st m)))
                         (volatility (priceConfig m))).

Fixpoint run (n : nat) (st : state) : state :=
  match n with
  | O => st
  | S n => run n (step st)
  end.

End Walk.

(** ** The rest of the ledger of hooks/useTradingEngine.js *)

Module HookBook.

Definition closePosition (positionId : Z) (st : TradingEngine.state)
  : TradingEngine.state :=
  match find (fun p => TradingEngine.Pos.id p =? positionId)%Z
             (TradingEngine.positions st) with
  | None => st
  | Some position =>
      let pnl := TradingEngine.Pos.unrealizedPnL position in
      let margin := TradingEngine.Pos.initialMargin position in
      let closeFee :=
        TradingEngine.Pos.size position * TradingEngine.TRADING_FEE_RATE in
      TradingEngine.mkState
        (TradingEngine.balance st + margin + pnl - closeFee)
        (TradingEngine.prices st)
        (filter (fun p => negb (TradingEngine.Pos.id p =? positionId)%Z)
                (TradingEngine.positions st))
  end.

(** 0.01% per funding period *)
Definition FUNDING_RATE : Js.number := Js.Fin (1 # 10000).

(** The sum built by [positions.forEach] in the funding timer. *)
Definition totalFundingCost (positions : list TradingEngine.position)
  : Js.number :=
  fold_left
    (fun total pos =>
       let directionMultiplier := multiplier (TradingEngine.Pos.direction pos) in
       let fundingCost :=
         TradingEngine.Pos.size pos * FUNDING_RATE * directionMultiplier in
       total + fundingCost)
    positions Js.zero.

(** One funding period. *)
Definition applyFunding (st : TradingEngine.state) : TradingEngine.state :=
  if (0 <? List.length (TradingEngine.positions st))%nat
  then TradingEngine.mkState
         (TradingEngine.balance st
          - totalFundingCost (TradingEngine.positions st))
         (TradingEngine.prices st) (TradingEngine.positions st)
  else st.

(** A new price object pushed into the hook's state. *)
Definition setPrices (quotes : Market -> Js.value) (st : TradingEngine.state)
  : TradingEngine.state :=
  TradingEngine.mkState (TradingEngine.balance st) quotes
                        (TradingEngine.positions st).

Definition closeAllPositions (st : TradingEngine.state) : TradingEngine.state :=
  let positions := TradingEngine.positions st in
  let totalPnL :=
    fold_left (fun sum pos => sum + TradingEngine.Pos.unrealizedPnL pos)
              positions Js.zero in
  let totalMargin :=
    fold_left (fun sum pos => sum + TradingEngine.Pos.initialMargin pos)
              positions Js.zero in
  let totalCloseFees :=
    fold_left
      (fun sum pos =>
         sum + TradingEngine.Pos.size pos * TradingEngine.TRADING_FEE_RATE)
      positions Js.zero in
  TradingEngine.mkState
    (TradingEngine.balance st + totalMargin + totalPnL - totalCloseFees)
    (TradingEngine.prices st) [].

(** What one closure credits: margin plus pnl minus the close fee. *)
Definition credit (p : TradingEngine.position) : Js.number :=
  TradingEngine.Pos.initialMargin p + TradingEngine.Pos.unrealizedPnL p
  - TradingEngine.Pos.size p * TradingEngine.TRADING_FEE_RATE.

(** The summed size of the positions of one direction. *)
Definition sizeOf (d : Direction) (book : list TradingEngine.position)
  : Js.number :=
  fold_right
    (fun p acc =>
       match d, TradingEngine.Pos.direction p with
       | LONG, LONG | SHORT, SHORT => TradingEngine.Pos.size p + acc
       | _, _ => acc
       end)
    Js.zero book.

End HookBook.

(** ** The mark-to-close revision of App.jsx

    Same positions and same per-tick tests as [App]; the leverage falls back
    to the risk mode unless the custom one is positive, opening deducts
    nothing and a closure credits the pnl only. *)

Module MarkToClose.

(** [customLev && customLev > 0 ? customLev : leverageMap[riskMode]] with
    [customLev = showAdvanced && advancedSettings.customLeverage
                 ? parseFloat(advancedSettings.customLeverage) : null] *)
Definition orderLeverage (st : App.state) : Js.number :=
  let customLev :=
    if App.showAdvanced st
       && Parse.nonempty (Adv.customLeverage (App.advancedSettings st))
    then Js.VNum (Parse.parseFloat (Adv.customLeverage (App.advancedSettings st)))
    else Js.VNull in
  if Js.truthy_value customLev && Js.gt (Js.toNumber customLev) Js.zero
  then Js.toNumber customLev
  else leverageMap (App.riskMode st).

Definition openPosition (env : Env) (st : App.state) : App.outcome :=
  let currentPrice := prices env (App.selectedMarket st) in
  if negb (Js.truthy_value currentPrice) then App.Rejected NoPriceAvailable
  else
    let leverage := orderLeverage st in
    let initialMargin := App.positionSize st / leverage in
    if App.balance st <? initialMargin then App.Rejected InsufficientBalance
    else
      if is_limit (Adv.orderType (App.advancedSettings st))
         && Parse.nonempty (Adv.limitPrice (App.advancedSettings st))
      then
        let limitPrice :=
          Parse.parseFloat (Adv.limitPrice (App.advancedSettings st)) in
        let entryPrice := limitPrice in
        let newPosition := App.newPosition env st entryPrice leverage in
        App.Opened
          (App.setPositions (fun prev => (prev ++ [newPosition])%list) st)
      else
        let newPosition :=
          App.newPosition env st (Js.toNumber currentPrice) leverage in
        App.Opened
          (App.setPositions (fun prev => (prev ++ [newPosition])%list) st).

Definition totalReturn (closedPositions : list App.position) : Js.number :=
  fold_left
    (fun sum p =>
       if App.Pos.liquidated p
       then sum + App.Pos.unrealizedPnL p
       else sum + App.Pos.unrealizedPnL p)
    closedPositions Js.zero.

Definition updatePositions (prices : Market -> Js.value) (st : App.state)
  : App.state :=
  if (0 <? List.length (App.positions st))%nat && Js.truthy_value (prices BTC)
  then
    let updatedPositions :=
      map fst (map (App.revalue prices) (App.positions st)) in
    let closedPositions := App.closedPositions prices (App.positions st) in
    let st' :=
      if (0 <? List.length closedPositions)%nat
      then App.setBalance (fun b => b + totalReturn closedPositions) st
      else st in
    App.setPositions (fun _ => filter App.Pos.stillOpen updatedPositions) st'
  else st.

(** [positions.reduce((sum, pos) => sum + pos.initialMargin, 0)] and
    [balance - totalMarginUsed] *)
Definition totalMarginUsed (st : App.state) : Js.number :=
  fold_left (fun sum pos => sum + App.Pos.initialMargin pos)
            (App.positions st) Js.zero.

Definition availableMargin (st : App.state) : Js.number :=
  App.balance st - totalMarginUsed st.

End MarkToClose.

(** ** Shapes of data the feed properties speak about *)

Module Shape.

(** Every market quoted at a positive finite price. *)
Definition positive_quotes (quotes : Market -> Js.value) : Prop :=
  forall m, exists p : Q, quotes m = Js.VNum (Js.Fin p) /\ (0 < p)%Q.

(** One value of [Math.random()] per market: a number in [0, 1). *)
Definition unit_draws (random : Market -> Js.number) : Prop :=
  forall m, exists u : Q, random m = Js.Fin u /\ (0 <= u)%Q /\ (u < 1)%Q.

(** A text without a minus sign: what [parseFloat] makes of it is not
    negative, and a zero it returns is +0. *)
Fixpoint unsigned (text : string) : bool :=
  match text with
  | EmptyString => true
  | String c rest => negb (Ascii.eqb c "-") && unsigned rest
  end.

End Shape.

(** ** Traces of events

    One event of the account of App.jsx, and what a run of events leaves. *)

Module Ledger.

Inductive event : Type :=
| Open (env : Env)
| Close (positionId : Z)
| CloseAll
| Tick (prices : Market -> Js.value)
| Choose (form : App.state).

(** The form selections replaced by those of [form]; neither the balance
    nor the book is touched. *)
Definition choose (form st : App.state) : App.state :=
  App.mkState (App.balance st) (App.selectedMarket form) (App.positions st)
              (App.direction form) (App.positionSize form) (App.riskMode form)
              (App.showAdvanced form) (App.advancedSettings form).

Definition apply (ev : event) (st : App.state) : App.state :=
  match ev with
  | Open env => App.afterOpen env st
  | Close positionId => App.closePosition positionId st
  | CloseAll => App.closeAllPositions st
  | Tick prices => App.updatePositions prices st
  | Choose form => choose form st
  end.

(** The positions an event settles, as the event credits them: the position
    found by [closePosition], every position for [closeAllPositions], the
    array [closedPositions] of a tick that runs. *)
Definition settled (ev : event) (st : App.state) : list App.position :=
  match ev with
  | Open _ | Choose _ => []
  | Close positionId =>
      match find (fun p => App.Pos.id p =? positionId)%Z (App.positions st) with
      | Some position => [position]
      | None => []
      end
  | CloseAll => App.positions st
  | Tick prices =>
      if (0 <? List.length (App.positions st))%nat
         && Js.truthy_value (prices BTC)
      then App.closedPositions prices (App.positions st)
      else []
  end.

(** The state after a run of events, oldest first, and the settlements of
    the run in order. *)
Fixpoint run (events : list event) (st : App.state)
  : App.state * list App.position :=
  match events with
  | [] => (st, [])
  | ev :: rest =>
      let (st', log) := run rest (apply ev st) in
      (st', (settled ev st ++ log)%list)
  end.




End Ledger.

(** ** The close commands on binary64 numbers

    [Js.number] adds exactly; the program adds doubles.  The two close
    commands of App.jsx are repeated here on binary64 floats, a position
    being reduced to the three fields the commands read. *)

Module Binary64.

Record position : Type := mkPosition {
  id : Z;
  initialMargin : float;
  unrealizedPnL : float
}.

Record state : Type := mkState {
  balance : float;
  positions : list position
}.

Definition closePosition (positionId : Z) (st : state) : state :=
  match find (fun p => id p =? positionId)%Z (positions st) with
  | None => st
  | Some position =>
      let pnl := unrealizedPnL position in
      let margin := initialMargin position in
      mkState (balance st + margin + pnl)%float
              (filter (fun p => negb (id p =? positionId)%Z) (positions st))
  end.

Definition closeAllPositions (st : state) : state :=
  let totalPnL :=
    fold_left (fun sum pos => (sum + unrealizedPnL pos)%float)
              (positions st) 0%float in
  let totalMargin :=
    fold_left (fun sum pos => (sum + initialMargin pos)%float)
              (positions st) 0%float in
  mkState (balance st + totalMargin + totalPnL)%float [].

Definition closeEach (ids : list Z) (st : state) : state :=
  fold_left (fun s i => closePosition i s) ids st.

End Binary64.

(** ** Further scenarios *)

Module Cases.

(** The hook's state after the default order went through. *)
Definition hook_opened : TradingEngine.state :=
  match TradingEngine.openPosition 1700000000000 "10:00:00"
          Scenario.hook_order Scenario.hook_fresh with
  | TradingEngine.Opened st => st
  | TradingEngine.Rejected _ => Scenario.hook_fresh
  end.

(** Two positions opened within the same millisecond share their id. *)
Definition twins : App.state :=
  App.afterOpen Scenario.env0 (App.afterOpen Scenario.env0 Scenario.fresh).

(** Advanced mode with the custom leverage typed in as 0, and as -5. *)
Definition zero_leverage : App.state :=
  App.mkState (Js.Fin 1000) BTC [] LONG (Js.Fin 50) BALANCED true
              (Adv.mk MARKET "" "0" "" "").

Definition negative_leverage : App.state :=
  App.mkState (Js.Fin 1000) BTC [] LONG (Js.Fin 50) BALANCED true
              (Adv.mk MARKET "" "-5" "" "").

(** Advanced mode at 4x with a take-profit at 100000 and a stop-loss at
    90000. *)
Definition advanced : App.state :=
  App.mkState (Js.Fin 1000) BTC [] LONG (Js.Fin 50) BALANCED true
              (Adv.mk MARKET "" "4" "100000" "90000").

(** Live prices without a quote for SOL, and a draw of 3/4 for each
    market. *)
Definition partial_live : Market -> Js.value :=
  fun m =>
    match m with
    | BTC => Js.VNum (Js.Fin 96000)
    | ETH => Js.VNum (Js.Fin 3600)
    | SOL => Js.VNull
    end.

Definition draws : Market -> Js.number := fun _ => Js.Fin (3 # 4).



(** The default order placed in the mark-to-close revision. *)
Definition marked : App.state :=
  match MarkToClose.openPosition Scenario.env0 Scenario.fresh with
  | App.Opened st => st
  | App.Rejected _ => Scenario.fresh
  end.

End Cases.

(** * Properties *)

(** ** Arithmetic of [number] *)

Ltac js_cases :=
  repeat match goal with
  | x : Js.number |- _ => destruct x
  end; simpl in *; try tauto; try reflexivity.

#[global] Instance num_eq_Equivalence : Equivalence Js.num_eq.
Proof.
  split.
  - intros x. destruct x; simpl; auto. reflexivity.
  - intros x y H. destruct x, y; simpl in *; auto. symmetry; exact H.
  - intros x y z H1 H2. destruct x, y, z; simpl in *; try tauto.
    etransitivity; eassumption.
Qed.

#[global] Instance add_Proper :
  Proper (Js.num_eq ==> Js.num_eq ==> Js.num_eq) Js.add.
Proof.
  intros x x' Hx y y' Hy.
  destruct x, x'; simpl in Hx; try tauto;
    destruct y, y'; simpl in Hy; try tauto; simpl; auto.
  rewrite Hx, Hy. reflexivity.
Qed.

#[global] Instance neg_Proper : Proper (Js.num_eq ==> Js.num_eq) Js.neg.
Proof.
  intros x x' Hx. destruct x, x'; simpl in *; try tauto.
  rewrite Hx. reflexivity.
Qed.

#[global] Instance sub_Proper :
  Proper (Js.num_eq ==> Js.num_eq ==> Js.num_eq) Js.sub.
Proof.
  intros x x' Hx y y' Hy. unfold Js.sub. rewrite Hx, Hy. reflexivity.
Qed.

Lemma add_comm (x y : Js.number) : x + y == y + x.
Proof. js_cases. ring. Qed.

Lemma add_assoc (x y z : Js.number) : x + (y + z) == (x + y) + z.
Proof. js_cases. ring. Qed.

Lemma add_zero_l (x : Js.number) : Js.zero + x == x.
Proof. js_cases. ring. Qed.

Lemma add_zero_r (x : Js.number) : x + Js.zero == x.
Proof. js_cases. ring. Qed.

Lemma add_swap (x y z : Js.number) : x + (y + z) == y + (x + z).
Proof. js_cases. ring. Qed.

Lemma add_interchange (a b c d : Js.number) :
  (a + b) + (c + d) == (a + c) + (b + d).
Proof. js_cases. ring. Qed.

(** Taking a finite amount out and putting it back. *)
Lemma sub_add_cancel (b r u : Js.number) :
  Js.is_finite r -> (b - r) + (r + u) == b + u.
Proof. js_cases. intros _. ring. Qed.

Lemma lt_true_finite (a b : Q) : (Js.Fin a <? Js.Fin b) = true <-> (a < b)%Q.
Proof.
  unfold Js.lt. rewrite negb_true_iff. split.
  - intros H. destruct (Qlt_le_dec a b) as [Hlt|Hle]; auto.
    apply Qle_bool_iff in Hle. congruence.
  - intros H. destruct (Qle_bool b a) eqn:E; auto.
    apply Qle_bool_iff in E. exfalso. lra.
Qed.

Lemma truthy_zero_or_nan (n : Js.number) :
  Js.truthy n = false <->
  match n with Js.Fin q => (q == 0)%Q | Js.NaN => True | _ => False end.
Proof.
  destruct n; simpl; try (split; (discriminate || tauto)).
  rewrite negb_false_iff. apply Qeq_bool_iff.
Qed.

(** ** The book of App.jsx *)

Lemma newPosition_booked env st e L : App.booked (App.newPosition env st e L).
Proof. split; reflexivity. Qed.

(** [openPosition] succeeds in exactly one shape. *)
Lemma openPosition_inv env st st' :
  App.openPosition env st = App.Opened st' ->
  exists e,
    st' = App.setPositions
            (fun prev => (prev ++ [App.newPosition env st e (App.orderLeverage st)])%list)
            (App.setBalance (fun prev => prev - App.positionSize st) st)
    /\ Js.truthy_value (prices env (App.selectedMarket st)) = true
    /\ (App.balance st <? App.positionSize st / App.orderLeverage st) = false
    /\ e = (if is_limit (Adv.orderType (App.advancedSettings st))
               && Parse.nonempty (Adv.limitPrice (App.advancedSettings st))
            then Parse.parseFloat (Adv.limitPrice (App.advancedSettings st))
            else Js.toNumber (prices env (App.selectedMarket st))).
Proof.
  unfold App.openPosition.
  destruct (Js.truthy_value (prices env (App.selectedMarket st))) eqn:Hp;
    simpl; [|discriminate].
  destruct (App.balance st <? App.positionSize st / App.orderLeverage st) eqn:Hb;
    [discriminate|].
  destruct (is_limit _ && Parse.nonempty _) eqn:Hl; intros H; inversion H;
    eexists; repeat split; reflexivity.
Qed.

Lemma revalue_fields prices p :
  let p' := fst (App.revalue prices p) in
  App.Pos.id p' = App.Pos.id p
  /\ App.Pos.size p' = App.Pos.size p
  /\ App.Pos.riskAmount p' = App.Pos.riskAmount p
  /\ App.Pos.leverage p' = App.Pos.leverage p
  /\ App.Pos.initialMargin p' = App.Pos.initialMargin p
  /\ App.Pos.entryPrice p' = App.Pos.entryPrice p
  /\ App.Pos.direction p' = App.Pos.direction p
  /\ App.Pos.liquidationPrice p' = App.Pos.liquidationPrice p.
Proof.
  unfold App.revalue.
  repeat match goal with
  | |- context [if ?c then _ else _] => destruct c
  end; simpl; repeat split.
Qed.

Lemma revalue_booked prices p :
  App.booked p ->
  App.Pos.stillOpen (fst (App.revalue prices p)) = true ->
  App.booked (fst (App.revalue prices p)).
Proof.
  intros [Hs Hm Hl Ho] Hopen.
  destruct (revalue_fields prices p) as (_ & E1 & E2 & E3 & E4 & E5 & E6 & E7).
  split; auto; rewrite ?E1, ?E2, ?E3, ?E4, ?E5, ?E6, ?E7; auto.
Qed.


Lemma closePosition_positions positionId st :
  App.positions (App.closePosition positionId st) =
  filter (fun p => negb (App.Pos.id p =? positionId)%Z) (App.positions st).
Proof.
  unfold App.closePosition.
  destruct (find (fun p => App.Pos.id p =? positionId)%Z (App.positions st))
    eqn:F; simpl; auto.
  symmetry. apply forallb_filter_id. apply forallb_forall. intros x Hx.
  apply (find_none _ _ F) in Hx. rewrite Hx. reflexivity.
Qed.



(** ** Liquidation price at open *)

Lemma hook_openPosition_inv now clock o st st' :
  TradingEngine.openPosition now clock o st = TradingEngine.Opened st' ->
  exists e,
    let leverage := TradingEngine.orderLeverage o in
    let initialMargin := TradingEngine.positionSize o / leverage in
    let totalCost :=
      initialMargin + TradingEngine.positionSize o * TradingEngine.TRADING_FEE_RATE in
    st' = TradingEngine.mkState
            (TradingEngine.balance st - totalCost) (TradingEngine.prices st)
            (TradingEngine.positions st
               ++ [TradingEngine.newPosition now clock o e leverage initialMargin])%list
    /\ (TradingEngine.balance st <? totalCost) = false.
Proof.
  unfold TradingEngine.openPosition.
  destruct (Js.truthy_value _); simpl; [|discriminate].
  destruct (TradingEngine.balance st <? _) eqn:Hb; [discriminate|].
  destruct (is_limit _ && Parse.nonempty _); intros H; inversion H;
    eexists; split; reflexivity || exact Hb.
Qed.

(** C1 (amended): a position opened by the [openPosition] of App.jsx with a
    finite entry price e > 0 and leverage L > 0 stores the liquidation price
    e * (1 - 1/L) when long and e * (1 + 1/L) when short, and the same order
    placed with any other risk amount stores the same price; a position
    opened by the [openPosition] of the useTradingEngine hook stores
    e * (1 - 0.5/L) and e * (1 + 0.5/L) instead. *)
Theorem C1_liquidation_price_at_open :
  (forall env st st',
      App.openPosition env st = App.Opened st' ->
      exists p,
        App.positions st' = (App.positions st ++ [p])%list
        /\ (forall e L : Q,
               App.Pos.entryPrice p = Js.Fin e ->
               App.Pos.leverage p = Js.Fin L ->
               (0 < e)%Q -> (0 < L)%Q ->
               App.Pos.liquidationPrice p ==
               Js.Fin (match App.Pos.direction p with
                       | LONG => e * (1 - 1 / L)
                       | SHORT => e * (1 + 1 / L)
                       end)%Q)
        /\ (forall r st2,
               App.openPosition env (App.setPositionSize r st) = App.Opened st2 ->
               exists p2,
                 App.positions st2 = (App.positions st ++ [p2])%list
                 /\ App.Pos.riskAmount p2 = r
                 /\ App.Pos.entryPrice p2 = App.Pos.entryPrice p
                 /\ App.Pos.leverage p2 = App.Pos.leverage p
                 /\ App.Pos.direction p2 = App.Pos.direction p
                 /\ App.Pos.liquidationPrice p2 = App.Pos.liquidationPrice p))
  /\
  (forall now clock o st st',
      TradingEngine.openPosition now clock o st = TradingEngine.Opened st' ->
      exists p,
        TradingEngine.positions st' = (TradingEngine.positions st ++ [p])%list
        /\ (forall e L : Q,
               TradingEngine.Pos.entryPrice p = Js.Fin e ->
               TradingEngine.Pos.leverage p = Js.Fin L ->
               (0 < e)%Q -> (0 < L)%Q ->
               TradingEngine.Pos.liquidationPrice p ==
               Js.Fin (match TradingEngine.Pos.direction p with
                       | LONG => e * (1 - (1 # 2) / L)
                       | SHORT => e * (1 + (1 # 2) / L)
                       end)%Q)).
Proof.
  split.
  - intros env st st' Hopen.
    apply openPosition_inv in Hopen. destruct Hopen as (e0 & -> & _ & _ & He0).
    eexists. split; [reflexivity|]. split.
    + intros e L He HL Hepos HLpos. simpl in He, HL |- *.
      rewrite He, HL.
      destruct (App.direction st); simpl;
        (destruct (Qeq_bool L 0) eqn:E;
         [apply Qeq_bool_iff in E; lra | simpl; ring]).
    + intros r st2 Hopen2.
      apply openPosition_inv in Hopen2.
      destruct Hopen2 as (e2 & -> & _ & _ & He2).
      simpl in He2. rewrite <- He0 in He2. subst e2.
      eexists. split; [reflexivity|]. simpl. repeat split.
  - intros now clock o st st' Hopen.
    apply hook_openPosition_inv in Hopen. destruct Hopen as (e0 & -> & _).
    eexists. split; [reflexivity|].
    intros e L He HL Hepos HLpos. simpl in He, HL |- *.
    rewrite He, HL.
    destruct (TradingEngine.direction o); simpl;
      (destruct (Qeq_bool L 0) eqn:E;
       [apply Qeq_bool_iff in E; lra | simpl; ring]).
Qed.

(** The default order of App.jsx (long BTC at 95000, 50 at 5x) books the
    liquidation price 76000. *)
Lemma C1_liquidation_price_at_open_witness :
  App.openPosition Scenario.env0 Scenario.fresh
  = App.Opened (App.afterOpen Scenario.env0 Scenario.fresh)
  /\ exists p,
       App.positions (App.afterOpen Scenario.env0 Scenario.fresh) = [p]
       /\ App.Pos.liquidationPrice p == Js.Fin 76000.
Proof.
  split; [reflexivity|].
  destruct (proj1 C1_liquidation_price_at_open Scenario.env0 Scenario.fresh
              (App.afterOpen Scenario.env0 Scenario.fresh) eq_refl)
    as (p & Hp & Hliq & _).
  exists p. split; [exact Hp|].
  assert (p = Scenario.long_btc) as Heq
    by (injection Hp; intros <-; reflexivity).
  specialize (Hliq 95000%Q 5%Q).
  rewrite Heq in Hliq |- *.
  transitivity (Js.Fin (95000 * (1 - 1 / 5))%Q);
    [exact (Hliq eq_refl eq_refl eq_refl eq_refl) | vm_compute; reflexivity].
Defined.

(** The same order placed through the useTradingEngine hook books 85500,
    which is not 95000 * (1 - 1/5). *)
Lemma C1_hook_counterexample :
  exists st' p,
    TradingEngine.openPosition 1700000000000 "10:00:00"
      Scenario.hook_order Scenario.hook_fresh = TradingEngine.Opened st'
    /\ TradingEngine.positions st' = [p]
    /\ TradingEngine.Pos.direction p = LONG
    /\ TradingEngine.Pos.entryPrice p = Js.Fin 95000
    /\ TradingEngine.Pos.leverage p = Js.Fin 5
    /\ TradingEngine.Pos.liquidationPrice p == Js.Fin 85500
    /\ ~ (TradingEngine.Pos.liquidationPrice p
          == Js.Fin (95000 * (1 - 1 / 5))%Q).
Proof.
  eexists. exists Scenario.hook_long_btc.
  split; [reflexivity|].
  repeat split.
  intros H. vm_compute in H. discriminate.
Qed.

(** ** One position under one tick *)

Lemma revalue_cases prices p :
  let cp := prices (App.Pos.market p) in
  let pnl := App.pnlAt cp p in
  let risk := Js.or_else (App.Pos.riskAmount p) (App.Pos.initialMargin p) in
  App.revalue prices p =
  if App.tpFires cp p then (App.Pos.withTP p pnl, true)
  else if App.slFires cp p then (App.Pos.withSL p pnl, true)
  else if App.liquidates cp p then (App.Pos.withLiquidation p (- risk), true)
  else (App.Pos.withPnL p pnl, false).
Proof. reflexivity. Qed.

Lemma stillOpen_flags p :
  App.Pos.stillOpen p = true ->
  App.Pos.closedByTP p = false /\ App.Pos.closedBySL p = false
  /\ App.Pos.liquidated p = false.
Proof.
  unfold App.Pos.stillOpen.
  destruct (App.Pos.closedByTP p), (App.Pos.closedBySL p),
    (App.Pos.liquidated p); simpl; intros H; try discriminate; auto.
Qed.

(** What [revalue] returns for an open position, test by test. *)
Lemma revalue_status prices p :
  App.Pos.stillOpen p = true ->
  let cp := prices (App.Pos.market p) in
  let p' := fst (App.revalue prices p) in
  App.Pos.status p' =
  if App.tpFires cp p then CLOSED_BY_TP
  else if App.slFires cp p then CLOSED_BY_SL
  else if App.liquidates cp p then LIQUIDATED
  else OPEN.
Proof.
  intros Hopen. apply stillOpen_flags in Hopen.
  destruct Hopen as (H1 & H2 & H3).
  simpl. rewrite revalue_cases.
  destruct (App.tpFires _ p); [reflexivity|].
  destruct (App.slFires _ p);
    [unfold App.Pos.status; simpl; rewrite H1; reflexivity|].
  destruct (App.liquidates _ p);
    unfold App.Pos.status; simpl; rewrite H1, H2, ?H3; reflexivity.
Qed.

(** A position is pushed onto [closedPositions] exactly when it leaves the
    open set. *)
Lemma revalue_closed_iff prices p :
  App.Pos.stillOpen p = true ->
  snd (App.revalue prices p) = negb (App.Pos.stillOpen (fst (App.revalue prices p))).
Proof.
  intros Hopen. generalize Hopen. intros Hflags.
  apply stillOpen_flags in Hflags. destruct Hflags as (H1 & H2 & H3).
  rewrite revalue_cases.
  destruct (App.tpFires _ p);
    [unfold App.Pos.stillOpen; simpl; rewrite ?andb_false_r; reflexivity|].
  destruct (App.slFires _ p);
    [unfold App.Pos.stillOpen; simpl; rewrite ?andb_false_r; reflexivity|].
  destruct (App.liquidates _ p); unfold App.Pos.stillOpen; simpl.
  - reflexivity.
  - rewrite H1, H2, H3. reflexivity.
Qed.

(** A position left open carries the tick's pnl. *)
Lemma revalue_open prices p :
  App.Pos.stillOpen p = true ->
  let cp := prices (App.Pos.market p) in
  let p' := fst (App.revalue prices p) in
  App.Pos.status p' = OPEN ->
  App.Pos.unrealizedPnL p' = App.pnlAt cp p /\ App.liquidates cp p = false.
Proof.
  intros Hopen cp p'. subst p'.
  rewrite (revalue_status prices p Hopen), revalue_cases. fold cp.
  destruct (App.tpFires cp p); [discriminate|].
  destruct (App.slFires cp p); [discriminate|].
  destruct (App.liquidates cp p); [discriminate|].
  intros _. split; reflexivity.
Qed.

(** C3: for an open position the tick tests take-profit first, stop-loss
    second and liquidation last, and the first test that fires fixes the
    terminal status: a take-profit that is set and hit closes the position
    as CLOSED_BY_TP with the tick's pnl whatever the stop-loss and the
    liquidation tests say; CLOSED_BY_SL is reached only when the take-profit
    did not fire, LIQUIDATED only when neither did. *)
Theorem C3_trigger_priority prices p :
  App.Pos.stillOpen p = true ->
  let cp := prices (App.Pos.market p) in
  let p' := fst (App.revalue prices p) in
  (forall tp,
      App.Pos.takeProfit p = Js.VNum tp ->
      Js.truthy tp = true ->
      (App.Pos.direction p = LONG /\ (Js.toNumber cp >=? tp) = true
       \/ App.Pos.direction p = SHORT /\ (Js.toNumber cp <=? tp) = true) ->
      App.Pos.status p' = CLOSED_BY_TP
      /\ App.Pos.unrealizedPnL p' = App.pnlAt cp p
      /\ snd (App.revalue prices p) = true)
  /\ (App.Pos.status p' = CLOSED_BY_TP <-> App.tpFires cp p = true)
  /\ (App.Pos.status p' = CLOSED_BY_SL <->
      App.tpFires cp p = false /\ App.slFires cp p = true)
  /\ (App.Pos.status p' = LIQUIDATED <->
      App.tpFires cp p = false /\ App.slFires cp p = false
      /\ App.liquidates cp p = true)
  /\ (App.Pos.status p' = OPEN <->
      App.tpFires cp p = false /\ App.slFires cp p = false
      /\ App.liquidates cp p = false).
Proof.
  intros Hopen cp p'.
  pose proof (revalue_status prices p Hopen) as Hst.
  fold cp in Hst. fold p' in Hst.
  split.
  - intros tp Htp Htruthy Hhit.
    assert (App.tpFires cp p = true) as Hfire.
    { unfold App.tpFires, App.tpHit. rewrite Htp. simpl. rewrite Htruthy.
      destruct Hhit as [[-> H]|[-> H]]; exact H. }
    subst p'. rewrite revalue_cases. fold cp. rewrite Hfire.
    simpl. repeat split.
  - rewrite Hst.
    destruct (App.tpFires cp p), (App.slFires cp p), (App.liquidates cp p);
      repeat split; intros; try discriminate; try tauto;
      repeat match goal with H : _ /\ _ |- _ => destruct H end;
      try discriminate.
Qed.

(** A long with take-profit 1 and stop-loss 90000, revalued at 70000: the
    stop-loss and the liquidation tests hold as well, and the position
    closes by take-profit. *)
Lemma C3_trigger_priority_witness :
  App.Pos.stillOpen Scenario.long_btc_tp_sl = true
  /\ App.slFires (Js.VNum (Js.Fin 70000)) Scenario.long_btc_tp_sl = true
  /\ App.liquidates (Js.VNum (Js.Fin 70000)) Scenario.long_btc_tp_sl = true
  /\ App.Pos.status
       (fst (App.revalue (Scenario.quotes 70000 3500 140)
               Scenario.long_btc_tp_sl)) = CLOSED_BY_TP.
Proof.
  split; [reflexivity|]. split; [reflexivity|]. split; [reflexivity|].
  exact (proj1
           (proj1 (C3_trigger_priority (Scenario.quotes 70000 3500 140)
                     Scenario.long_btc_tp_sl eq_refl)
              (Parse.parseFloat "1") eq_refl eq_refl
              (or_introl (conj eq_refl eq_refl)))).
Defined.

(** ** Bounded loss *)

Lemma booked_risk p :
  App.booked p ->
  Js.or_else (App.Pos.riskAmount p) (App.Pos.initialMargin p)
  = App.Pos.riskAmount p.
Proof.
  intros [_ Hm _ _]. unfold Js.or_else. rewrite Hm.
  destruct (Js.truthy _); reflexivity.
Qed.

Lemma le_false_lt (a b : Js.number) :
  (a <=? b) = false -> a <> Js.NaN -> b <> Js.NaN -> (b <? a) = true.
Proof.
  destruct a, b; simpl; try congruence; auto.
  intros H _ _. rewrite H. reflexivity.
Qed.

Lemma neg_not_nan (a : Js.number) : a <> Js.NaN -> - a <> Js.NaN.
Proof. destruct a; simpl; congruence. Qed.

(** C2 (amended): for a position booked by [openPosition], a tick whose pnl
    is at or below -riskAmount with neither take-profit nor stop-loss firing
    liquidates it with unrealizedPnL exactly -riskAmount, whatever the
    overshoot; a liquidated position always carries exactly -riskAmount and a
    position left open carries a pnl above -riskAmount, so every position
    that is open or liquidated after the tick has unrealizedPnL >=
    -riskAmount.  (A position closed by take-profit or stop-loss carries the
    tick's pnl unclamped.) *)
Theorem C2_liquidation_clamp prices p :
  App.booked p ->
  let cp := prices (App.Pos.market p) in
  let pnl := App.pnlAt cp p in
  let p' := fst (App.revalue prices p) in
  let risk := App.Pos.riskAmount p in
  App.Pos.riskAmount p' = risk
  /\ (App.tpFires cp p = false -> App.slFires cp p = false ->
      (pnl <=? - risk) = true ->
      App.Pos.status p' = LIQUIDATED /\ App.Pos.unrealizedPnL p' = - risk)
  /\ (App.Pos.status p' = LIQUIDATED -> App.Pos.unrealizedPnL p' = - risk)
  /\ (App.Pos.status p' = OPEN ->
      App.Pos.unrealizedPnL p' = pnl
      /\ (pnl <> Js.NaN -> risk <> Js.NaN -> (- risk <? pnl) = true))
  /\ (App.Pos.status p' = LIQUIDATED \/ App.Pos.status p' = OPEN ->
      pnl <> Js.NaN -> risk <> Js.NaN ->
      (App.Pos.unrealizedPnL p' >=? - risk) = true).
Proof.
  intros Hb cp pnl p' risk.
  pose proof (revalue_status prices p (App.booked_open p Hb)) as Hst.
  pose proof (booked_risk p Hb) as Hrisk.
  fold cp in Hst. fold p' in Hst.
  assert (App.liquidates cp p = (pnl <=? - risk)) as Hliq
    by (unfold App.liquidates; rewrite Hrisk; reflexivity).
  assert (App.Pos.riskAmount p' = risk) as Hr
    by (destruct (revalue_fields prices p) as (_ & _ & E & _); exact E).
  assert (App.Pos.status p' = LIQUIDATED -> App.Pos.unrealizedPnL p' = - risk)
    as Hclamp.
  { rewrite Hst. subst p'. rewrite revalue_cases. fold cp.
    destruct (App.tpFires cp p); [discriminate|].
    destruct (App.slFires cp p); [discriminate|].
    destruct (App.liquidates cp p); [|discriminate].
    intros _. simpl. rewrite Hrisk. reflexivity. }
  assert (App.Pos.status p' = OPEN ->
          App.Pos.unrealizedPnL p' = pnl /\ (pnl <=? - risk) = false) as Hopen.
  { intros Ho. rewrite <- Hliq.
    exact (revalue_open prices p (App.booked_open p Hb) Ho). }
  split; [exact Hr|]. split; [|split; [exact Hclamp|split]].
  - intros Htp Hsl Hle.
    assert (App.Pos.status p' = LIQUIDATED) as HL
      by (rewrite Hst, Htp, Hsl, Hliq, Hle; reflexivity).
    split; auto.
  - intros Ho. destruct (Hopen Ho) as [Hu Hle]. split; [exact Hu|].
    intros Hn1 Hn2. apply le_false_lt; auto using neg_not_nan.
  - intros [HL|Ho] Hn1 Hn2.
    + rewrite (Hclamp HL). unfold Js.ge.
      destruct risk; simpl; try congruence; auto.
      apply Qle_bool_iff. apply Qle_refl.
    + destruct (Hopen Ho) as [Hu Hle]. rewrite Hu.
      pose proof (le_false_lt _ _ Hle Hn1 (neg_not_nan _ Hn2)) as Hlt.
      unfold Js.ge. destruct (- risk), pnl; simpl in *; try congruence; auto.
      rewrite negb_true_iff in Hlt.
      destruct (Qle_bool q q0) eqn:E; auto.
      destruct (Qlt_le_dec q0 q) as [H1|H1].
      * apply Qlt_le_weak in H1. apply Qle_bool_iff in H1. congruence.
      * apply Qle_bool_iff in H1. congruence.
Qed.

(** The default long (liquidation price 76000) revalued at 70000 is
    liquidated at exactly -50. *)
Lemma C2_liquidation_clamp_witness :
  App.booked Scenario.long_btc
  /\ App.Pos.status
       (fst (App.revalue (Scenario.quotes 70000 3500 140) Scenario.long_btc))
     = LIQUIDATED
  /\ App.Pos.unrealizedPnL
       (fst (App.revalue (Scenario.quotes 70000 3500 140) Scenario.long_btc))
     = Js.Fin (-50).
Proof.
  assert (App.booked Scenario.long_btc) as Hb by (split; reflexivity).
  split; [exact Hb|].
  destruct (C2_liquidation_clamp (Scenario.quotes 70000 3500 140)
              Scenario.long_btc Hb) as (_ & H & _).
  exact (H eq_refl eq_refl eq_refl).
Defined.

(** The same long with a stop-loss at 90000, opened through [openPosition]
    and hit by one tick at 70000: it closes by stop-loss with a pnl below
    -riskAmount, and the account ends below 1000 - 50. *)
Lemma C2_stop_loss_counterexample :
  let st1 := App.afterOpen Scenario.env0 Scenario.fresh_sl in
  let tick := Scenario.quotes 70000 3500 140 in
  let p' := fst (App.revalue tick Scenario.long_btc_sl) in
  App.positions st1 = [Scenario.long_btc_sl]
  /\ App.Pos.status p' = CLOSED_BY_SL
  /\ App.Pos.riskAmount p' = Js.Fin 50
  /\ (App.Pos.unrealizedPnL p' >=? - App.Pos.riskAmount p') = false
  /\ (App.Pos.unrealizedPnL p' <? Js.Fin (-65)) = true
  /\ App.positions (App.updatePositions tick st1) = []
  /\ (App.balance (App.updatePositions tick st1) <? Js.Fin 935) = true.
Proof. repeat split. Qed.

(** ** Trigger prices stored as zero or NaN *)

Lemma zero_or_nan_falsy (v : Js.value) :
  Js.zero_or_nan v -> Js.truthy_value v = false.
Proof.
  destruct v as [|n]; simpl; [tauto|].
  intros H. apply truthy_zero_or_nan. destruct n; simpl in *; tauto.
Qed.

(** C10: a take-profit or stop-loss stored as zero or as NaN is treated as
    absent: whatever the tick price, the corresponding test does not fire, so
    an open position whose two triggers are each null, zero or NaN either
    stays open or is liquidated.  [openPosition] stores such values: a
    non-empty input text is stored as its [parseFloat], NaN when it does not
    parse and zero for the text 0. *)
Theorem C10_zero_or_nan_trigger_is_absent prices p :
  App.Pos.stillOpen p = true ->
  let cp := prices (App.Pos.market p) in
  let p' := fst (App.revalue prices p) in
  (Js.zero_or_nan (App.Pos.takeProfit p) ->
   App.tpFires cp p = false /\ App.Pos.status p' <> CLOSED_BY_TP)
  /\ (Js.zero_or_nan (App.Pos.stopLoss p) ->
      App.slFires cp p = false /\ App.Pos.status p' <> CLOSED_BY_SL)
  /\ (Js.truthy_value (App.Pos.takeProfit p) = false ->
      Js.truthy_value (App.Pos.stopLoss p) = false ->
      App.Pos.status p' = (if App.liquidates cp p then LIQUIDATED else OPEN))
  /\ (forall text,
         Parse.nonempty text = true ->
         trigger_of text = Js.VNum (Parse.parseFloat text))
  /\ trigger_of "abc" = Js.VNum Js.NaN
  /\ Js.zero_or_nan (trigger_of "0").
Proof.
  intros Hopen cp p'.
  pose proof (revalue_status prices p Hopen) as Hst.
  fold cp in Hst. fold p' in Hst.
  split; [|split; [|split; [|split; [|split]]]].
  - intros Hz. apply zero_or_nan_falsy in Hz.
    assert (App.tpFires cp p = false) as Hf
      by (unfold App.tpFires; rewrite Hz; reflexivity).
    split; [exact Hf|]. rewrite Hst, Hf.
    destruct (App.slFires cp p), (App.liquidates cp p); discriminate.
  - intros Hz. apply zero_or_nan_falsy in Hz.
    assert (App.slFires cp p = false) as Hf
      by (unfold App.slFires; rewrite Hz; reflexivity).
    split; [exact Hf|]. rewrite Hst, Hf.
    destruct (App.tpFires cp p), (App.liquidates cp p); discriminate.
  - intros Htp Hsl. rewrite Hst. unfold App.tpFires, App.slFires.
    rewrite Htp, Hsl. reflexivity.
  - intros text Ht. unfold trigger_of. rewrite Ht. reflexivity.
  - reflexivity.
  - vm_compute. reflexivity.
Qed.

(** A long whose take-profit was typed in as 0 and whose stop-loss as abc:
    at 96000 the take-profit comparison holds, yet the position stays open. *)
Lemma C10_zero_or_nan_trigger_is_absent_witness :
  let tick := Scenario.quotes 96000 3500 140 in
  let p := Scenario.long_btc_void in
  App.positions (App.afterOpen Scenario.env0 Scenario.fresh_void) = [p]
  /\ App.Pos.stillOpen p = true
  /\ Js.zero_or_nan (App.Pos.takeProfit p)
  /\ App.Pos.stopLoss p = Js.VNum Js.NaN
  /\ App.tpHit (tick BTC) p = true
  /\ App.Pos.status (fst (App.revalue tick p)) <> CLOSED_BY_TP
  /\ App.Pos.status (fst (App.revalue tick p)) = OPEN.
Proof.
  intros tick p.
  assert (Js.zero_or_nan (App.Pos.takeProfit p)) as Hz
    by (vm_compute; reflexivity).
  pose proof (C10_zero_or_nan_trigger_is_absent tick p eq_refl) as H.
  split; [reflexivity|]. split; [reflexivity|]. split; [exact Hz|].
  split; [reflexivity|]. split; [reflexivity|].
  split.
  - exact (proj2 (proj1 H Hz)).
  - exact (proj1 (proj2 (proj2 H)) eq_refl eq_refl).
Defined.

(** ** Unrealized pnl *)





(** ** Closing by hand *)

Lemma find_id_none positionId (book : list App.position) :
  ~ In positionId (map App.Pos.id book) ->
  find (fun p => App.Pos.id p =? positionId)%Z book = None.
Proof.
  induction book as [|q book IH]; simpl; auto.
  intros H. destruct (App.Pos.id q =? positionId)%Z eqn:E.
  - apply Z.eqb_eq in E. tauto.
  - apply IH. tauto.
Qed.

Lemma closed_id_gone positionId st :
  ~ In positionId
      (map App.Pos.id (App.positions (App.closePosition positionId st))).
Proof.
  rewrite closePosition_positions. intros H.
  apply in_map_iff in H. destruct H as (q & Hid & Hq).
  apply filter_In in Hq. destruct Hq as [_ Hq].
  rewrite negb_true_iff in Hq. apply Z.eqb_neq in Hq. tauto.
Qed.

(** C8: [closePosition] with an id that no open position carries returns the
    state as it was, balance and book alike (the handler returns before any
    setter and has no failure path); hence a second [closePosition] with the
    same id changes nothing. *)
Theorem C8_close_unknown_id_is_noop positionId st :
  (~ In positionId (map App.Pos.id (App.positions st)) ->
   App.closePosition positionId st = st)
  /\ App.closePosition positionId (App.closePosition positionId st)
     = App.closePosition positionId st.
Proof.
  assert (forall s, ~ In positionId (map App.Pos.id (App.positions s)) ->
                    App.closePosition positionId s = s) as Hnoop.
  { intros s Hs. unfold App.closePosition.
    rewrite (find_id_none _ _ Hs). reflexivity. }
  split; [apply Hnoop|].
  apply Hnoop. apply closed_id_gone.
Qed.

(** Closing the default long by its id returns margin and pnl; closing an id
    that is not in the book, or the same id again, does nothing. *)
Lemma C8_close_unknown_id_is_noop_witness :
  let st1 := App.afterOpen Scenario.env0 Scenario.fresh in
  ~ In 7%Z (map App.Pos.id (App.positions st1))
  /\ App.closePosition 7 st1 = st1
  /\ App.balance (App.closePosition 1700000000000 st1) == Js.Fin 1000
  /\ App.closePosition 1700000000000 (App.closePosition 1700000000000 st1)
     = App.closePosition 1700000000000 st1.
Proof.
  intros st1.
  assert (~ In 7%Z (map App.Pos.id (App.positions st1))) as Hn.
  { simpl. intros [H|[]]. discriminate H. }
  split; [exact Hn|].
  split; [exact (proj1 (C8_close_unknown_id_is_noop 7 st1) Hn)|].
  split; [vm_compute; reflexivity|].
  exact (proj2 (C8_close_unknown_id_is_noop 1700000000000 st1)).
Defined.

(** ** Closing the whole book *)

Lemma fold_left_add (A : Type) (f : A -> Js.number) (l : list A) (a : Js.number) :
  fold_left (fun sum x => sum + f x) l a
  == a + fold_right (fun x acc => f x + acc) Js.zero l.
Proof.
  revert a. induction l as [|x l IH]; intros a; simpl.
  - symmetry. apply add_zero_r.
  - rewrite IH. symmetry. apply add_assoc.
Qed.

Lemma bookTotal_split (book : list App.position) :
  App.bookTotal book
  == fold_right (fun p acc => App.Pos.initialMargin p + acc) Js.zero book
     + fold_right (fun p acc => App.Pos.unrealizedPnL p + acc) Js.zero book.
Proof.
  induction book as [|p book IH]; simpl.
  - reflexivity.
  - rewrite IH. apply add_interchange.
Qed.


Lemma closeAllPositions_balance st :
  App.balance (App.closeAllPositions st)
  == App.balance st + App.bookTotal (App.positions st).
Proof.
  unfold App.closeAllPositions. simpl.
  rewrite (fold_left_add _ App.Pos.unrealizedPnL).
  rewrite (fold_left_add _ App.Pos.initialMargin).
  rewrite bookTotal_split, !add_zero_l.
  symmetry. apply add_assoc.
Qed.

Lemma closePosition_found positionId st p l1 l2 :
  App.positions st = (l1 ++ p :: l2)%list ->
  App.Pos.id p = positionId ->
  ~ In positionId (map App.Pos.id l1) ->
  ~ In positionId (map App.Pos.id l2) ->
  App.positions (App.closePosition positionId st) = (l1 ++ l2)%list
  /\ App.balance (App.closePosition positionId st)
     = App.balance st + App.Pos.initialMargin p + App.Pos.unrealizedPnL p.
Proof.
  intros Hpos Hid H1 H2.
  assert (forall l, ~ In positionId (map App.Pos.id l) ->
                    filter (fun q => negb (App.Pos.id q =? positionId)%Z) l = l)
    as Hkeep.
  { intros l Hl. apply forallb_filter_id. apply forallb_forall.
    intros q Hq. rewrite negb_true_iff. apply Z.eqb_neq. intros E.
    apply Hl. apply in_map_iff. eauto. }
  split.
  - rewrite closePosition_positions, Hpos, filter_app. simpl.
    rewrite Hid, Z.eqb_refl. simpl. rewrite !Hkeep; auto.
  - unfold App.closePosition. rewrite Hpos.
    assert (find (fun q => App.Pos.id q =? positionId)%Z (l1 ++ p :: l2)%list
            = Some p) as ->.
    { clear Hpos. induction l1 as [|q l1 IH]; simpl.
      - rewrite Hid, Z.eqb_refl. reflexivity.
      - simpl in H1. destruct (App.Pos.id q =? positionId)%Z eqn:E.
        + apply Z.eqb_eq in E. tauto.
        + apply IH. tauto. }
    reflexivity.
Qed.





(** ** One position from open to settlement *)

(** The three ledger updates, on any book. *)
Lemma openPosition_ledger env st st' :
  App.openPosition env st = App.Opened st' ->
  App.balance st' = App.balance st - App.positionSize st.
Proof.
  intros H. apply openPosition_inv in H. destruct H as (e & -> & _).
  reflexivity.
Qed.

Lemma closePosition_ledger positionId st p :
  find (fun q => App.Pos.id q =? positionId)%Z (App.positions st) = Some p ->
  App.balance (App.closePosition positionId st)
  = App.balance st + App.Pos.initialMargin p + App.Pos.unrealizedPnL p.
Proof. intros H. unfold App.closePosition. rewrite H. reflexivity. Qed.

Lemma totalReturn_bookTotal (closed : list App.position) :
  App.totalReturn closed == App.bookTotal closed.
Proof.
  unfold App.totalReturn.
  assert (forall a,
             fold_left
               (fun sum p =>
                  if App.Pos.liquidated p
                  then sum + App.Pos.initialMargin p + App.Pos.unrealizedPnL p
                  else sum + App.Pos.initialMargin p + App.Pos.unrealizedPnL p)
               closed a
             == a + App.bookTotal closed) as H.
  { induction closed as [|p closed IH]; intros a; simpl.
    - symmetry. apply add_zero_r.
    - rewrite IH.
      destruct (App.Pos.liquidated p); rewrite <- !add_assoc; reflexivity. }
  rewrite H. apply add_zero_l.
Qed.

Lemma updatePositions_ledger prices st :
  ((0 <? List.length (App.positions st))%nat
   && Js.truthy_value (prices BTC) = true ->
   App.balance (App.updatePositions prices st)
   == App.balance st
      + App.bookTotal (App.closedPositions prices (App.positions st)))
  /\ ((0 <? List.length (App.positions st))%nat
      && Js.truthy_value (prices BTC) = false ->
      App.updatePositions prices st = st).
Proof.
  unfold App.updatePositions. split; intros ->; [|reflexivity].
  destruct (App.closedPositions prices (App.positions st)) as [|c closed] eqn:E.
  - simpl. symmetry. apply add_zero_r.
  - cbn [List.length Nat.ltb Nat.leb]. simpl App.balance.
    rewrite totalReturn_bookTotal. reflexivity.
Qed.

Lemma updatePositions_single prices st q :
  App.positions st = [q] ->
  App.Pos.stillOpen q = true ->
  Js.truthy_value (prices BTC) = true ->
  let q' := fst (App.revalue prices q) in
  (App.Pos.status q' = OPEN ->
   App.positions (App.updatePositions prices st) = [q']
   /\ App.balance (App.updatePositions prices st) = App.balance st)
  /\ (App.Pos.status q' <> OPEN ->
      App.positions (App.updatePositions prices st) = []
      /\ App.balance (App.updatePositions prices st)
         = App.balance st
           + (Js.zero + App.Pos.initialMargin q' + App.Pos.unrealizedPnL q')).
Proof.
  intros Hpos Hopen Hbtc q'.
  pose proof (revalue_closed_iff prices q Hopen) as Hclosed.
  pose proof (revalue_status prices q Hopen) as Hst. simpl in Hst.
  fold q' in Hst, Hclosed.
  assert (App.Pos.stillOpen q' = true <-> App.Pos.status q' = OPEN) as Hiff.
  { unfold App.Pos.status, App.Pos.stillOpen.
    destruct (App.Pos.closedByTP q'), (App.Pos.closedBySL q'),
      (App.Pos.liquidated q'); simpl; split; congruence. }
  unfold App.updatePositions, App.closedPositions. rewrite Hpos, Hbtc. simpl.
  fold q'. rewrite Hclosed.
  destruct (App.Pos.stillOpen q') eqn:Eo; simpl.
  - split; [intros _; split; reflexivity|].
    intros Hne. exfalso. apply Hne. apply Hiff. reflexivity.
  - split.
    + intros Ho. apply Hiff in Ho. discriminate.
    + intros _. split; [reflexivity|].
      unfold App.totalReturn, q'. simpl.
      destruct (App.Pos.liquidated (fst (App.revalue prices q))); reflexivity.
Qed.

Lemma updatePositions_empty prices st :
  App.positions st = [] -> App.updatePositions prices st = st.
Proof. intros H. unfold App.updatePositions. rewrite H. reflexivity. Qed.

(** While its only position is open, the account holds the opening balance
    less the reserved margin. *)
Lemma runTicks_single b0 r ticks :
  forall st,
    (App.positions st = []
     \/ exists q, App.positions st = [q] /\ App.booked q
                  /\ App.Pos.riskAmount q = r /\ App.balance st == b0 - r) ->
    App.positions (App.runTicks ticks st) = []
    \/ exists q, App.positions (App.runTicks ticks st) = [q] /\ App.booked q
                 /\ App.Pos.riskAmount q = r
                 /\ App.balance (App.runTicks ticks st) == b0 - r.
Proof.
  induction ticks as [|prices ticks IH]; intros st Hinv; [exact Hinv|].
  simpl. apply IH. destruct Hinv as [He|(q & Hq & Hb & Hr & Hbal)].
  - left. rewrite updatePositions_empty; auto.
  - destruct (Js.truthy_value (prices BTC)) eqn:Hbtc.
    + destruct (updatePositions_single prices st q Hq (App.booked_open q Hb) Hbtc)
        as [Hkeep Hclose].
      destruct (App.Pos.stillOpen (fst (App.revalue prices q))) eqn:Eo.
      * assert (App.Pos.status (fst (App.revalue prices q)) = OPEN) as Ho.
        { unfold App.Pos.status. apply stillOpen_flags in Eo.
          destruct Eo as (-> & -> & ->). reflexivity. }
        destruct (Hkeep Ho) as [Hp' Hb'].
        right. eexists. split; [exact Hp'|]. split; [|split].
        -- apply revalue_booked; auto.
        -- destruct (revalue_fields prices q) as (_ & _ & E & _).
           rewrite E. exact Hr.
        -- rewrite Hb'. exact Hbal.
      * left. apply Hclose. intros Ho.
        unfold App.Pos.status, App.Pos.stillOpen in *.
        destruct (App.Pos.closedByTP _), (App.Pos.closedBySL _),
          (App.Pos.liquidated _); simpl in *; congruence.
    + right. exists q. unfold App.updatePositions.
      rewrite Hbtc, andb_false_r. auto.
Qed.

(** A position opened on an empty book with a finite risk amount, kept
    through any run of ticks and then removed: closed by hand, the balance
    ends at the balance before the open plus the position's pnl; removed by
    a tick, it ends at that balance plus the settled pnl, which is the
    tick's pnl for a take-profit or stop-loss and -riskAmount for a
    liquidation. *)
Lemma lifecycle_on_an_empty_book env st0 st1 ticks q :
  App.positions st0 = [] ->
  Js.is_finite (App.positionSize st0) ->
  App.openPosition env st0 = App.Opened st1 ->
  let st := App.runTicks ticks st1 in
  let b0 := App.balance st0 in
  App.positions st = [q] ->
  App.Pos.riskAmount q = App.positionSize st0
  /\ App.balance st == b0 - App.Pos.riskAmount q
  /\ App.positions (App.closePosition (App.Pos.id q) st) = []
  /\ App.balance (App.closePosition (App.Pos.id q) st)
     == b0 + App.Pos.unrealizedPnL q
  /\ (forall prices,
         App.positions (App.updatePositions prices st) = [] ->
         let q' := fst (App.revalue prices q) in
         App.Pos.status q' <> OPEN
         /\ App.balance (App.updatePositions prices st)
            == b0 + App.Pos.unrealizedPnL q'
         /\ (App.Pos.status q' = LIQUIDATED ->
             App.balance (App.updatePositions prices st)
             == b0 - App.Pos.riskAmount q)
         /\ (App.Pos.status q' = CLOSED_BY_TP
             \/ App.Pos.status q' = CLOSED_BY_SL ->
             App.Pos.unrealizedPnL q' = App.pnlAt (prices (App.Pos.market q)) q)).
Proof.
  intros Hempty Hfin Hopen st b0 Hq.
  set (r := App.positionSize st0) in *.
  assert (App.positions st1 = []
          \/ exists p, App.positions st1 = [p] /\ App.booked p
                       /\ App.Pos.riskAmount p = r
                       /\ App.balance st1 == b0 - r) as Hinv1.
  { apply openPosition_inv in Hopen. destruct Hopen as (e & -> & _).
    right. eexists. simpl. rewrite Hempty. split; [reflexivity|].
    split; [apply newPosition_booked|]. split; reflexivity. }
  destruct (runTicks_single b0 r ticks st1 Hinv1)
    as [He|(q0 & Hq0 & Hb & Hr & Hbal)]; fold st in He || fold st in Hq0, Hbal.
  { rewrite He in Hq. discriminate. }
  rewrite Hq0 in Hq. injection Hq as ->.
  assert (App.Pos.initialMargin q = r) as Hm
    by (rewrite (App.booked_margin q Hb); exact Hr).
  split; [exact Hr|]. split; [rewrite Hr; exact Hbal|].
  destruct (closePosition_found (App.Pos.id q) st q [] [] Hq0 eq_refl)
    as [Hcp Hcb]; [simpl; tauto | simpl; tauto |].
  split; [exact Hcp|]. split.
  { rewrite Hcb, Hbal, Hm, <- add_assoc. apply sub_add_cancel. exact Hfin. }
  intros prices Hgone q'.
  assert (Js.truthy_value (prices BTC) = true) as Hbtc.
  { destruct (Js.truthy_value (prices BTC)) eqn:E; auto.
    unfold App.updatePositions in Hgone.
    rewrite E, andb_false_r, Hq0 in Hgone. discriminate. }
  destruct (updatePositions_single prices st q Hq0 (App.booked_open q Hb) Hbtc)
    as [Hkeep Hclose]. fold q' in Hkeep, Hclose.
  assert (App.Pos.status q' <> OPEN) as Hne.
  { intros Ho. destruct (Hkeep Ho) as [Hp _].
    rewrite Hp in Hgone. discriminate. }
  destruct (Hclose Hne) as [_ Hb'].
  destruct (revalue_fields prices q) as (_ & _ & E2 & _ & E4 & _).
  fold q' in E2, E4.
  assert (App.balance (App.updatePositions prices st)
          == b0 + App.Pos.unrealizedPnL q') as Hnet.
  { rewrite Hb', Hbal, E4, Hm, add_zero_l. apply sub_add_cancel. exact Hfin. }
  pose proof (revalue_status prices q (App.booked_open q Hb)) as Hst.
  simpl in Hst. fold q' in Hst.
  split; [exact Hne|]. split; [exact Hnet|]. split.
  - intros HL. rewrite Hnet.
    assert (App.Pos.unrealizedPnL q' = - App.Pos.riskAmount q) as ->.
    { revert HL. rewrite Hst. unfold q'. rewrite revalue_cases.
      destruct (App.tpFires _ q); [discriminate|].
      destruct (App.slFires _ q); [discriminate|].
      destruct (App.liquidates _ q); [|discriminate].
      intros _. simpl. rewrite (booked_risk q Hb). reflexivity. }
    reflexivity.
  - revert Hst. unfold q'. rewrite revalue_cases.
    destruct (App.tpFires _ q); [reflexivity|].
    destruct (App.slFires _ q); [reflexivity|].
    destruct (App.liquidates _ q); intros -> [H|H]; discriminate.
Qed.

(** ** The balance check of [openPosition] *)

Lemma openPosition_rejected_keeps_state env st why :
  App.openPosition env st = App.Rejected why -> App.afterOpen env st = st.
Proof. unfold App.afterOpen. intros ->. reflexivity. Qed.

Lemma openPosition_without_price env st :
  Js.truthy_value (prices env (App.selectedMarket st)) = false ->
  App.openPosition env st = App.Rejected NoPriceAvailable.
Proof. unfold App.openPosition. intros ->. reflexivity. Qed.

Lemma openPosition_decision env st :
  Js.truthy_value (prices env (App.selectedMarket st)) = true ->
  if App.balance st <? App.positionSize st / App.orderLeverage st
  then App.openPosition env st = App.Rejected InsufficientBalance
  else exists st',
      App.openPosition env st = App.Opened st'
      /\ App.balance st' = App.balance st - App.positionSize st.
Proof.
  intros Hprice. unfold App.openPosition. rewrite Hprice. cbn [negb].
  destruct (App.balance st <? App.positionSize st / App.orderLeverage st);
    [reflexivity|].
  destruct (is_limit _ && Parse.nonempty _); eexists; split; reflexivity.
Qed.

(** C9: with a price available, a finite leverage L > 1 and a finite risk
    amount r > 0, [openPosition] rejects a finite balance b exactly when
    b < r / L and deducts r on success; r / L < r, and for every balance b
    with r / L <= b < r (such as r / L itself) the order is opened and the
    balance left behind, b - r, is negative. *)
Theorem C9_check_is_below_deduction env st (L r : Q) :
  Js.truthy_value (prices env (App.selectedMarket st)) = true ->
  App.orderLeverage st = Js.Fin L ->
  App.positionSize st = Js.Fin r ->
  (1 < L)%Q -> (0 < r)%Q ->
  let withBalance (b : Q) := App.setBalance (fun _ => Js.Fin b) st in
  (forall b : Q,
      App.openPosition env (withBalance b) = App.Rejected InsufficientBalance
      <-> (b < r / L)%Q)
  /\ (forall (b : Q) st',
         App.openPosition env (withBalance b) = App.Opened st' ->
         App.balance st' = Js.Fin (b - r))
  /\ (r / L < r)%Q
  /\ (forall b : Q,
         (r / L <= b)%Q -> (b < r)%Q ->
         exists st',
           App.openPosition env (withBalance b) = App.Opened st'
           /\ App.balance st' = Js.Fin (b - r)
           /\ (b - r < 0)%Q
           /\ (App.balance st' <? Js.zero) = true)
  /\ (exists (b : Q) st',
         (r / L <= b)%Q /\ (b < r)%Q
         /\ App.openPosition env (withBalance b) = App.Opened st'
         /\ (App.balance st' <? Js.zero) = true).
Proof.
  intros Hprice HL Hr HL1 Hr0 withBalance.
  assert (~ (L == 0)%Q) as HL0 by lra.
  assert (Js.Fin r / Js.Fin L = Js.Fin (r / L)) as Hdiv.
  { simpl. destruct (Qeq_bool L 0) eqn:E; auto.
    apply Qeq_bool_iff in E. tauto. }
  assert (r / L < r)%Q as Hlt.
  { apply Qlt_shift_div_r; [lra|]. nra. }
  assert (forall b : Q,
            if Js.Fin b <? Js.Fin (r / L)
            then App.openPosition env (withBalance b)
                 = App.Rejected InsufficientBalance
            else exists st',
                App.openPosition env (withBalance b) = App.Opened st'
                /\ App.balance st' = Js.Fin (b - r)) as Hdec.
  { intros b.
    pose proof (openPosition_decision env (withBalance b) Hprice) as H.
    change (App.balance (withBalance b)) with (Js.Fin b) in H.
    change (App.positionSize (withBalance b)) with (App.positionSize st) in H.
    change (App.orderLeverage (withBalance b)) with (App.orderLeverage st) in H.
    rewrite HL, Hr, Hdiv in H. exact H. }
  assert (forall b, (b < r / L)%Q ->
            App.openPosition env (withBalance b)
            = App.Rejected InsufficientBalance) as Hrej.
  { intros b Hb. specialize (Hdec b).
    apply lt_true_finite in Hb. rewrite Hb in Hdec. exact Hdec. }
  assert (forall b, ~ (b < r / L)%Q ->
            exists st', App.openPosition env (withBalance b) = App.Opened st'
                        /\ App.balance st' = Js.Fin (b - r)) as Hacc.
  { intros b Hb. specialize (Hdec b).
    destruct (Js.Fin b <? Js.Fin (r / L)) eqn:E; [|exact Hdec].
    exfalso. apply Hb. apply lt_true_finite. exact E. }
  split; [|split; [|split; [exact Hlt|split]]].
  - intros b. split; [|apply Hrej].
    intros Hopen. destruct (Qlt_le_dec b (r / L)) as [H|H]; auto.
    destruct (Hacc b) as (st' & Hst' & _); [lra|]. congruence.
  - intros b st' Hopen. destruct (Qlt_le_dec b (r / L)) as [H|H].
    + rewrite (Hrej b H) in Hopen. discriminate.
    + destruct (Hacc b) as (st'' & Hst'' & Hb''); [lra|]. congruence.
  - intros b Hlo Hhi. destruct (Hacc b) as (st' & Hst' & Hb'); [lra|].
    exists st'. split; [exact Hst'|]. split; [exact Hb'|].
    split; [lra|]. rewrite Hb'. apply lt_true_finite. lra.
  - destruct (Hacc (r / L)%Q) as (st' & Hst' & Hb'); [lra|].
    exists (r / L)%Q, st'. split; [lra|]. split; [exact Hlt|].
    split; [exact Hst'|]. rewrite Hb'. apply lt_true_finite. lra.
Qed.

(** An account holding 20 risks 50 at 5x: 50/5 <= 20 < 50, the order is
    opened and the balance becomes -30. *)
Lemma C9_check_is_below_deduction_witness :
  exists st',
    App.openPosition Scenario.env0
      (App.setBalance (fun _ => Js.Fin 20) Scenario.thin) = App.Opened st'
    /\ App.balance st' = Js.Fin (20 - 50)
    /\ (20 - 50 < 0)%Q
    /\ (App.balance st' <? Js.zero) = true.
Proof.
  destruct (C9_check_is_below_deduction Scenario.env0 Scenario.thin 5 50
              eq_refl eq_refl eq_refl eq_refl eq_refl)
    as (_ & _ & _ & H & _).
  apply (H 20%Q).
  - vm_compute. discriminate.
  - reflexivity.
Defined.

(** C5 (the code at the failing input): with 20 in the account, below the
    50 that opening deducts, [openPosition] does not reject: it books the
    position and leaves the balance at -30. *)
Theorem C5_thin_account_is_overdrawn :
  (App.balance Scenario.thin <? App.positionSize Scenario.thin) = true
  /\ exists st',
       App.openPosition Scenario.env0 Scenario.thin = App.Opened st'
       /\ App.positions st' = [Scenario.long_btc]
       /\ App.Pos.initialMargin Scenario.long_btc = Js.Fin 50
       /\ App.balance st' == Js.Fin (-30)
       /\ (App.balance st' <? Js.zero) = true.
Proof.
  split; [reflexivity|].
  eexists. split; [reflexivity|]. repeat split.
Qed.

(** The hook checks the balance against the very amount it deducts, so an
    order it opens on a finite balance leaves a balance that is not
    negative. *)
Lemma hook_open_keeps_balance_nonnegative now clock o st st' (b c : Q) :
  TradingEngine.openPosition now clock o st = TradingEngine.Opened st' ->
  TradingEngine.balance st = Js.Fin b ->
  TradingEngine.positionSize o / TradingEngine.orderLeverage o
  + TradingEngine.positionSize o * TradingEngine.TRADING_FEE_RATE = Js.Fin c ->
  TradingEngine.balance st' = Js.Fin (b - c) /\ (0 <= b - c)%Q.
Proof.
  intros Hopen Hb Hc.
  apply hook_openPosition_inv in Hopen.
  destruct Hopen as (e & -> & Hcheck).
  simpl in Hcheck |- *. rewrite Hb, Hc in Hcheck |- *.
  split; [reflexivity|].
  unfold Js.lt in Hcheck. rewrite negb_false_iff in Hcheck.
  apply Qle_bool_iff in Hcheck. lra.
Qed.

(** In the hook a position's [size] is the amount picked by the user, and
    its pnl is the price move times size * leverage. *)
Lemma hook_pnl_formula cp q (c e s L : Q) :
  cp = Js.VNum (Js.Fin c) ->
  TradingEngine.Pos.entryPrice q = Js.Fin e ->
  TradingEngine.Pos.size q = Js.Fin s ->
  TradingEngine.Pos.leverage q = Js.Fin L ->
  ~ (e == 0)%Q ->
  TradingEngine.pnlAt cp q ==
  Js.Fin ((c - e) / e * (s * L)
          * match TradingEngine.Pos.direction q with
            | LONG => 1
            | SHORT => -1
            end)%Q.
Proof.
  intros -> He Hs HL Hne. unfold TradingEngine.pnlAt, multiplier.
  rewrite He, Hs, HL. simpl.
  destruct (Qeq_bool e 0) eqn:E; [apply Qeq_bool_iff in E; tauto|].
  destruct (TradingEngine.Pos.direction q); simpl; unfold Qdiv, Qminus; ring.
Qed.

(** In the hook an open position is liquidated once its pnl is at or below
    minus half its margin, and then settles at minus its size. *)
Lemma hook_liquidation_settles_size prices q :
  let cp := prices (TradingEngine.Pos.market q) in
  (Js.truthy_value (TradingEngine.Pos.takeProfit q)
   && TradingEngine.tpHit cp q) = false ->
  (Js.truthy_value (TradingEngine.Pos.stopLoss q)
   && TradingEngine.slHit cp q) = false ->
  (TradingEngine.pnlAt cp q
   <=? - (TradingEngine.Pos.initialMargin q
          - TradingEngine.Pos.maintenanceMargin q)) = true ->
  TradingEngine.revalue prices q
  = (TradingEngine.Pos.withLiquidation q (- TradingEngine.Pos.size q), true).
Proof.
  intros cp Htp Hsl Hliq. unfold TradingEngine.revalue.
  fold cp. rewrite Htp, Hsl, Hliq. reflexivity.
Qed.

(** ** The scenarios of the specification *)

(** Long BTC at 95000, risk 50 at 5x: notional 250, liquidation at 76000;
    at 94000 the pnl is -50/19 (about -2.6316); at 76000 the position is
    liquidated at -50. *)
Example scenario_long_btc :
  App.positions (App.afterOpen Scenario.env0 Scenario.fresh) = [Scenario.long_btc]
  /\ App.Pos.size Scenario.long_btc == Js.Fin 250
  /\ App.Pos.liquidationPrice Scenario.long_btc == Js.Fin 76000
  /\ App.pnlAt (Js.VNum (Js.Fin 94000)) Scenario.long_btc == Js.Fin (-50 # 19)
  /\ (Js.Fin (-26316 # 10000) <? Js.Fin (-50 # 19)) = true
  /\ (Js.Fin (-50 # 19) <? Js.Fin (-26315 # 10000)) = true
  /\ App.Pos.status
       (fst (App.revalue (Scenario.quotes 76000 3500 140) Scenario.long_btc))
     = LIQUIDATED
  /\ App.Pos.unrealizedPnL
       (fst (App.revalue (Scenario.quotes 76000 3500 140) Scenario.long_btc))
     = Js.Fin (-50).
Proof. repeat split; vm_compute; reflexivity. Qed.

(** Short ETH at 3500, risk 50 at 10x, stop-loss 3600: at 3600 the position
    closes by stop-loss at -100/7 (about -14.2857), short of its liquidation
    price 3850. *)
Example scenario_short_eth :
  App.positions (App.afterOpen Scenario.env0 Scenario.fresh_short_eth)
  = [Scenario.short_eth]
  /\ App.Pos.liquidationPrice Scenario.short_eth == Js.Fin 3850
  /\ App.Pos.status
       (fst (App.revalue (Scenario.quotes 95000 3600 140) Scenario.short_eth))
     = CLOSED_BY_SL
  /\ App.Pos.unrealizedPnL
       (fst (App.revalue (Scenario.quotes 95000 3600 140) Scenario.short_eth))
     == Js.Fin (-100 # 7).
Proof. repeat split; vm_compute; reflexivity. Qed.

(** * Further properties of the code *)

(** ** The account's worth under the commands and the tick *)

Lemma bookTotal_app (l l' : list App.position) :
  App.bookTotal (l ++ l') == App.bookTotal l + App.bookTotal l'.
Proof.
  induction l as [|p l IH].
  - symmetry. apply add_zero_l.
  - simpl. rewrite IH. apply add_assoc.
Qed.

Lemma bookTotal_filter (f : App.position -> bool) (l : list App.position) :
  App.bookTotal l
  == App.bookTotal (filter f l) + App.bookTotal (filter (fun p => negb (f p)) l).
Proof.
  induction l as [|p l IH].
  - vm_compute. reflexivity.
  - simpl. destruct (f p); simpl; rewrite IH.
    + apply add_assoc.
    + apply add_swap.
Qed.

Lemma find_filter (f : App.position -> bool) (l : list App.position) :
  find f l = hd_error (filter f l).
Proof.
  induction l as [|p l IH]; simpl; auto.
  destruct (f p); auto.
Qed.

(** [openPosition] moves the risk amount from the balance into the new
    position's margin: with a finite risk amount the account is worth the
    same after it, whether the order was opened or rejected. *)
Theorem open_keeps_account_value env st :
  Js.is_finite (App.positionSize st) ->
  View.accountValue (App.afterOpen env st) == View.accountValue st.
Proof.
  intros Hfin. unfold App.afterOpen.
  destruct (App.openPosition env st) as [why|st'] eqn:E; [reflexivity|].
  apply openPosition_inv in E. destruct E as (e & -> & _).
  unfold View.accountValue. simpl.
  rewrite bookTotal_app. simpl.
  set (b := App.balance st). set (r := App.positionSize st) in *.
  set (T := App.bookTotal (App.positions st)).
  clearbody b r T. js_cases; ring.
Qed.

Lemma open_keeps_account_value_witness :
  Js.is_finite (App.positionSize Scenario.fresh)
  /\ View.accountValue (App.afterOpen Scenario.env0 Scenario.fresh)
     == Js.Fin 1000.
Proof.
  split; [exact I|].
  transitivity (View.accountValue Scenario.fresh).
  - exact (open_keeps_account_value Scenario.env0 Scenario.fresh I).
  - vm_compute. reflexivity.
Defined.

Lemma bookTotal_by_id positionId (l : list App.position) :
  App.bookTotal l
  == App.bookTotal (filter (fun p => App.Pos.id p =? positionId)%Z l)
     + App.bookTotal (filter (fun p => negb (App.Pos.id p =? positionId)%Z) l).
Proof. exact (bookTotal_filter _ l). Qed.

(** [closePosition] settles the first position that carries the id and drops
    every position that carries it: the account loses exactly the margin and
    pnl of the further positions sharing the id, and nothing when the id is
    carried once or not at all. *)
Theorem close_keeps_account_value positionId st :
  let sharing :=
    filter (fun p => App.Pos.id p =? positionId)%Z (App.positions st) in
  View.accountValue st
  == View.accountValue (App.closePosition positionId st)
     + App.bookTotal (tl sharing)
  /\ ((List.length sharing <= 1)%nat ->
      View.accountValue (App.closePosition positionId st)
      == View.accountValue st).
Proof.
  intros sharing.
  assert (View.accountValue st
          == View.accountValue (App.closePosition positionId st)
             + App.bookTotal (tl sharing)) as H.
  { unfold View.accountValue.
    rewrite closePosition_positions.
    rewrite (bookTotal_by_id positionId (App.positions st)).
    unfold App.closePosition. rewrite find_filter.
    subst sharing. unfold App.position.
    generalize (App.bookTotal
                  (filter (fun p : App.Pos.t => negb (App.Pos.id p =? positionId)%Z)
                     (App.positions st))).
    intros R.
    destruct (filter (fun p : App.Pos.t => App.Pos.id p =? positionId)%Z
                (App.positions st)) as [|p others].
    - cbn [hd_error tl App.bookTotal fold_right].
      generalize (App.balance st). intros b. js_cases; ring.
    - cbn [hd_error tl App.bookTotal fold_right]. simpl App.balance.
      generalize (App.balance st), (App.Pos.initialMargin p),
        (App.Pos.unrealizedPnL p),
        (fold_right
           (fun p0 acc =>
              App.Pos.initialMargin p0 + App.Pos.unrealizedPnL p0 + acc)
           Js.zero others).
      intros b m u T. js_cases; ring. }
  split; [exact H|].
  intros Hlen. rewrite H.
  destruct sharing as [|p [|q others]]; simpl in Hlen; try lia;
    cbn [tl App.bookTotal fold_right]; symmetry; apply add_zero_r.
Qed.

Lemma revalued_closed prices (book : list App.position) :
  Forall (fun p => App.Pos.stillOpen p = true) book ->
  App.closedPositions prices book
  = filter (fun p => negb (App.Pos.stillOpen p)) (View.revalued prices book).
Proof.
  unfold App.closedPositions, View.revalued.
  induction 1 as [|p book Hp _ IH]; simpl; auto.
  rewrite (revalue_closed_iff prices p Hp).
  destruct (App.Pos.stillOpen (fst (App.revalue prices p))); simpl;
    rewrite IH; reflexivity.
Qed.

Lemma add_regroup (b closed open : Js.number) :
  b + closed + open == b + (open + closed).
Proof. js_cases; ring. Qed.

(** The tick's settlement neither creates nor destroys value: on a book of
    open positions, a tick that runs leaves the account worth the balance
    before it plus margin and pnl of every position as the tick revalued
    it, whichever of them it closed; a tick that does not run (empty book or
    no BTC price) leaves the state as it was. *)
Theorem tick_settles_at_revalued_worth prices st :
  Forall (fun p => App.Pos.stillOpen p = true) (App.positions st) ->
  (App.positions st <> [] -> Js.truthy_value (prices BTC) = true ->
   View.accountValue (App.updatePositions prices st)
   == App.balance st + App.bookTotal (View.revalued prices (App.positions st)))
  /\ (App.positions st = [] \/ Js.truthy_value (prices BTC) = false ->
      App.updatePositions prices st = st).
Proof.
  intros Hopen. split.
  - intros Hne Hbtc.
    destruct (updatePositions_ledger prices st) as [Hrun _].
    assert ((0 <? List.length (App.positions st))%nat
            && Js.truthy_value (prices BTC) = true) as Hguard.
    { rewrite Hbtc. destruct (App.positions st); [contradiction|reflexivity]. }
    unfold View.accountValue. rewrite (Hrun Hguard).
    assert (App.positions (App.updatePositions prices st)
            = filter App.Pos.stillOpen (View.revalued prices (App.positions st)))
      as ->.
    { unfold App.updatePositions. rewrite Hguard.
      destruct (0 <? _)%nat; reflexivity. }
    rewrite (revalued_closed prices _ Hopen).
    rewrite (bookTotal_filter App.Pos.stillOpen
               (View.revalued prices (App.positions st))).
    apply add_regroup.
  - intros [He|Hbtc]; unfold App.updatePositions.
    + rewrite He. reflexivity.
    + rewrite Hbtc, andb_false_r. reflexivity.
Qed.

Lemma withPnL_tests cp p u :
  App.tpFires cp (App.Pos.withPnL p u) = App.tpFires cp p
  /\ App.slFires cp (App.Pos.withPnL p u) = App.slFires cp p
  /\ App.liquidates cp (App.Pos.withPnL p u) = App.liquidates cp p
  /\ App.pnlAt cp (App.Pos.withPnL p u) = App.pnlAt cp p.
Proof. repeat split. Qed.

Lemma revalue_again prices p :
  App.Pos.stillOpen p = true ->
  App.Pos.stillOpen (fst (App.revalue prices p)) = true ->
  App.revalue prices (fst (App.revalue prices p))
  = (fst (App.revalue prices p), false).
Proof.
  intros Hp. rewrite (revalue_cases prices p).
  destruct (App.tpFires _ p) eqn:Etp.
  { unfold App.Pos.stillOpen. simpl. rewrite andb_false_r. discriminate. }
  destruct (App.slFires _ p) eqn:Esl.
  { unfold App.Pos.stillOpen. simpl. rewrite andb_false_r. discriminate. }
  destruct (App.liquidates _ p) eqn:Eliq.
  { unfold App.Pos.stillOpen. simpl. discriminate. }
  intros _. cbn [fst].
  set (cp := prices (App.Pos.market p)) in *.
  set (u := App.pnlAt cp p).
  rewrite (revalue_cases prices (App.Pos.withPnL p u)).
  change (App.Pos.market (App.Pos.withPnL p u)) with (App.Pos.market p).
  fold cp.
  destruct (withPnL_tests cp p u) as (-> & -> & -> & ->).
  rewrite Etp, Esl, Eliq. reflexivity.
Qed.

Lemma state_eta st :
  App.setPositions (fun _ => App.positions st) st = st.
Proof. destruct st. reflexivity. Qed.

Lemma updatePositions_fixed prices st :
  (forall q, In q (App.positions st) -> App.revalue prices q = (q, false)) ->
  Forall (fun p => App.Pos.stillOpen p = true) (App.positions st) ->
  App.updatePositions prices st = st.
Proof.
  intros Hfix Hopen. unfold App.updatePositions, App.closedPositions.
  destruct (_ && _); [|reflexivity].
  assert (map (App.revalue prices) (App.positions st)
          = map (fun q => (q, false)) (App.positions st)) as ->
    by (apply map_ext_in; exact Hfix).
  assert (forall l : list App.position,
             filter snd (map (fun q => (q, false)) l) = []) as ->
    by (induction l; simpl; auto).
  rewrite map_map. simpl. rewrite map_id.
  rewrite forallb_filter_id.
  - apply state_eta.
  - apply forallb_forall. rewrite Forall_forall in Hopen. exact Hopen.
Qed.

(** A tick is idempotent: on a book of open positions, running the tick a
    second time with the same prices changes nothing, neither the balance
    nor any position. *)
Theorem tick_twice_is_tick_once prices st :
  Forall (fun p => App.Pos.stillOpen p = true) (App.positions st) ->
  App.updatePositions prices (App.updatePositions prices st)
  = App.updatePositions prices st.
Proof.
  intros Hopen.
  destruct ((0 <? List.length (App.positions st))%nat
            && Js.truthy_value (prices BTC)) eqn:G.
  - assert (App.positions (App.updatePositions prices st)
            = filter App.Pos.stillOpen
                (map fst (map (App.revalue prices) (App.positions st))))
      as Hpos.
    { unfold App.updatePositions. rewrite G.
      destruct (0 <? _)%nat; reflexivity. }
    apply updatePositions_fixed.
    + intros q Hq. rewrite Hpos in Hq.
      apply filter_In in Hq. destruct Hq as [Hin Hq].
      apply in_map_iff in Hin. destruct Hin as (x & <- & Hx).
      apply in_map_iff in Hx. destruct Hx as (p & <- & Hp).
      rewrite Forall_forall in Hopen.
      apply revalue_again; auto.
    + rewrite Hpos. apply Forall_forall. intros q Hq.
      apply filter_In in Hq. tauto.
  - assert (App.updatePositions prices st = st) as E
      by (unfold App.updatePositions; rewrite G; reflexivity).
    rewrite !E. reflexivity.
Qed.

(** ** What the header shows *)

Lemma totalUnrealizedPnL_sum (book : list App.position) :
  View.totalUnrealizedPnL book
  == fold_right (fun p acc => App.Pos.unrealizedPnL p + acc) Js.zero book.
Proof.
  unfold View.totalUnrealizedPnL.
  rewrite (fold_left_add _ App.Pos.unrealizedPnL). apply add_zero_l.
Qed.

(** [closeAllPositions] empties the book and pays out the whole account:
    the balance it leaves is the account's worth before it, which is the
    header's live balance plus the margins of the open positions; after it
    the header's live balance is the balance. *)
Theorem closeAll_pays_out_the_account st :
  let margins :=
    fold_right (fun p acc => App.Pos.initialMargin p + acc) Js.zero
               (App.positions st) in
  App.positions (App.closeAllPositions st) = []
  /\ App.balance (App.closeAllPositions st) == View.accountValue st
  /\ App.balance (App.closeAllPositions st) == View.liveBalance st + margins
  /\ View.liveBalance (App.closeAllPositions st)
     == App.balance (App.closeAllPositions st).
Proof.
  intros margins.
  split; [reflexivity|]. split; [apply closeAllPositions_balance|]. split.
  - rewrite closeAllPositions_balance, bookTotal_split.
    unfold View.liveBalance. rewrite totalUnrealizedPnL_sum.
    fold margins.
    generalize (App.balance st), margins,
      (fold_right (fun p acc => App.Pos.unrealizedPnL p + acc) Js.zero
                  (App.positions st)).
    intros b m u. js_cases; ring.
  - unfold View.liveBalance. simpl App.positions.
    apply add_zero_r.
Qed.

(** ** Leverage that [openPosition] does not validate *)

(** With a price available, a custom leverage typed in as a zero without a
    minus sign (0, 0.0, 00, ...) makes the required margin infinite: an order
    with a positive finite risk amount is rejected as InsufficientBalance
    whatever finite balance the account holds.  (A text with a minus sign is
    left out: JavaScript reads -0 as the negative zero, which [number] does
    not hold apart from 0.) *)
Theorem zero_leverage_is_always_rejected env st (L r b : Q) :
  Js.truthy_value (prices env (App.selectedMarket st)) = true ->
  App.showAdvanced st = true ->
  Parse.nonempty (Adv.customLeverage (App.advancedSettings st)) = true ->
  Shape.unsigned (Adv.customLeverage (App.advancedSettings st)) = true ->
  Parse.parseFloat (Adv.customLeverage (App.advancedSettings st)) = Js.Fin L ->
  App.positionSize st = Js.Fin r ->
  App.balance st = Js.Fin b ->
  (L == 0)%Q -> (0 < r)%Q ->
  App.positionSize st / App.orderLeverage st = Js.PInf
  /\ App.openPosition env st = App.Rejected InsufficientBalance
  /\ App.afterOpen env st = st.
Proof.
  intros Hprice Hadv Htext _ Hparse Hr Hb HL0 Hr0.
  assert (App.orderLeverage st = Js.Fin L) as HL.
  { unfold App.orderLeverage. rewrite Hadv, Htext. exact Hparse. }
  assert (App.positionSize st / App.orderLeverage st = Js.PInf) as Hdiv.
  { rewrite HL, Hr. simpl.
    apply Qeq_bool_iff in HL0. rewrite HL0.
    assert ((r ?= 0) = Gt)%Q as -> by (apply Qgt_alt; exact Hr0).
    reflexivity. }
  assert (App.openPosition env st = App.Rejected InsufficientBalance) as Hrej.
  { pose proof (openPosition_decision env st Hprice) as H.
    rewrite Hdiv, Hb in H. exact H. }
  split; [exact Hdiv|]. split; [exact Hrej|].
  unfold App.afterOpen. rewrite Hrej. reflexivity.
Qed.

(** A negative custom leverage is accepted: with a price available, a
    positive finite risk amount r and a finite balance b >= 0, the order is
    opened, r is deducted, and the position booked has the negative size
    r * L; for a positive entry price e its liquidation price e * (1 - 1/L)
    lies above e when long and e * (1 + 1/L) below e when short, that is on
    the winning side. *)
Theorem negative_leverage_is_accepted env st (L r b : Q) :
  Js.truthy_value (prices env (App.selectedMarket st)) = true ->
  App.orderLeverage st = Js.Fin L ->
  App.positionSize st = Js.Fin r ->
  App.balance st = Js.Fin b ->
  (L < 0)%Q -> (0 < r)%Q -> (0 <= b)%Q ->
  exists st' p,
    App.openPosition env st = App.Opened st'
    /\ App.positions st' = (App.positions st ++ [p])%list
    /\ App.balance st' = Js.Fin (b - r)
    /\ App.Pos.size p = Js.Fin (r * L) /\ (r * L < 0)%Q
    /\ (forall e : Q,
           App.Pos.entryPrice p = Js.Fin e -> (0 < e)%Q ->
           exists liq : Q,
             App.Pos.liquidationPrice p == Js.Fin liq
             /\ match App.Pos.direction p with
                | LONG => (e < liq)%Q
                | SHORT => (liq < e)%Q
                end).
Proof.
  intros Hprice HL Hr Hb HL0 Hr0 Hb0.
  assert (~ (L == 0)%Q) as HLne by lra.
  assert (forall k : Q, Js.Fin k / Js.Fin L = Js.Fin (k / L)) as Hdiv.
  { intros k. simpl. destruct (Qeq_bool L 0) eqn:E; auto.
    apply Qeq_bool_iff in E. tauto. }
  assert (/ L < 0)%Q as Hinv.
  { destruct (Qlt_le_dec (/ L) 0) as [H|H]; auto.
    exfalso.
    assert (L * / L == 1)%Q as H1 by (apply Qmult_inv_r; exact HLne).
    assert (L * / L <= 0)%Q by nra. lra. }
  pose proof (openPosition_decision env st Hprice) as H.
  rewrite HL, Hr, Hb, Hdiv in H.
  assert ((Js.Fin b <? Js.Fin (r / L)) = false) as Hchk.
  { destruct (Js.Fin b <? Js.Fin (r / L)) eqn:E; auto.
    apply lt_true_finite in E. unfold Qdiv in E. exfalso. nra. }
  rewrite Hchk in H. destruct H as (st' & Hopen & Hbal).
  pose proof Hopen as Hinv'. apply openPosition_inv in Hinv'.
  destruct Hinv' as (e0 & Hst' & _).
  exists st', (App.newPosition env st e0 (App.orderLeverage st)).
  split; [exact Hopen|]. split; [rewrite Hst'; reflexivity|].
  split; [exact Hbal|].
  split; [simpl; rewrite Hr, HL; reflexivity|].
  split; [nra|].
  intros e He Hepos. unfold App.newPosition in He |- *.
  cbn [App.Pos.entryPrice App.Pos.liquidationPrice App.Pos.direction]
    in He |- *.
  rewrite He, HL. unfold Js.one. rewrite Hdiv.
  destruct (App.direction st); simpl; eexists; (split; [reflexivity|]);
    unfold Qdiv, Qminus; nra.
Qed.

(** ** The order previews *)

Lemma opened_position env st st' p :
  App.openPosition env st = App.Opened st' ->
  App.positions st' = (App.positions st ++ [p])%list ->
  p = App.newPosition env st (Js.toNumber (View.entryPrice env st))
        (App.orderLeverage st)
  /\ Js.truthy_value (prices env (App.selectedMarket st)) = true.
Proof.
  intros Hopen Hpos. apply openPosition_inv in Hopen.
  destruct Hopen as (e & -> & Hprice & _ & He).
  simpl in Hpos. apply app_inv_head in Hpos. injection Hpos as <-.
  split; [|exact Hprice]. f_equal. rewrite He. unfold View.entryPrice.
  destruct (is_limit _ && Parse.nonempty _); reflexivity.
Qed.

(** The liquidation price that [ActionButtons] shows before the order is the
    one [openPosition] books, whenever the entry price is a nonzero number;
    with a limit price that parses to zero or to NaN the panel shows that
    entry price instead of a liquidation price. *)
Theorem preview_liquidation_is_booked env st st' p :
  App.openPosition env st = App.Opened st' ->
  App.positions st' = (App.positions st ++ [p])%list ->
  Js.toNumber (View.entryPrice env st) = App.Pos.entryPrice p
  /\ (Js.truthy (App.Pos.entryPrice p) = true ->
      View.liquidationPrice env st = Js.VNum (App.Pos.liquidationPrice p))
  /\ (Js.truthy (App.Pos.entryPrice p) = false ->
      View.liquidationPrice env st = Js.VNum (App.Pos.entryPrice p)).
Proof.
  intros Hopen Hpos.
  destruct (opened_position env st st' p Hopen Hpos) as [-> Hprice].
  cbn [App.newPosition App.Pos.entryPrice App.Pos.liquidationPrice].
  assert (Js.truthy_value (View.entryPrice env st)
          = Js.truthy (Js.toNumber (View.entryPrice env st))
          /\ Js.VNum (Js.toNumber (View.entryPrice env st))
             = View.entryPrice env st) as [Ht Hv].
  { unfold View.entryPrice.
    destruct (is_limit _ && Parse.nonempty _); [split; reflexivity|].
    destruct (prices env (App.selectedMarket st)); [discriminate|].
    split; reflexivity. }
  split; [reflexivity|].
  unfold View.liquidationPrice. rewrite Ht. split; intros ->.
  - destruct (App.direction st); reflexivity.
  - simpl. symmetry. exact Hv.
Qed.

(** With the advanced panel open, the pnl that [AdvancedSettings] previews
    for the take-profit (stop-loss) text is the pnl the tick computes for the
    booked position when the price stands exactly at the stored take-profit
    (stop-loss); no preview is shown when the text is empty, in which case
    no trigger is stored. *)
Theorem preview_pnl_is_tick_pnl env st st' p :
  App.showAdvanced st = true ->
  App.openPosition env st = App.Opened st' ->
  App.positions st' = (App.positions st ++ [p])%list ->
  Js.truthy (App.Pos.entryPrice p) = true ->
  View.calculateTPPnL env st
  = match App.Pos.takeProfit p with
    | Js.VNull => Js.VNull
    | Js.VNum tp => Js.VNum (App.pnlAt (Js.VNum tp) p)
    end
  /\ View.calculateSLPnL env st
     = match App.Pos.stopLoss p with
       | Js.VNull => Js.VNull
       | Js.VNum sl => Js.VNum (App.pnlAt (Js.VNum sl) p)
       end.
Proof.
  intros Hadv Hopen Hpos.
  destruct (opened_position env st st' p Hopen Hpos) as [-> Hprice].
  cbn [App.newPosition App.Pos.entryPrice App.Pos.takeProfit App.Pos.stopLoss].
  intros Htruthy.
  assert (Js.truthy_value (View.entryPrice env st) = true) as Ht.
  { revert Htruthy. unfold View.entryPrice.
    destruct (is_limit _ && Parse.nonempty _); [auto|].
    intros _. exact Hprice. }
  assert (View.advancedLeverage st = App.orderLeverage st) as Hlev
    by (unfold View.advancedLeverage, App.orderLeverage; rewrite Hadv;
        reflexivity).
  unfold View.calculateTPPnL, View.calculateSLPnL, View.calculatePnLAt,
    trigger_of.
  rewrite Ht, Hlev.
  split.
  - destruct (Parse.nonempty (Adv.takeProfit (App.advancedSettings st)));
      reflexivity.
  - destruct (Parse.nonempty (Adv.stopLoss (App.advancedSettings st)));
      reflexivity.
Qed.

(** ** The fallback feed *)

Lemma jitter_bound (p u : Q) :
  (0 < p)%Q -> (0 <= u)%Q -> (u < 1)%Q ->
  exists p' : Q,
    Feed.jitter (Js.VNum (Js.Fin p)) (Js.Fin u) = Js.VNum (Js.Fin p')
    /\ (p * (1 - (1 # 4000)) <= p')%Q
    /\ (p' < p * (1 + (1 # 4000)))%Q
    /\ (0 < p')%Q.
Proof.
  intros Hp Hu0 Hu1. eexists. split; [reflexivity|].
  assert (0 <= p * u)%Q as H0 by nra.
  assert (p * u < p)%Q as H1 by nra.
  repeat split; lra.
Qed.

(** One jitter moves a positive price by at most 0.025% of itself, so the
    price stays positive. *)
Theorem jitter_moves_at_most_a_quarter_per_mille (p u : Q) :
  (0 < p)%Q -> (0 <= u)%Q -> (u < 1)%Q ->
  exists p' : Q,
    Feed.jitter (Js.VNum (Js.Fin p)) (Js.Fin u) = Js.VNum (Js.Fin p')
    /\ (p * (1 - (1 # 4000)) <= p')%Q
    /\ (p' < p * (1 + (1 # 4000)))%Q
    /\ (0 < p')%Q.
Proof. exact (jitter_bound p u). Qed.

Lemma jitter_moves_at_most_a_quarter_per_mille_witness :
  exists p' : Q,
    Feed.jitter (Js.VNum (Js.Fin 95000)) (Js.Fin (3 # 4))
    = Js.VNum (Js.Fin p')
    /\ (95000 * (1 - (1 # 4000)) <= p')%Q
    /\ (p' < 95000 * (1 + (1 # 4000)))%Q
    /\ (0 < p')%Q.
Proof.
  apply (jitter_moves_at_most_a_quarter_per_mille 95000 (3 # 4)).
  - reflexivity.
  - vm_compute. discriminate.
  - reflexivity.
Defined.

Lemma jitterStep_positive live random fallback :
  Shape.unit_draws random ->
  Shape.positive_quotes fallback ->
  Shape.positive_quotes (Feed.jitterStep live random fallback).
Proof.
  intros Hr Hf. unfold Feed.jitterStep.
  destruct (_ || _); [|exact Hf].
  intros m. destruct (Hr m) as (u & Hu & Hu0 & Hu1).
  destruct (Hf m) as (p & Hp & Hp0).
  destruct (jitter_bound p u Hp0 Hu0 Hu1)
    as (p' & E & _ & _ & Hp').
  exists p'. unfold Feed.jitterAll. rewrite Hp, Hu. auto.
Qed.

Lemma positive_quotes_truthy quotes m :
  Shape.positive_quotes quotes -> Js.truthy_value (quotes m) = true.
Proof.
  intros H. destruct (H m) as (p & -> & Hp). simpl.
  destruct (Qeq_bool p 0) eqn:E; auto.
  apply Qeq_bool_iff in E. lra.
Qed.

(** The engine always has a price: after any number of jitter callbacks on
    the initial fallback prices, the feed selected for the engine (all live
    or all fallback, never a mix) quotes every market at a truthy price,
    whatever the live prices are; so [openPosition] never returns for lack
    of a price. *)
Theorem selected_feed_always_has_a_price steps live now clock st :
  Forall (fun step => Shape.unit_draws (snd step)) steps ->
  let fallback := Feed.jitterRun steps Feed.fallbackPrices0 in
  let quotes := Feed.selectPrices live fallback in
  Shape.positive_quotes fallback
  /\ (quotes = live \/ quotes = fallback)
  /\ (forall m, Js.truthy_value (quotes m) = true)
  /\ App.openPosition (mkEnv quotes now clock) st
     <> App.Rejected NoPriceAvailable.
Proof.
  intros Hsteps fallback quotes.
  assert (Shape.positive_quotes fallback) as Hpos.
  { subst fallback. unfold Feed.jitterRun.
    assert (Shape.positive_quotes Feed.fallbackPrices0) as H0.
    { intros m. destruct m; eexists; (split; [reflexivity|reflexivity]). }
    revert H0. generalize Feed.fallbackPrices0.
    induction Hsteps as [|step steps Hstep _ IH]; intros f Hf; [exact Hf|].
    simpl. apply IH. apply jitterStep_positive; auto. }
  assert (forall m, Js.truthy_value (quotes m) = true) as Htruthy.
  { intros m. subst quotes. unfold Feed.selectPrices.
    destruct (Js.truthy_value (live BTC)) eqn:E1;
      destruct (Js.truthy_value (live ETH)) eqn:E2;
      destruct (Js.truthy_value (live SOL)) eqn:E3; simpl;
      try (apply positive_quotes_truthy; exact Hpos).
    destruct m; assumption. }
  split; [exact Hpos|]. split; [|split; [exact Htruthy|]].
  - subst quotes. unfold Feed.selectPrices.
    destruct (_ && _); auto.
  - unfold App.openPosition. simpl prices. rewrite Htruthy. simpl.
    destruct (App.balance st <? _); [discriminate|].
    destruct (is_limit _ && _); discriminate.
Qed.

(** ** Price histories *)

Lemma slice_from_end {A : Type} (n : Z) (l : list A) :
  (1 <= n)%Z ->
  Arr.slice (- n) l = skipn (List.length l - Z.to_nat n) l.
Proof.
  intros Hn. unfold Arr.slice.
  assert ((- n <? 0)%Z = true) as -> by (apply Z.ltb_lt; lia).
  f_equal. lia.
Qed.

Lemma push_then_keep {A : Type} (n : nat) (h : list A) (x : A) :
  (1 <= n)%nat ->
  skipn (List.length (h ++ [x]) - n) (h ++ [x])
  = (skipn (List.length h - (n - 1)) h ++ [x])%list
  /\ List.length (skipn (List.length h - (n - 1)) h)
     = Nat.min (List.length h) (n - 1).
Proof.
  intros Hn. rewrite length_app. simpl List.length.
  replace (List.length h + 1 - n)%nat with (List.length h - (n - 1))%nat by lia.
  split.
  - rewrite skipn_app.
    replace (List.length h - (n - 1) - List.length h)%nat with 0%nat by lia.
    reflexivity.
  - rewrite length_skipn. lia.
Qed.

(** The fallback history keeps the last 50 prices: pushing a price onto a
    history gives the (at most 49) most recent earlier prices, in order,
    followed by the new price. *)
Theorem fallback_history_keeps_last_50 prevHistory price :
  exists dropped kept,
    prevHistory = (dropped ++ kept)%list
    /\ Feed.pushHistory prevHistory price = (kept ++ [price])%list
    /\ List.length kept = Nat.min (List.length prevHistory) 49
    /\ (List.length (Feed.pushHistory prevHistory price) <= 50)%nat.
Proof.
  unfold Feed.pushHistory.
  rewrite (slice_from_end 50) by lia.
  destruct (push_then_keep 50 prevHistory price) as [E L]; [lia|].
  change (Z.to_nat 50) with 50%nat. rewrite E.
  exists (firstn (List.length prevHistory - 49) prevHistory),
         (skipn (List.length prevHistory - 49) prevHistory).
  split; [symmetry; apply firstn_skipn|]. split; [reflexivity|].
  split; [exact L|]. rewrite length_app, L. simpl. lia.
Qed.

(** [useLivePrices] keeps the last [maxHistoryPoints] prices when that
    bound is at least 1; with a bound of 0 the slice starts at index 0 and
    the history keeps every price it was ever given; a null price leaves the
    history as it was. *)
Theorem live_history_bound (maxHistoryPoints : Z) prevHistory :
  ((1 <= maxHistoryPoints)%Z ->
   forall price,
   exists dropped kept,
     prevHistory = (dropped ++ kept)%list
     /\ LivePrices.pushHistory maxHistoryPoints prevHistory (Js.VNum price)
        = (kept ++ [price])%list
     /\ List.length kept
        = Nat.min (List.length prevHistory) (Z.to_nat maxHistoryPoints - 1)
     /\ (Z.of_nat (List.length
                     (LivePrices.pushHistory maxHistoryPoints prevHistory
                        (Js.VNum price)))
         <= maxHistoryPoints)%Z)
  /\ (forall price,
         LivePrices.pushHistory 0 prevHistory (Js.VNum price)
         = (prevHistory ++ [price])%list)
  /\ LivePrices.pushHistory maxHistoryPoints prevHistory Js.VNull
     = prevHistory.
Proof.
  split; [|split; [|reflexivity]].
  2:{ intros price. unfold LivePrices.pushHistory, Arr.slice.
      change (- 0 <? 0)%Z with false. cbv iota.
      replace (Z.min (- 0) (Z.of_nat (List.length (prevHistory ++ [price]))))
        with 0%Z by lia.
      reflexivity. }
  intros Hn price. unfold LivePrices.pushHistory.
  rewrite (slice_from_end maxHistoryPoints) by exact Hn.
  destruct (push_then_keep (Z.to_nat maxHistoryPoints) prevHistory price)
    as [E L]; [lia|].
  rewrite E.
  exists (firstn (List.length prevHistory - (Z.to_nat maxHistoryPoints - 1))
            prevHistory),
         (skipn (List.length prevHistory - (Z.to_nat maxHistoryPoints - 1))
            prevHistory).
  split; [symmetry; apply firstn_skipn|]. split; [reflexivity|].
  split; [exact L|]. rewrite length_app, L. simpl. lia.
Qed.

Lemma live_history_bound_witness :
  LivePrices.pushHistory 2 [Js.Fin 1; Js.Fin 2] (Js.VNum (Js.Fin 3))
  = [Js.Fin 2; Js.Fin 3]
  /\ LivePrices.pushHistory 0 [Js.Fin 1; Js.Fin 2] (Js.VNum (Js.Fin 3))
     = [Js.Fin 1; Js.Fin 2; Js.Fin 3].
Proof.
  destruct (live_history_bound 2 [Js.Fin 1; Js.Fin 2]) as (H & H0 & _).
  split; [reflexivity|]. exact (H0 (Js.Fin 3)).
Defined.

(** ** Extremes of a finite series *)

Lemma fold_min2_finite (qs : list Q) :
  forall a : Q,
  exists m : Q,
    fold_left Arr.min2 (map Js.Fin qs) (Js.Fin a) = Js.Fin m
    /\ (m <= a)%Q /\ Forall (fun q => (m <= q)%Q) qs
    /\ (m = a \/ In m qs).
Proof.
  induction qs as [|q qs IH]; intros a; simpl.
  - exists a. repeat split; auto. apply Qle_refl.
  - 
    destruct (Qle_bool a q) eqn:E.
    + apply Qle_bool_iff in E.
      destruct (IH a) as (m & Hm & Hle & Hall & Hin).
      exists m. split; [exact Hm|]. split; [exact Hle|].
      split; [constructor; [lra|exact Hall]|tauto].
    + assert (q < a)%Q as Hlt.
      { destruct (Qlt_le_dec q a) as [H|H]; auto.
        apply Qle_bool_iff in H. congruence. }
      destruct (IH q) as (m & Hm & Hle & Hall & Hin).
      exists m. split; [exact Hm|]. split; [lra|].
      split; [constructor; [exact Hle|exact Hall]|].
      destruct Hin as [->|Hin]; auto.
Qed.

Lemma fold_max2_finite (qs : list Q) :
  forall a : Q,
  exists m : Q,
    fold_left Arr.max2 (map Js.Fin qs) (Js.Fin a) = Js.Fin m
    /\ (a <= m)%Q /\ Forall (fun q => (q <= m)%Q) qs
    /\ (m = a \/ In m qs).
Proof.
  induction qs as [|q qs IH]; intros a; simpl.
  - exists a. repeat split; auto. apply Qle_refl.
  - 
    destruct (Qle_bool a q) eqn:E.
    + apply Qle_bool_iff in E.
      destruct (IH q) as (m & Hm & Hle & Hall & Hin).
      exists m. split; [exact Hm|]. split; [lra|].
      split; [constructor; [exact Hle|exact Hall]|].
      destruct Hin as [->|Hin]; auto.
    + assert (q < a)%Q as Hlt.
      { destruct (Qlt_le_dec q a) as [H|H]; auto.
        apply Qle_bool_iff in H. congruence. }
      destruct (IH a) as (m & Hm & Hle & Hall & Hin).
      exists m. split; [exact Hm|]. split; [exact Hle|].
      split; [constructor; [lra|exact Hall]|tauto].
Qed.

Lemma min_of_finite (qs : list Q) :
  qs <> [] ->
  exists m : Q,
    Arr.min (map Js.Fin qs) = Js.Fin m
    /\ In m qs /\ Forall (fun q => (m <= q)%Q) qs.
Proof.
  destruct qs as [|q qs]; [congruence|]. intros _.
  destruct (fold_min2_finite qs q) as (m & Hm & Hle & Hall & Hin).
  exists m. split; [exact Hm|]. split.
  - destruct Hin as [->|Hin]; [left; reflexivity|right; exact Hin].
  - constructor; assumption.
Qed.

Lemma max_of_finite (qs : list Q) :
  qs <> [] ->
  exists m : Q,
    Arr.max (map Js.Fin qs) = Js.Fin m
    /\ In m qs /\ Forall (fun q => (q <= m)%Q) qs.
Proof.
  destruct qs as [|q qs]; [congruence|]. intros _.
  destruct (fold_max2_finite qs q) as (m & Hm & Hle & Hall & Hin).
  exists m. split; [exact Hm|]. split.
  - destruct Hin as [->|Hin]; [left; reflexivity|right; exact Hin].
  - constructor; assumption.
Qed.

Lemma fold_with_nan (f : Js.number -> Js.number -> Js.number)
  (l : list Js.number) :
  (forall b, f Js.NaN b = Js.NaN) -> fold_left f l Js.NaN = Js.NaN.
Proof. intros H. induction l; simpl; auto. rewrite H. exact IHl. Qed.

Lemma extremes_of_nan (before after : list Js.number) :
  Arr.max (before ++ Js.NaN :: after) = Js.NaN
  /\ Arr.min (before ++ Js.NaN :: after) = Js.NaN.
Proof.
  unfold Arr.max, Arr.min. rewrite !fold_left_app. simpl.
  assert (forall a, Arr.max2 a Js.NaN = Js.NaN) as H1 by (destruct a; auto).
  assert (forall a, Arr.min2 a Js.NaN = Js.NaN) as H2 by (destruct a; auto).
  rewrite H1, H2. split; apply fold_with_nan; reflexivity.
Qed.

(** The high and the low that [useLivePrices] records for a symbol are
    prices of the series (the history followed by the new price), and the
    low is at or below and the high at or above every price of it, the new
    price included, when all of them are finite; a NaN anywhere in the
    history makes both NaN. *)
Theorem high_low_bracket_the_series :
  (forall (history : list Q) (price : Q),
      exists high low : Q,
        LivePrices.highLow (map Js.Fin history) (Js.Fin price)
        = (Js.Fin high, Js.Fin low)
        /\ In high (history ++ [price]) /\ In low (history ++ [price])
        /\ (low <= price)%Q /\ (price <= high)%Q
        /\ Forall (fun h => (low <= h)%Q /\ (h <= high)%Q) history)
  /\ (forall before after price,
         LivePrices.highLow (before ++ Js.NaN :: after) price
         = (Js.NaN, Js.NaN)).
Proof.
  split.
  - intros history price. unfold LivePrices.highLow.
    change [Js.Fin price] with (map Js.Fin [price]). rewrite <- map_app.
    assert (history ++ [price] <> [])%list as Hne
      by (destruct history; discriminate).
    destruct (max_of_finite _ Hne) as (hi & Ehi & Inhi & Hhi).
    destruct (min_of_finite _ Hne) as (lo & Elo & Inlo & Hlo).
    exists hi, lo. rewrite Ehi, Elo.
    rewrite Forall_forall in Hhi, Hlo.
    split; [reflexivity|]. split; [exact Inhi|]. split; [exact Inlo|].
    split; [apply Hlo; apply in_or_app; right; left; reflexivity|].
    split; [apply Hhi; apply in_or_app; right; left; reflexivity|].
    apply Forall_forall. intros h Hh.
    split; [apply Hlo|apply Hhi]; apply in_or_app; left; exact Hh.
  - intros before after price. unfold LivePrices.highLow.
    rewrite <- app_assoc. simpl.
    destruct (extremes_of_nan before (after ++ [price])) as [-> ->].
    reflexivity.
Qed.


(** ** The chart *)

Lemma mapi_from_length {A B : Type} (f : A -> nat -> B) (l : list A) :
  forall i, List.length (Arr.mapi_from f i l) = List.length l.
Proof. induction l; intros i; simpl; auto. Qed.

Lemma mapi_from_Forall {A B : Type} (P : B -> Prop) (f : A -> nat -> B)
  (l : list A) :
  forall i,
    (forall k a, (i <= k < i + List.length l)%nat -> In a l -> P (f a k)) ->
    Forall P (Arr.mapi_from f i l).
Proof.
  induction l as [|a l IH]; intros i H; simpl; constructor.
  - apply H; [simpl; lia|left; reflexivity].
  - apply IH. intros k b Hk Hb. apply H; [simpl; lia|right; exact Hb].
Qed.

Lemma mapi_from_last {A B : Type} (f : A -> nat -> B) (l : list A) (a : A) :
  forall i,
    nth_error (Arr.mapi_from f i (l ++ [a])) (List.length l)
    = Some (f a (i + List.length l)%nat).
Proof.
  induction l as [|b l IH]; intros i; simpl.
  - f_equal. f_equal. lia.
  - rewrite IH. f_equal. f_equal. lia.
Qed.

(** [Math.max(prices.length - 1, 1)] *)
Lemma chart_denominator (n : nat) :
  exists d : Q,
    Arr.max [Arr.of_nat n - Js.one; Js.one] = Js.Fin d
    /\ (1 <= d)%Q /\ (inject_Z (Z.of_nat n) - 1 <= d)%Q
    /\ ((2 <= n)%nat -> (d == inject_Z (Z.of_nat n) - 1)%Q).
Proof.
  unfold Arr.max, Arr.of_nat. simpl.
  destruct (Qle_bool (inject_Z (Z.of_nat n) + - (1)) 1) eqn:E.
  - apply Qle_bool_iff in E. exists 1%Q.
    split; [reflexivity|]. split; [lra|]. split; [lra|].
    intros Hn.
    assert (2 <= Z.of_nat n)%Z as H by lia.
    rewrite Zle_Qle in H. change (inject_Z 2) with 2%Q in H. lra.
  - exists (inject_Z (Z.of_nat n) + - (1))%Q.
    assert (1 < inject_Z (Z.of_nat n) + - (1))%Q.
    { destruct (Qlt_le_dec 1 (inject_Z (Z.of_nat n) + - (1))) as [H|H]; auto.
      apply Qle_bool_iff in H. congruence. }
    split; [reflexivity|]. split; [lra|]. split; [lra|]. reflexivity.
Qed.

(** The fraction of the height a price of the series is drawn at. *)
Lemma chart_y_finite (H : Q) (qs : list Q) (q : Q) :
  In q qs ->
  exists t : Q,
    Chart.yOf (Js.Fin H) (map Js.Fin qs) (Js.Fin q)
    = Js.Fin (H + - (20) + - (t * (H + - (2 * 20))))
    /\ (0 <= t)%Q /\ (t <= 1)%Q.
Proof.
  intros Hin.
  assert (qs <> []) as Hne by (destruct qs; [destruct Hin|discriminate]).
  destruct (max_of_finite _ Hne) as (hi & Ehi & _ & Hhi).
  destruct (min_of_finite _ Hne) as (lo & Elo & _ & Hlo).
  rewrite Forall_forall in Hhi, Hlo.
  pose proof (Hhi q Hin) as Hq1. pose proof (Hlo q Hin) as Hq0.
  unfold Chart.yOf, Chart.priceRange, Chart.padding. rewrite Ehi, Elo.
  unfold Js.or_else. simpl Js.sub. simpl Js.truthy.
  destruct (Qeq_bool (hi + - lo) 0) eqn:E; simpl negb; cbv iota.
  - apply Qeq_bool_iff in E.
    exists ((q + - lo) / 1)%Q. split; [reflexivity|].
    assert ((q + - lo) / 1 == q + - lo)%Q as E1 by field.
    rewrite E1. split; lra.
  - assert (~ (hi + - lo == 0)%Q) as Hne0.
    { intros H0. apply Qeq_bool_iff in H0. congruence. }
    assert (0 < hi + - lo)%Q as Hpos by lra.
    exists ((q + - lo) / (hi + - lo))%Q. split.
    + simpl. rewrite E. reflexivity.
    + split.
      * apply Qle_shift_div_l; [exact Hpos|lra].
      * apply Qle_shift_div_r; [exact Hpos|lra].
Qed.

Lemma chart_x_finite (n k : nat) :
  (k < n)%nat ->
  exists x : Q,
    (Arr.of_nat k / Arr.max [Arr.of_nat n - Js.one; Js.one])
    * (Chart.svgWidth - Js.Fin 2 * Chart.padding) + Chart.padding
    = Js.Fin x
    /\ (20 <= x)%Q /\ (x <= 580)%Q
    /\ (k = 0%nat -> (x == 20)%Q)
    /\ ((2 <= n)%nat -> k = (n - 1)%nat -> (x == 580)%Q).
Proof.
  intros Hk.
  destruct (chart_denominator n) as (d & -> & Hd1 & Hdn & Hd2).
  assert (Qeq_bool d 0 = false) as Hd0.
  { destruct (Qeq_bool d 0) eqn:E; auto. apply Qeq_bool_iff in E. lra. }
  assert (0 <= inject_Z (Z.of_nat k))%Q as Hk0.
  { change 0%Q with (inject_Z 0). rewrite <- Zle_Qle. lia. }
  assert (inject_Z (Z.of_nat k) <= inject_Z (Z.of_nat n) - 1)%Q as Hk1.
  { assert (Z.of_nat k <= Z.of_nat n + - 1)%Z as H by lia.
    rewrite Zle_Qle, inject_Z_plus in H.
    change (inject_Z (- 1)) with (- (1))%Q in H. lra. }
  assert (0 <= inject_Z (Z.of_nat k) / d)%Q as Ht0
    by (apply Qle_shift_div_l; lra).
  assert (inject_Z (Z.of_nat k) / d <= 1)%Q as Ht1
    by (apply Qle_shift_div_r; lra).
  eexists. split.
  { unfold Arr.of_nat, Chart.svgWidth, Chart.padding. simpl.
    rewrite Hd0. reflexivity. }
  set (t := (inject_Z (Z.of_nat k) / d)%Q) in *.
  split; [lra|]. split; [lra|]. split.
  - intros ->. unfold t. change (inject_Z (Z.of_nat 0)) with 0%Q.
    assert (0 / d == 0)%Q as -> by (field; lra). lra.
  - intros Hn ->. unfold t.
    assert (inject_Z (Z.of_nat (n - 1)) == d)%Q as ->.
    { rewrite (Hd2 Hn).
      replace (Z.of_nat (n - 1)) with (Z.of_nat n + - 1)%Z by lia.
      rewrite inject_Z_plus. change (inject_Z (- 1)) with (- (1))%Q. lra. }
    assert (d / d == 1)%Q as -> by (field; lra). lra.
Qed.

(** The chart's line never leaves its frame: for a non-empty series of
    finite prices, [normalizedData] has one point per price, every point
    has 20 <= x <= 580 and 20 <= y <= 230, the first point is at x = 20,
    and the pulse marker sits on the last point (at x = 580 when the series
    has two prices or more); with no series or an empty one there is no
    point and the marker is at (300, 100). *)
Theorem chart_points_stay_in_the_frame (qs : list Q) :
  qs <> [] ->
  let points := Chart.normalizedData (Some (map Js.Fin qs)) in
  List.length points = List.length qs
  /\ Forall (fun point =>
               exists x y : Q,
                 point = (Js.Fin x, Js.Fin y)
                 /\ (20 <= x)%Q /\ (x <= 580)%Q
                 /\ (20 <= y)%Q /\ (y <= 230)%Q) points
  /\ (exists x y : Q, hd_error points = Some (Js.Fin x, Js.Fin y)
                      /\ (x == 20)%Q)
  /\ (exists x y : Q,
         nth_error points (List.length points - 1) = Some (Js.Fin x, Js.Fin y)
         /\ Marker.pulse points = (Js.Fin x, Js.Fin y)
         /\ ((2 <= List.length qs)%nat -> (x == 580)%Q))
  /\ Chart.normalizedData None = []
  /\ Chart.normalizedData (Some []) = []
  /\ Marker.pulse [] = (Js.Fin 300, Js.Fin 100).
Proof.
  intros Hne points.
  set (f := fun (price : Js.number) (index : nat) =>
              ((Arr.of_nat index
                / Arr.max [Arr.of_nat (List.length (map Js.Fin qs)) - Js.one;
                           Js.one])
               * (Chart.svgWidth - Js.Fin 2 * Chart.padding) + Chart.padding,
               Chart.yOf (Js.Fin 250) (map Js.Fin qs) price)).
  assert (points = Arr.mapi_from f 0 (map Js.Fin qs)) as Hpts.
  { subst points. destruct qs as [|q qs]; [congruence|]. reflexivity. }
  assert (forall k q, (k < List.length qs)%nat -> In q qs ->
            exists x y : Q,
              f (Js.Fin q) k = (Js.Fin x, Js.Fin y)
              /\ (20 <= x)%Q /\ (x <= 580)%Q /\ (20 <= y)%Q /\ (y <= 230)%Q
              /\ (k = 0%nat -> (x == 20)%Q)
              /\ ((2 <= List.length qs)%nat -> k = (List.length qs - 1)%nat ->
                  (x == 580)%Q)) as Hpoint.
  { intros k q Hk Hq. unfold f. rewrite length_map.
    destruct (chart_x_finite (List.length qs) k Hk)
      as (x & -> & Hx0 & Hx1 & Hfirst & Hlast).
    destruct (chart_y_finite 250 qs q Hq) as (t & -> & Ht0 & Ht1).
    eexists. eexists. split; [reflexivity|].
    repeat split; auto; lra. }
  rewrite Hpts.
  split; [rewrite mapi_from_length; apply length_map|].
  split.
  { apply mapi_from_Forall. intros k a Hk Ha.
    apply in_map_iff in Ha. destruct Ha as (q & <- & Hq).
    rewrite length_map in Hk.
    destruct (Hpoint k q) as (x & y & E & H1 & H2 & H3 & H4 & _);
      [lia|exact Hq|].
    exists x, y. auto. }
  split.
  { destruct qs as [|q qs]; [congruence|].
    destruct (Hpoint 0%nat q) as (x & y & E & _ & _ & _ & _ & Hfirst & _);
      [simpl; lia|left; reflexivity|].
    exists x, y. split; [simpl; rewrite E; reflexivity|auto]. }
  split.
  { rewrite mapi_from_length, length_map.
    destruct (exists_last Hne) as (front & q & ->).
    rewrite map_app. simpl map.
    rewrite length_app. simpl List.length.
    replace (List.length front + 1 - 1)%nat with (List.length (map Js.Fin front))
      by (rewrite length_map; lia).
    destruct (Hpoint (List.length front) q)
      as (x & y & E & Hx0 & _ & Hy0 & _ & _ & Hlast).
    { rewrite length_app. simpl. lia. }
    { apply in_or_app. right. left. reflexivity. }
    exists x, y.
    assert (nth_error (Arr.mapi_from f 0 (map Js.Fin front ++ [Js.Fin q]))
              (List.length (map Js.Fin front))
            = Some (Js.Fin x, Js.Fin y)) as Hnth.
    { rewrite mapi_from_last. simpl Nat.add. rewrite length_map, E.
      reflexivity. }
    split; [exact Hnth|]. split.
    - unfold Marker.pulse. rewrite mapi_from_length, length_app.
      simpl List.length.
      replace (List.length (map Js.Fin front) + 1 - 1)%nat
        with (List.length (map Js.Fin front)) by lia.
      rewrite Hnth. unfold Js.or_else. simpl.
      assert (Qeq_bool x 0 = false) as ->.
      { destruct (Qeq_bool x 0) eqn:E0; auto.
        apply Qeq_bool_iff in E0. lra. }
      assert (Qeq_bool y 0 = false) as ->.
      { destruct (Qeq_bool y 0) eqn:E0; auto.
        apply Qeq_bool_iff in E0. lra. }
      reflexivity.
    - intros Hlen. apply Hlast; rewrite length_app; simpl; lia. }
  repeat split.
Qed.

(** The 200-high chart divides the index by [prices.length - 1]: for a
    series of one finite price its only point has x = NaN (0 / 0), and the
    pulse marker falls back to cx = 300; the 250-high chart, which divides
    by [Math.max(prices.length - 1, 1)], puts that point at x = 20. *)
Theorem chart_of_a_single_price (q : Q) :
  (exists y : Q,
      Chart.normalizedData200 (Some [Js.Fin q]) = [(Js.NaN, Js.Fin y)]
      /\ (y == 180)%Q
      /\ Marker.pulse (Chart.normalizedData200 (Some [Js.Fin q]))
         = (Js.Fin 300, Js.Fin y))
  /\ (exists x y : Q,
         Chart.normalizedData (Some [Js.Fin q]) = [(Js.Fin x, Js.Fin y)]
         /\ (x == 20)%Q /\ (y == 230)%Q
         /\ Marker.pulse (Chart.normalizedData (Some [Js.Fin q]))
            = (Js.Fin x, Js.Fin y)).
Proof.
  assert (Qeq_bool (q + - q) 0 = true) as E
    by (apply Qeq_bool_iff; ring).
  assert (forall H : Q,
             Chart.yOf (Js.Fin H) [Js.Fin q] (Js.Fin q)
             = Js.Fin (H + - (20) + - ((q + - q) / 1 * (H + - (2 * 20)))))
    as Hy.
  { intros H. unfold Chart.yOf, Chart.priceRange, Arr.max, Arr.min. simpl.
    unfold Js.or_else, Js.truthy. rewrite E. reflexivity. }
  assert (forall H : Q,
             (H + - (20) + - ((q + - q) / 1 * (H + - (2 * 20))) == H - 20)%Q)
    as Hval by (intros H; field).
  split.
  - eexists. unfold Chart.normalizedData200, Arr.mapi. simpl Arr.mapi_from.
    rewrite Hy. split; [reflexivity|]. split; [rewrite Hval; reflexivity|].
    unfold Marker.pulse. simpl nth_error. unfold Js.or_else. simpl Js.truthy.
    clear E Hy.
    destruct (Qeq_bool _ 0) eqn:E0; [|reflexivity].
    apply Qeq_bool_iff in E0. rewrite Hval in E0. discriminate E0.
  - eexists. eexists. unfold Chart.normalizedData, Arr.mapi.
    simpl Arr.mapi_from. rewrite Hy.
    split; [reflexivity|]. split; [reflexivity|].
    split; [rewrite Hval; reflexivity|].
    unfold Marker.pulse. simpl nth_error. unfold Js.or_else. simpl Js.truthy.
    clear E Hy.
    destruct (Qeq_bool _ 0) eqn:E0; [|reflexivity].
    apply Qeq_bool_iff in E0. rewrite Hval in E0. discriminate E0.
Qed.

(** ** The seeded price walk *)

Lemma seeded_random_in_range_aux (x : Z) :
  (0 <= x < 4294967296)%Z ->
  (0 <= Walk.next x < 4294967296)%Z
  /\ exists u : Q,
       snd (Walk.draw x) = Js.Fin u /\ (0 <= u)%Q /\ (u < 1)%Q.
Proof.
  intros Hx.
  assert (0 <= Walk.next x < 4294967296)%Z as Hn.
  { unfold Walk.next. apply Z.rem_bound_pos; lia. }
  split; [exact Hn|].
  exists (inject_Z (Walk.next x) / 4294967296)%Q. split; [reflexivity|].
  assert (0 <= inject_Z (Walk.next x))%Q as H0.
  { change 0%Q with (inject_Z 0). rewrite <- Zle_Qle. lia. }
  assert (inject_Z (Walk.next x) < 4294967296)%Q as H1.
  { change 4294967296%Q with (inject_Z 4294967296). rewrite <- Zlt_Qlt. lia. }
  split.
  - apply Qle_shift_div_l; [reflexivity|lra].
  - apply Qlt_shift_div_r; [reflexivity|lra].
Qed.

Lemma walk_move_aux (p u v : Q) :
  (0 < p)%Q -> (0 <= u)%Q -> (u < 1)%Q -> (0 < v)%Q -> (v < 1)%Q ->
  exists p' : Q,
    Walk.move (Js.VNum (Js.Fin p)) (Js.Fin u) (Js.Fin v) = Js.VNum (Js.Fin p')
    /\ (p * (1 - v) <= p')%Q /\ (p' < p * (1 + v))%Q /\ (0 < p')%Q.
Proof.
  intros Hp Hu0 Hu1 Hv0 Hv1. eexists. split; [reflexivity|].
  assert (0 < p * v)%Q as A0 by (apply Qmult_lt_0_compat; assumption).
  assert (0 < p * (1 - v))%Q as A1 by (apply Qmult_lt_0_compat; lra).
  assert (0 <= p * v * u)%Q as B0 by (apply Qmult_le_0_compat; lra).
  assert (0 < p * v * (1 - u))%Q as B1 by (apply Qmult_lt_0_compat; lra).
  assert (p * (1 + (u + - (1 # 2)) * v * 2) == p - p * v + 2 * (p * v * u))%Q
    as E by ring.
  assert (p * (1 - v) == p - p * v)%Q as E1 by ring.
  assert (p * (1 + v) == p + p * v)%Q as E2 by ring.
  assert (p * v * (1 - u) == p * v - p * v * u)%Q as E3 by ring.
  rewrite E, E1, E2. rewrite E1 in A1. rewrite E3 in B1.
  repeat split; lra.
Qed.

(** The generator stays within 32 bits and draws from [0, 1): from a state
    0 <= x < 2^32 the next state is again in that range, every intermediate
    value is an integer below 2^53 (so the double arithmetic of the source is
    exact), and the number returned is u with 0 <= u < 1. *)
Theorem seeded_random_stays_in_range (x : Z) :
  (0 <= x < 4294967296)%Z ->
  (0 <= Walk.next x < 4294967296)%Z
  /\ (0 <= x * 1664525 + 1013904223 < 2 ^ 53)%Z
  /\ fst (Walk.draw x) = Walk.next x
  /\ exists u : Q,
       snd (Walk.draw x) = Js.Fin u /\ (0 <= u)%Q /\ (u < 1)%Q.
Proof.
  intros Hx.
  destruct (seeded_random_in_range_aux x Hx) as [Hn Hu].
  split; [exact Hn|]. split; [lia|]. split; [reflexivity|exact Hu].
Qed.

Lemma seeded_random_stays_in_range_witness :
  (0 <= Walk.next 12345 < 4294967296)%Z
  /\ exists u : Q,
       snd (Walk.draw 12345) = Js.Fin u /\ (0 <= u)%Q /\ (u < 1)%Q.
Proof.
  destruct (seeded_random_stays_in_range 12345) as (H & _ & _ & Hu).
  - split; [discriminate|reflexivity].
  - split; [exact H|exact Hu].
Defined.

(** The walk never loses a price: after any number of interval callbacks
    from the seeded start, every generator state is within 32 bits and every
    market is quoted at a positive finite price, so the hook's
    [openPosition] always finds a price; and the next callback moves each
    price p to some p' with p * (1 - v) <= p' < p * (1 + v), v being the
    market's volatility. *)
Theorem walk_prices_stay_positive (n : nat) :
  let st := Walk.run n Walk.start in
  (forall m, (0 <= Walk.generators st m < 4294967296)%Z)
  /\ Shape.positive_quotes (Walk.prices st)
  /\ (forall m, Js.truthy_value (Walk.prices st m) = true)
  /\ (forall m, exists p p' v : Q,
         Walk.prices st m = Js.VNum (Js.Fin p)
         /\ Walk.volatility (Walk.priceConfig m) = Js.Fin v
         /\ Walk.prices (Walk.step st) m = Js.VNum (Js.Fin p')
         /\ (p * (1 - v) <= p')%Q /\ (p' < p * (1 + v))%Q).
Proof.
  assert (forall m, exists v : Q,
             Walk.volatility (Walk.priceConfig m) = Js.Fin v
             /\ (0 < v)%Q /\ (v < 1)%Q) as Hvol.
  { intros m. destruct m; eexists; (split; [reflexivity|split; reflexivity]). }
  assert (forall st m,
             (0 <= Walk.generators st m < 4294967296)%Z ->
             Shape.positive_quotes (Walk.prices st) ->
             exists p p' v : Q,
               Walk.prices st m = Js.VNum (Js.Fin p)
               /\ Walk.volatility (Walk.priceConfig m) = Js.Fin v
               /\ Walk.prices (Walk.step st) m = Js.VNum (Js.Fin p')
               /\ (p * (1 - v) <= p')%Q /\ (p' < p * (1 + v))%Q
               /\ (0 < p')%Q) as Hstep.
  { intros st m Hg Hp.
    destruct (seeded_random_in_range_aux (Walk.generators st m) Hg)
      as (_ & u & Hu & Hu0 & Hu1).
    destruct (Hp m) as (p & Hpm & Hp0).
    destruct (Hvol m) as (v & Hv & Hv0 & Hv1).
    destruct (walk_move_aux p u v Hp0 Hu0 Hu1 Hv0 Hv1)
      as (p' & E & Hlo & Hhi & Hp').
    exists p, p', v. unfold Walk.step. cbn [Walk.prices].
    rewrite Hpm, Hu, Hv. cbn [Walk.prices] in Hpm. auto 10. }
  assert (forall st,
             (forall m, (0 <= Walk.generators st m < 4294967296)%Z) ->
             Shape.positive_quotes (Walk.prices st) ->
             (forall m, (0 <= Walk.generators (Walk.run n st) m < 4294967296)%Z)
             /\ Shape.positive_quotes (Walk.prices (Walk.run n st))) as H.
  { induction n as [|n IH]; intros st Hg Hp; [split; assumption|].
    cbn [Walk.run]. apply IH.
    - intros m. unfold Walk.step. cbn [Walk.generators Walk.draw fst].
      destruct (seeded_random_in_range_aux (Walk.generators st m) (Hg m))
        as (Hn & _). exact Hn.
    - intros m.
      destruct (Hstep st m (Hg m) Hp) as (p & p' & v & _ & _ & E & _ & _ & Hp').
      exists p'. auto. }
  intros st. destruct (H Walk.start) as [Hg Hp].
  - intros m. destruct m; simpl; lia.
  - intros m. destruct m; eexists; (split; [reflexivity|reflexivity]).
  - split; [exact Hg|]. split; [exact Hp|]. split.
    + intros m. apply positive_quotes_truthy. exact Hp.
    + intros m.
      destruct (Hstep st m (Hg m) Hp) as (p & p' & v & A & B & C & D & E & _).
      exists p, p', v. auto.
Qed.

(** ** The ledger of hooks/useTradingEngine.js *)

Lemma hook_closePosition_found positionId st p l1 l2 :
  TradingEngine.positions st = (l1 ++ p :: l2)%list ->
  TradingEngine.Pos.id p = positionId ->
  ~ In positionId (map TradingEngine.Pos.id l1) ->
  ~ In positionId (map TradingEngine.Pos.id l2) ->
  HookBook.closePosition positionId st
  = TradingEngine.mkState
      (TradingEngine.balance st + TradingEngine.Pos.initialMargin p
       + TradingEngine.Pos.unrealizedPnL p
       - TradingEngine.Pos.size p * TradingEngine.TRADING_FEE_RATE)
      (TradingEngine.prices st) (l1 ++ l2)%list.
Proof.
  intros Hpos Hid H1 H2.
  assert (forall l, ~ In positionId (map TradingEngine.Pos.id l) ->
                    filter (fun q => negb (TradingEngine.Pos.id q =? positionId)%Z) l
                    = l) as Hkeep.
  { intros l Hl. apply forallb_filter_id. apply forallb_forall.
    intros q Hq. rewrite negb_true_iff. apply Z.eqb_neq. intros E.
    apply Hl. apply in_map_iff. eauto. }
  unfold HookBook.closePosition. rewrite Hpos.
  assert (find (fun q => TradingEngine.Pos.id q =? positionId)%Z
               (l1 ++ p :: l2)%list = Some p) as ->.
  { clear Hpos. induction l1 as [|q l1 IH]; simpl.
    - rewrite Hid, Z.eqb_refl. reflexivity.
    - simpl in H1. destruct (TradingEngine.Pos.id q =? positionId)%Z eqn:E.
      + apply Z.eqb_eq in E. tauto.
      + apply IH. tauto. }
  rewrite filter_app. simpl. rewrite Hid, Z.eqb_refl. simpl.
  rewrite !Hkeep; auto.
Qed.

Lemma round_trip_balance (b m f : Js.number) :
  Js.is_finite m ->
  b - (m + f) + m + Js.zero - f == b - Js.Fin 2 * f.
Proof. unfold Js.sub. js_cases; intros _; ring. Qed.

(** Opening a position through the hook and closing it before any tick
    costs exactly two fees: with a finite size and a finite non-zero
    leverage, and no older position carrying the new id, the book is back to
    what it was and the balance is lower by 2 * size * 0.0004. *)
Theorem hook_round_trip_costs_two_fees now clock o st st' (s L : Q) :
  TradingEngine.openPosition now clock o st = TradingEngine.Opened st' ->
  TradingEngine.positionSize o = Js.Fin s ->
  TradingEngine.orderLeverage o = Js.Fin L ->
  ~ (L == 0)%Q ->
  ~ In now (map TradingEngine.Pos.id (TradingEngine.positions st)) ->
  TradingEngine.positions (HookBook.closePosition now st')
  = TradingEngine.positions st
  /\ TradingEngine.balance (HookBook.closePosition now st')
     == TradingEngine.balance st - Js.Fin (2 * (s * (4 # 10000))).
Proof.
  intros Hopen Hs HL HL0 Hfresh.
  apply hook_openPosition_inv in Hopen. destruct Hopen as (e & -> & _).
  cbv zeta.
  match goal with
  | |- context [HookBook.closePosition now
                  (TradingEngine.mkState ?b ?q (_ ++ [?p])%list)] =>
      rewrite (hook_closePosition_found now
                 (TradingEngine.mkState b q (TradingEngine.positions st ++ [p]))
                 p (TradingEngine.positions st) []
                 eq_refl eq_refl Hfresh (fun H => H))
  end.
  cbn [TradingEngine.positions TradingEngine.balance].
  split; [apply app_nil_r|].
  unfold TradingEngine.newPosition.
  cbn [TradingEngine.Pos.initialMargin TradingEngine.Pos.unrealizedPnL
       TradingEngine.Pos.size].
  rewrite round_trip_balance.
  - rewrite Hs. reflexivity.
  - rewrite Hs, HL. simpl.
    destruct (Qeq_bool L 0) eqn:E; [apply Qeq_bool_iff in E; tauto|exact I].
Qed.

Lemma hook_round_trip_costs_two_fees_witness :
  let st' := Cases.hook_opened in
  TradingEngine.positions (HookBook.closePosition 1700000000000 st') = []
  /\ TradingEngine.balance (HookBook.closePosition 1700000000000 st')
     == Js.Fin (99996 # 100).
Proof.
  destruct (hook_round_trip_costs_two_fees 1700000000000 "10:00:00"
              Scenario.hook_order Scenario.hook_fresh Cases.hook_opened
              50 5) as [Hp Hb].
  - reflexivity.
  - reflexivity.
  - reflexivity.
  - vm_compute. discriminate.
  - simpl. tauto.
  - split; [exact Hp|]. rewrite Hb. vm_compute. reflexivity.
Defined.

Lemma hook_revalue_liquidated quotes p :
  TradingEngine.Pos.liquidated p = false ->
  TradingEngine.Pos.liquidated (fst (TradingEngine.revalue quotes p)) = true ->
  TradingEngine.revalue quotes p
  = (TradingEngine.Pos.withLiquidation p (- TradingEngine.Pos.size p), true).
Proof.
  intros Hp. unfold TradingEngine.revalue.
  destruct (Js.truthy_value (TradingEngine.Pos.takeProfit p) && _);
    [simpl; congruence|].
  destruct (Js.truthy_value (TradingEngine.Pos.stopLoss p) && _);
    [simpl; congruence|].
  destruct (_ <=? _); [reflexivity|simpl; congruence].
Qed.

Lemma liquidation_balance (b m f sz : Js.number) :
  Js.is_finite m ->
  (b - (m + f)) + (Js.zero + m + - sz) == b - (sz + f).
Proof. unfold Js.sub. js_cases; intros _; ring. Qed.

(** A position opened through the hook on an empty book and liquidated by a
    later price costs the account its whole size plus the opening fee, not
    the margin size / leverage that was set aside for it: the balance ends
    at the balance before the order minus size * 1.0004. *)
Theorem hook_liquidation_loses_the_whole_size now clock o st st' quotes
  (s L : Q) :
  TradingEngine.openPosition now clock o st = TradingEngine.Opened st' ->
  TradingEngine.positions st = [] ->
  TradingEngine.positionSize o = Js.Fin s ->
  TradingEngine.orderLeverage o = Js.Fin L ->
  ~ (L == 0)%Q ->
  Js.truthy_value (quotes BTC) = true ->
  forallb (fun p => TradingEngine.Pos.liquidated
                      (fst (TradingEngine.revalue quotes p)))
          (TradingEngine.positions st') = true ->
  let st'' := TradingEngine.updatePositions (HookBook.setPrices quotes st') in
  TradingEngine.positions st'' = []
  /\ TradingEngine.balance st''
     == TradingEngine.balance st - Js.Fin (s + s * (4 # 10000))
  /\ TradingEngine.balance st' == TradingEngine.balance st
                                  - Js.Fin (s / L + s * (4 # 10000)).
Proof.
  intros Hopen Hempty Hs HL HL0 Hbtc Hliq.
  apply hook_openPosition_inv in Hopen. destruct Hopen as (e & -> & _).
  cbv zeta in Hliq |- *.
  cbn [TradingEngine.positions] in Hliq. rewrite Hempty in Hliq |- *.
  cbn [app forallb] in Hliq. rewrite andb_true_r in Hliq.
  apply hook_revalue_liquidated in Hliq; [|reflexivity].
  assert (Js.Fin s / Js.Fin L = Js.Fin (s / L)) as Hdiv.
  { simpl. destruct (Qeq_bool L 0) eqn:E; [apply Qeq_bool_iff in E; tauto|].
    reflexivity. }
  unfold TradingEngine.updatePositions, HookBook.setPrices.
  cbn [TradingEngine.positions TradingEngine.prices TradingEngine.balance
       app List.length Nat.ltb Nat.leb andb map].
  rewrite Hbtc, Hliq.
  cbn [filter snd fst map List.length Nat.ltb Nat.leb
       TradingEngine.Pos.stillOpen TradingEngine.Pos.withLiquidation
       TradingEngine.Pos.liquidated negb andb TradingEngine.totalReturn
       fold_left TradingEngine.Pos.initialMargin
       TradingEngine.Pos.unrealizedPnL TradingEngine.newPosition
       TradingEngine.Pos.size].
  cbn [TradingEngine.positions TradingEngine.balance].
  split; [reflexivity|].
  rewrite Hs, HL, Hdiv.
  split; [|reflexivity].
  apply (liquidation_balance _ (Js.Fin (s / L))). exact I.
Qed.

(** The default order (long BTC at 95000, size 50 at 5x, margin 10) is
    liquidated at 93000 and leaves 949.98 of the 1000. *)
Lemma hook_liquidation_loses_the_whole_size_witness :
  let st'' :=
    TradingEngine.updatePositions
      (HookBook.setPrices (Scenario.quotes 93000 3500 140) Cases.hook_opened) in
  TradingEngine.positions st'' = []
  /\ TradingEngine.balance st'' == Js.Fin (94998 # 100)
  /\ TradingEngine.balance Cases.hook_opened == Js.Fin (98998 # 100).
Proof.
  destruct (hook_liquidation_loses_the_whole_size 1700000000000 "10:00:00"
              Scenario.hook_order Scenario.hook_fresh Cases.hook_opened
              (Scenario.quotes 93000 3500 140) 50 5) as (Hp & Hb & Hb').
  - reflexivity.
  - reflexivity.
  - reflexivity.
  - reflexivity.
  - vm_compute. discriminate.
  - reflexivity.
  - vm_compute. reflexivity.
  - split; [exact Hp|]. split.
    + rewrite Hb. vm_compute. reflexivity.
    + rewrite Hb'. vm_compute. reflexivity.
Defined.

Lemma Qle_scaled (k x : Q) : (0 < k)%Q -> (k * x <= 0)%Q <-> (x <= 0)%Q.
Proof.
  intros Hk. split; intros H.
  - destruct (Qlt_le_dec 0 x) as [Hx|Hx]; [|exact Hx].
    pose proof (Qmult_lt_0_compat k x Hk Hx). lra.
  - assert (0 <= k * - x)%Q as H0 by (apply Qmult_le_0_compat; lra).
    assert (k * - x == - (k * x))%Q as E by ring.
    rewrite E in H0. lra.
Qed.

(** Where the hook liquidates.  For a position without working triggers,
    entered at e > 0 with size s > 0 and leverage L > 0: the
    [liquidationPrice] stored with it is e / (2 L) away from the entry, where
    its pnl is -s / 2; the tick liquidates at a pnl of -s / (2 L) (the margin
    less the maintenance margin), which the pnl reaches at e / (2 L^2) from
    the entry; at any price e / L^2 or further against the position the tick
    liquidates it and settles -size.  For L > 2 that price is still short of
    the stored liquidation price, so the position is gone before the price
    gets there. *)
Theorem hook_liquidates_before_its_liquidation_price now clock o quotes
  (e s L c : Q) :
  (0 < e)%Q -> (0 < s)%Q -> (0 < L)%Q ->
  TradingEngine.positionSize o = Js.Fin s ->
  Js.truthy_value (trigger_of (Adv.takeProfit (TradingEngine.advancedSettings o)))
  = false ->
  Js.truthy_value (trigger_of (Adv.stopLoss (TradingEngine.advancedSettings o)))
  = false ->
  quotes (TradingEngine.selectedMarket o) = Js.VNum (Js.Fin c) ->
  let p := TradingEngine.newPosition now clock o (Js.Fin e) (Js.Fin L)
             (Js.Fin s / Js.Fin L) in
  let away (d : Q) : Q :=
    match TradingEngine.direction o with
    | LONG => e * (1 - d)
    | SHORT => e * (1 + d)
    end%Q in
  let reached (level : Q) : Prop :=
    match TradingEngine.direction o with
    | LONG => (c <= level)%Q
    | SHORT => (level <= c)%Q
    end in
  TradingEngine.Pos.liquidationPrice p == Js.Fin (away (1 / (2 * L))%Q)
  /\ TradingEngine.Pos.initialMargin p - TradingEngine.Pos.maintenanceMargin p
     == Js.Fin (s / (2 * L))
  /\ TradingEngine.pnlAt (Js.VNum (Js.Fin (away (1 / (2 * L * L))%Q))) p
     == Js.Fin (- (s / (2 * L)))
  /\ TradingEngine.pnlAt (Js.VNum (Js.Fin (away (1 / (2 * L))%Q))) p
     == Js.Fin (- (s / 2))
  /\ (reached (away (1 / (L * L))%Q) ->
      TradingEngine.revalue quotes p
      = (TradingEngine.Pos.withLiquidation p (Js.Fin (- s)), true))
  /\ ((2 < L)%Q ->
      match TradingEngine.direction o with
      | LONG => (away (1 / (2 * L)) < away (1 / (L * L)))%Q
                /\ (away (1 / (L * L)) < e)%Q
      | SHORT => (e < away (1 / (L * L)))%Q
                 /\ (away (1 / (L * L)) < away (1 / (2 * L)))%Q
      end).
Proof.
  intros He Hs0 HL Hs Htp Hsl Hc p away reached.
  assert (Qeq_bool L 0 = false) as EL.
  { destruct (Qeq_bool L 0) eqn:E; [apply Qeq_bool_iff in E; lra|reflexivity]. }
  assert (Qeq_bool e 0 = false) as Ee.
  { destruct (Qeq_bool e 0) eqn:E; [apply Qeq_bool_iff in E; lra|reflexivity]. }
  assert (~ (L == 0)%Q) as HL0 by lra.
  assert (~ (e == 0)%Q) as He0 by lra.
  assert (0 < s * L / e)%Q as Hk.
  { apply Qlt_shift_div_l; [exact He|]. rewrite Qmult_0_l.
    apply Qmult_lt_0_compat; assumption. }
  assert (0 < e / (2 * L * L))%Q as Hgap.
  { apply Qlt_shift_div_l; [|lra].
    assert (0 < L * L)%Q by (apply Qmult_lt_0_compat; assumption). lra. }
  assert (forall x : Q,
             TradingEngine.pnlAt (Js.VNum (Js.Fin x)) p
             == Js.Fin ((x - e) / e * s * L
                        * match TradingEngine.direction o with
                          | LONG => 1
                          | SHORT => -1
                          end)%Q) as Hpnl.
  { intros x. unfold TradingEngine.pnlAt, multiplier, p,
      TradingEngine.newPosition.
    cbn [TradingEngine.Pos.entryPrice TradingEngine.Pos.direction
         TradingEngine.Pos.size TradingEngine.Pos.leverage Js.toNumber].
    rewrite Hs.
    destruct (TradingEngine.direction o); simpl; rewrite Ee; simpl;
      unfold Qminus; reflexivity. }
  assert (exists a b : Q,
             TradingEngine.revalue quotes p
             = (if Qle_bool a b
                then (TradingEngine.Pos.withLiquidation p (Js.Fin (- s)), true)
                else (TradingEngine.Pos.withPnL p (Js.Fin a), false))
             /\ (a - b
                 == s * L / e
                    * match TradingEngine.direction o with
                      | LONG => c - e * (1 - 1 / (2 * L * L))
                      | SHORT => e * (1 + 1 / (2 * L * L)) - c
                      end)%Q) as (a & b & Hrev & Hab).
  { unfold TradingEngine.revalue, p, TradingEngine.newPosition.
    cbn [TradingEngine.Pos.takeProfit TradingEngine.Pos.stopLoss
         TradingEngine.Pos.market TradingEngine.Pos.initialMargin
         TradingEngine.Pos.maintenanceMargin TradingEngine.Pos.size].
    rewrite Htp, Hsl, Hc, Hs. cbn [andb].
    unfold TradingEngine.pnlAt, multiplier.
    cbn [TradingEngine.Pos.entryPrice TradingEngine.Pos.direction
         TradingEngine.Pos.size TradingEngine.Pos.leverage Js.toNumber].
    rewrite ?Hs.
    destruct (TradingEngine.direction o); simpl; rewrite EL, Ee; simpl;
      eexists; eexists; (split; [reflexivity|]); field; auto. }
  split; [|split; [|split; [|split; [|split]]]].
  - unfold p, away, TradingEngine.newPosition.
    cbn [TradingEngine.Pos.liquidationPrice].
    destruct (TradingEngine.direction o); simpl; rewrite EL; simpl;
      field; auto.
  - unfold p, TradingEngine.newPosition.
    cbn [TradingEngine.Pos.initialMargin TradingEngine.Pos.maintenanceMargin].
    simpl. rewrite EL. simpl. field; auto.
  - rewrite Hpnl. unfold away.
    destruct (TradingEngine.direction o); simpl; field; auto.
  - rewrite Hpnl. unfold away.
    destruct (TradingEngine.direction o); simpl; field; auto.
  - intros Hreached. rewrite Hrev.
    assert (Qle_bool a b = true) as ->; [|reflexivity].
    apply Qle_bool_iff.
    assert ((a <= b)%Q <-> (a - b <= 0)%Q) as -> by (split; intros; lra).
    rewrite Hab, (Qle_scaled _ _ Hk).
    assert (e * (1 - 1 / (L * L)) == e - 2 * (e / (2 * L * L)))%Q as E1
      by (field; auto).
    assert (e * (1 + 1 / (L * L)) == e + 2 * (e / (2 * L * L)))%Q as E2
      by (field; auto).
    assert (e * (1 - 1 / (2 * L * L)) == e - e / (2 * L * L))%Q as E3
      by (field; auto).
    assert (e * (1 + 1 / (2 * L * L)) == e + e / (2 * L * L))%Q as E4
      by (field; auto).
    unfold reached, away in Hreached.
    destruct (TradingEngine.direction o); lra.
  - intros HL2. unfold away.
    assert (0 < e / (2 * L))%Q as Hstored
      by (apply Qlt_shift_div_l; lra).
    assert (e / (L * L) < e / (2 * L))%Q as Hlt.
    { assert (0 < L * L)%Q by (apply Qmult_lt_0_compat; assumption).
      apply Qlt_shift_div_r; [assumption|].
      assert (e / (2 * L) * (L * L) == e * (L * (1 # 2)))%Q as ->
        by (field; auto).
      assert (0 < e * (L * (1 # 2) - 1))%Q as Hprod
        by (apply Qmult_lt_0_compat; [assumption|lra]).
      assert (e * (L * (1 # 2) - 1) == e * (L * (1 # 2)) - e)%Q as Eprod
        by ring.
      rewrite Eprod in Hprod. lra. }
    assert (0 < e / (L * L))%Q as Hpos.
    { assert (0 < L * L)%Q by (apply Qmult_lt_0_compat; assumption).
      apply Qlt_shift_div_l; lra. }
    assert (e * (1 - 1 / (L * L)) == e - e / (L * L))%Q as E1 by (field; auto).
    assert (e * (1 + 1 / (L * L)) == e + e / (L * L))%Q as E2 by (field; auto).
    assert (e * (1 - 1 / (2 * L)) == e - e / (2 * L))%Q as E3 by (field; auto).
    assert (e * (1 + 1 / (2 * L)) == e + e / (2 * L))%Q as E4 by (field; auto).
    destruct (TradingEngine.direction o); split; lra.
Qed.

(** The default long (entry 95000, size 50, 5x) stores the liquidation price
    85500; its pnl reaches the liquidation level -5 at 93100, and at 91000
    the tick has liquidated it. *)
Lemma hook_liquidates_before_its_liquidation_price_witness :
  TradingEngine.revalue (Scenario.quotes 91000 3500 140) Scenario.hook_long_btc
  = (TradingEngine.Pos.withLiquidation Scenario.hook_long_btc (Js.Fin (- (50))),
     true)
  /\ TradingEngine.Pos.liquidationPrice Scenario.hook_long_btc == Js.Fin 85500
  /\ TradingEngine.pnlAt (Js.VNum (Js.Fin 93100)) Scenario.hook_long_btc
     == Js.Fin (- (5)).
Proof.
  destruct (hook_liquidates_before_its_liquidation_price
              1700000000000 "10:00:00" Scenario.hook_order
              (Scenario.quotes 91000 3500 140) 95000 50 5 91000)
    as (Hliq & _ & _ & _ & Hrev & _); try reflexivity.
  split; [|split].
  - apply Hrev. vm_compute. discriminate.
  - etransitivity; [exact Hliq|]. vm_compute. reflexivity.
  - vm_compute. reflexivity.
Defined.

(** ** Funding *)

Lemma funding_sum (book : list TradingEngine.position) :
  Forall (fun p => Js.is_finite (TradingEngine.Pos.size p)) book ->
  exists long short cost : Q,
    HookBook.sizeOf LONG book = Js.Fin long
    /\ HookBook.sizeOf SHORT book = Js.Fin short
    /\ fold_right
         (fun p acc =>
            TradingEngine.Pos.size p * HookBook.FUNDING_RATE
            * multiplier (TradingEngine.Pos.direction p) + acc)
         Js.zero book = Js.Fin cost
    /\ (cost == (1 # 10000) * (long - short))%Q.
Proof.
  induction 1 as [|p book Hp _ (long & short & cost & Hl & Hs & Hc & E)].
  - exists 0%Q, 0%Q, 0%Q. repeat split; reflexivity.
  - cbn [HookBook.sizeOf fold_right]. fold (HookBook.sizeOf LONG book).
    fold (HookBook.sizeOf SHORT book). rewrite Hl, Hs, Hc.
    destruct (TradingEngine.Pos.size p) as [s| | |]; try contradiction.
    destruct (TradingEngine.Pos.direction p); simpl;
      eexists; eexists; eexists;
      (split; [reflexivity|split; [reflexivity|split; [reflexivity|]]]);
      rewrite E; ring.
Qed.

(** One funding period charges the account 0.01% of the net long size: with
    finite sizes the balance goes down by
    0.0001 * (summed size of the longs - summed size of the shorts), so a
    book of shorts is paid, a book with as much long as short size pays
    nothing, and an empty book is left alone. *)
Theorem funding_charges_the_net_long_size st :
  Forall (fun p => Js.is_finite (TradingEngine.Pos.size p))
         (TradingEngine.positions st) ->
  TradingEngine.positions (HookBook.applyFunding st)
  = TradingEngine.positions st
  /\ TradingEngine.balance (HookBook.applyFunding st)
     == TradingEngine.balance st
        - HookBook.FUNDING_RATE
          * (HookBook.sizeOf LONG (TradingEngine.positions st)
             - HookBook.sizeOf SHORT (TradingEngine.positions st)).
Proof.
  intros Hfin. destruct (funding_sum _ Hfin) as (l & sh & c & Hl & Hs & Hc & E).
  rewrite Hl, Hs. unfold HookBook.applyFunding.
  destruct (TradingEngine.positions st) as [|p book] eqn:Hbook.
  - simpl. split; [exact Hbook|].
    simpl in Hl, Hs. injection Hl as <-. injection Hs as <-.
    destruct (TradingEngine.balance st); simpl; try exact I. ring.
  - cbn [List.length Nat.ltb Nat.leb TradingEngine.positions
         TradingEngine.balance].
    split; [reflexivity|].
    unfold HookBook.totalFundingCost.
    rewrite (fold_left_add _
               (fun pos => TradingEngine.Pos.size pos * HookBook.FUNDING_RATE
                           * multiplier (TradingEngine.Pos.direction pos))).
    rewrite Hc.
    destruct (TradingEngine.balance st); simpl; try exact I.
    rewrite E. ring.
Qed.

Lemma funding_charges_the_net_long_size_witness :
  TradingEngine.balance (HookBook.applyFunding Cases.hook_opened)
  == Js.Fin (989975 # 1000).
Proof.
  destruct (funding_charges_the_net_long_size Cases.hook_opened) as [_ H].
  - repeat constructor.
  - rewrite H. vm_compute. reflexivity.
Defined.

(** ** Closing through the hook *)

Lemma hook_credit_sum (book : list TradingEngine.position) :
  fold_right (fun p acc => TradingEngine.Pos.initialMargin p + acc) Js.zero book
  + fold_right (fun p acc => TradingEngine.Pos.unrealizedPnL p + acc) Js.zero book
  - fold_right
      (fun p acc =>
         TradingEngine.Pos.size p * TradingEngine.TRADING_FEE_RATE + acc)
      Js.zero book
  == fold_right (fun p acc => HookBook.credit p + acc) Js.zero book.
Proof.
  induction book as [|p book IH]; [vm_compute; reflexivity|].
  cbn [fold_right]. rewrite <- IH. unfold HookBook.credit, Js.sub.
  generalize (TradingEngine.Pos.initialMargin p)
             (TradingEngine.Pos.unrealizedPnL p)
             (TradingEngine.Pos.size p * TradingEngine.TRADING_FEE_RATE)
             (fold_right (fun p acc => TradingEngine.Pos.initialMargin p + acc)
                         Js.zero book)
             (fold_right (fun p acc => TradingEngine.Pos.unrealizedPnL p + acc)
                         Js.zero book)
             (fold_right
                (fun p acc =>
                   TradingEngine.Pos.size p * TradingEngine.TRADING_FEE_RATE + acc)
                Js.zero book).
  intros m u f M U F. js_cases; ring.
Qed.

Lemma hook_closeAll_balance st :
  TradingEngine.balance (HookBook.closeAllPositions st)
  == TradingEngine.balance st
     + fold_right (fun p acc => HookBook.credit p + acc) Js.zero
                  (TradingEngine.positions st).
Proof.
  unfold HookBook.closeAllPositions. cbn [TradingEngine.balance].
  rewrite (fold_left_add _ TradingEngine.Pos.unrealizedPnL).
  rewrite (fold_left_add _ TradingEngine.Pos.initialMargin).
  rewrite (fold_left_add _
             (fun pos => TradingEngine.Pos.size pos
                         * TradingEngine.TRADING_FEE_RATE)).
  rewrite !add_zero_l, <- hook_credit_sum. unfold Js.sub.
  rewrite <- !add_assoc. reflexivity.
Qed.

(** The hook's [closeAllPositions] charges the close fee of every position:
    it leaves the book empty and the old balance plus, per position,
    margin + pnl - size * 0.0004, which is what [closePosition] credits for
    one position. *)
Theorem hook_closeAll_charges_every_close_fee st :
  TradingEngine.positions (HookBook.closeAllPositions st) = []
  /\ TradingEngine.prices (HookBook.closeAllPositions st)
     = TradingEngine.prices st
  /\ TradingEngine.balance (HookBook.closeAllPositions st)
     == TradingEngine.balance st
        + fold_right (fun p acc => HookBook.credit p + acc) Js.zero
                     (TradingEngine.positions st)
  /\ (forall p rest,
         TradingEngine.positions st = p :: rest ->
         ~ In (TradingEngine.Pos.id p) (map TradingEngine.Pos.id rest) ->
         TradingEngine.positions
           (HookBook.closePosition (TradingEngine.Pos.id p) st) = rest
         /\ TradingEngine.balance
              (HookBook.closePosition (TradingEngine.Pos.id p) st)
            == TradingEngine.balance st + HookBook.credit p).
Proof.
  split; [reflexivity|]. split; [reflexivity|].
  split; [apply hook_closeAll_balance|].
  intros p rest Hbook Hnot.
  rewrite (hook_closePosition_found (TradingEngine.Pos.id p) st p [] rest
             Hbook eq_refl (fun H => H) Hnot).
  split; [reflexivity|].
  cbn [TradingEngine.balance]. unfold HookBook.credit, Js.sub.
  rewrite <- !add_assoc. reflexivity.
Qed.

Lemma hook_closeAll_charges_every_close_fee_witness :
  TradingEngine.positions (HookBook.closeAllPositions Cases.hook_opened) = []
  /\ TradingEngine.balance (HookBook.closeAllPositions Cases.hook_opened)
     == Js.Fin (99996 # 100)
  /\ TradingEngine.balance
       (HookBook.closePosition 1700000000000 Cases.hook_opened)
     == Js.Fin (99996 # 100).
Proof.
  destruct (hook_closeAll_charges_every_close_fee Cases.hook_opened)
    as (Hp & _ & Hb & Hone).
  destruct (Hone Scenario.hook_long_btc [] eq_refl (fun H => H)) as [_ Hc].
  split; [exact Hp|]. split.
  - rewrite Hb. vm_compute. reflexivity.
  - change (TradingEngine.Pos.id Scenario.hook_long_btc)
      with 1700000000000%Z in Hc.
    rewrite Hc. vm_compute. reflexivity.
Defined.

(** ** The mark-to-close revision *)

Lemma mark_to_close_inv env st st' :
  MarkToClose.openPosition env st = App.Opened st' ->
  exists e,
    st' = App.setPositions
            (fun prev =>
               (prev ++ [App.newPosition env st e
                           (MarkToClose.orderLeverage st)])%list) st
    /\ Js.truthy_value (prices env (App.selectedMarket st)) = true
    /\ (App.balance st <? App.positionSize st / MarkToClose.orderLeverage st)
       = false.
Proof.
  unfold MarkToClose.openPosition.
  destruct (Js.truthy_value (prices env (App.selectedMarket st))) eqn:Hp;
    simpl; [|discriminate].
  destruct (App.balance st <? App.positionSize st / MarkToClose.orderLeverage st)
    eqn:Hb; [discriminate|].
  destruct (is_limit _ && Parse.nonempty _) eqn:Hl; intros H; inversion H;
    eexists; repeat split; reflexivity.
Qed.

Lemma mark_to_close_leverage st :
  (Js.zero <? MarkToClose.orderLeverage st) = true.
Proof.
  unfold MarkToClose.orderLeverage.
  destruct (Js.truthy_value _ && Js.gt _ Js.zero) eqn:E.
  - apply andb_true_iff in E. exact (proj2 E).
  - destruct (App.riskMode st); reflexivity.
Qed.

Lemma margin_after_open (b used r : Js.number) :
  b - (used + r) == b - used - r.
Proof. unfold Js.sub. js_cases; ring. Qed.

(** In the mark-to-close revision an accepted order reserves nothing and is
    always leveraged upwards: the balance is untouched, the new position
    carries a leverage above zero (a custom leverage of zero, below zero or
    NaN falls back to the risk mode) and the order's size as margin, the
    margin shown as available goes down by that size, and the same order is
    accepted again right away, since the check reads the balance and not the
    margin already in use. *)
Theorem mark_to_close_open_reserves_nothing env st st' :
  MarkToClose.openPosition env st = App.Opened st' ->
  exists p,
    App.positions st' = (App.positions st ++ [p])%list
    /\ App.balance st' = App.balance st
    /\ (Js.zero <? App.Pos.leverage p) = true
    /\ App.Pos.initialMargin p = App.positionSize st
    /\ MarkToClose.availableMargin st'
       == MarkToClose.availableMargin st - App.positionSize st
    /\ exists st'', MarkToClose.openPosition env st' = App.Opened st''.
Proof.
  intros Hopen. pose proof Hopen as Hagain.
  apply mark_to_close_inv in Hopen. destruct Hopen as (e & -> & Hp & Hb).
  eexists. split; [reflexivity|]. split; [reflexivity|].
  split; [apply mark_to_close_leverage|]. split; [reflexivity|]. split.
  - unfold MarkToClose.availableMargin, MarkToClose.totalMarginUsed.
    cbn [App.setPositions App.positions App.balance].
    rewrite fold_left_app. cbn [fold_left App.newPosition App.Pos.initialMargin].
    apply margin_after_open.
  - unfold MarkToClose.openPosition in Hagain |- *.
    cbn [App.setPositions App.selectedMarket App.balance App.positionSize
         App.advancedSettings].
    change (MarkToClose.orderLeverage (App.setPositions _ st))
      with (MarkToClose.orderLeverage st).
    rewrite Hp, Hb in Hagain |- *. cbn [negb] in Hagain |- *.
    destruct (is_limit _ && Parse.nonempty _); eexists; reflexivity.
Qed.

Lemma sum_filter {A : Type} (f : A -> Js.number) (keep : A -> bool)
  (l : list A) :
  fold_right (fun x acc => f x + acc) Js.zero l
  == fold_right (fun x acc => f x + acc) Js.zero (filter keep l)
     + fold_right (fun x acc => f x + acc) Js.zero
                  (filter (fun x => negb (keep x)) l).
Proof.
  induction l as [|x l IH]; [vm_compute; reflexivity|].
  cbn [filter fold_right]. rewrite IH.
  destruct (keep x); cbn [negb fold_right].
  - apply add_assoc.
  - apply add_swap.
Qed.

Lemma mark_to_close_totalReturn (closed : list App.position) :
  MarkToClose.totalReturn closed
  == fold_right (fun p acc => App.Pos.unrealizedPnL p + acc) Js.zero closed.
Proof.
  unfold MarkToClose.totalReturn.
  assert (forall a,
             fold_left
               (fun sum p =>
                  if App.Pos.liquidated p
                  then sum + App.Pos.unrealizedPnL p
                  else sum + App.Pos.unrealizedPnL p)
               closed a
             == a + fold_right (fun p acc => App.Pos.unrealizedPnL p + acc)
                               Js.zero closed) as H.
  { induction closed as [|p closed IH]; intros a; cbn [fold_left fold_right].
    - symmetry. apply add_zero_r.
    - rewrite IH. destruct (App.Pos.liquidated p); symmetry; apply add_assoc. }
  rewrite H. apply add_zero_l.
Qed.

Lemma mark_to_close_tick prices st :
  (0 <? List.length (App.positions st))%nat && Js.truthy_value (prices BTC)
  = true ->
  App.positions (MarkToClose.updatePositions prices st)
  = filter App.Pos.stillOpen (View.revalued prices (App.positions st))
  /\ App.balance (MarkToClose.updatePositions prices st)
     == App.balance st
        + fold_right (fun p acc => App.Pos.unrealizedPnL p + acc) Js.zero
            (App.closedPositions prices (App.positions st)).
Proof.
  intros Hguard. unfold MarkToClose.updatePositions. rewrite Hguard.
  destruct (App.closedPositions prices (App.positions st)) as [|c closed] eqn:E.
  - split; [reflexivity|]. simpl. symmetry. apply add_zero_r.
  - cbn [List.length Nat.ltb Nat.leb]. split; [reflexivity|].
    cbn [App.setPositions App.setBalance App.balance].
    rewrite mark_to_close_totalReturn. reflexivity.
Qed.

(** A tick of the mark-to-close revision moves no money that the header did
    not show already: on a book of open positions the balance shown in the
    header (balance plus unrealised pnl) is, after the tick, the old balance
    plus the pnl of every position at the new prices, closed or not; the
    positions left are those the margin-reserving revision leaves. *)
Theorem mark_to_close_tick_keeps_live_balance prices st :
  Forall (fun p => App.Pos.stillOpen p = true) (App.positions st) ->
  App.positions st <> [] ->
  Js.truthy_value (prices BTC) = true ->
  View.liveBalance (MarkToClose.updatePositions prices st)
  == App.balance st
     + View.totalUnrealizedPnL (View.revalued prices (App.positions st))
  /\ App.positions (MarkToClose.updatePositions prices st)
     = App.positions (App.updatePositions prices st).
Proof.
  intros Hopen Hne Hbtc.
  assert ((0 <? List.length (App.positions st))%nat
          && Js.truthy_value (prices BTC) = true) as Hguard.
  { rewrite Hbtc. destruct (App.positions st); [contradiction|reflexivity]. }
  destruct (mark_to_close_tick prices st Hguard) as [Hpos Hbal].
  split.
  - unfold View.liveBalance. rewrite Hpos, Hbal, !totalUnrealizedPnL_sum.
    rewrite (revalued_closed prices _ Hopen).
    rewrite (sum_filter App.Pos.unrealizedPnL App.Pos.stillOpen
               (View.revalued prices (App.positions st))).
    apply add_regroup.
  - rewrite Hpos. unfold App.updatePositions. rewrite Hguard.
    destruct (0 <? _)%nat; reflexivity.
Qed.

Lemma sum_finite {A : Type} (f : A -> Js.number) (l : list A) :
  Forall (fun x => Js.is_finite (f x)) l ->
  exists q : Q, fold_right (fun x acc => f x + acc) Js.zero l = Js.Fin q.
Proof.
  induction 1 as [|x l Hx _ [q IH]]; [exists 0%Q; reflexivity|].
  cbn [fold_right]. rewrite IH.
  destruct (f x) as [a| | |]; try contradiction. eexists. reflexivity.
Qed.

Lemma revalued_margins prices (book : list App.position) :
  map App.Pos.initialMargin (View.revalued prices book)
  = map App.Pos.initialMargin book.
Proof.
  unfold View.revalued. induction book as [|p book IH]; [reflexivity|].
  cbn [map]. rewrite IH. f_equal.
  exact (proj1 (proj2 (proj2 (proj2 (proj2 (revalue_fields prices p)))))).
Qed.

Lemma sum_of_map {A : Type} (f : A -> Js.number) (l : list A) :
  fold_right (fun x acc => f x + acc) Js.zero l
  = fold_right Js.add Js.zero (map f l).
Proof. induction l as [|x l IH]; [reflexivity|]. simpl. rewrite IH. reflexivity. Qed.

Lemma freed_margin_step (b pnl : Js.number) (mo mc : Q) :
  b + pnl - Js.Fin mo
  == b - (Js.Fin mo + Js.Fin mc) + (Js.Fin mc + pnl).
Proof. unfold Js.sub. destruct b, pnl; simpl; try exact I. ring. Qed.

(** In the mark-to-close revision a closure frees the margin of the closed
    position: on a book of open positions with finite margins, the margin
    shown as available after a tick is the margin available before it plus
    margin and settled pnl of every position the tick closes (nothing when
    the book is empty or the BTC price is missing). *)
Theorem mark_to_close_tick_frees_the_margin_of_closed prices st :
  Forall (fun p => App.Pos.stillOpen p = true) (App.positions st) ->
  Forall (fun p => Js.is_finite (App.Pos.initialMargin p)) (App.positions st) ->
  MarkToClose.availableMargin (MarkToClose.updatePositions prices st)
  == MarkToClose.availableMargin st
     + App.bookTotal (Ledger.settled (Ledger.Tick prices) st).
Proof.
  intros Hopen Hfin. cbn [Ledger.settled].
  destruct ((0 <? List.length (App.positions st))%nat
            && Js.truthy_value (prices BTC)) eqn:Hguard.
  - destruct (mark_to_close_tick prices st Hguard) as [Hpos2 Hbal2].
    unfold MarkToClose.availableMargin, MarkToClose.totalMarginUsed.
    rewrite Hbal2, Hpos2.
    rewrite !(fold_left_add _ App.Pos.initialMargin), !add_zero_l.
    rewrite (revalued_closed prices _ Hopen).
    set (R := View.revalued prices (App.positions st)) in *.
    assert (Forall (fun p => Js.is_finite (App.Pos.initialMargin p)) R) as HfinR.
    { apply Forall_forall. intros p Hp.
      apply (in_map App.Pos.initialMargin) in Hp. unfold R in Hp.
      rewrite revalued_margins in Hp. apply in_map_iff in Hp.
      destruct Hp as (p0 & <- & Hp0).
      exact (proj1 (Forall_forall _ _) Hfin p0 Hp0). }
    destruct (sum_finite App.Pos.initialMargin (filter App.Pos.stillOpen R))
      as [mo Hmo].
    { apply Forall_forall. intros p Hp. apply filter_In in Hp.
      exact (proj1 (Forall_forall _ _) HfinR p (proj1 Hp)). }
    destruct (sum_finite App.Pos.initialMargin
                (filter (fun p => negb (App.Pos.stillOpen p)) R)) as [mc Hmc].
    { apply Forall_forall. intros p Hp. apply filter_In in Hp.
      exact (proj1 (Forall_forall _ _) HfinR p (proj1 Hp)). }
    assert (fold_right (fun p acc => App.Pos.initialMargin p + acc) Js.zero
                       (App.positions st)
            == Js.Fin mo + Js.Fin mc) as Hall.
    { rewrite (sum_of_map App.Pos.initialMargin (App.positions st)).
      rewrite <- (revalued_margins prices).
      rewrite <- (sum_of_map App.Pos.initialMargin). fold R.
      rewrite (sum_filter App.Pos.initialMargin App.Pos.stillOpen R).
      rewrite Hmo, Hmc. reflexivity. }
    rewrite Hall, Hmo, bookTotal_split, Hmc.
    apply freed_margin_step.
  - unfold MarkToClose.updatePositions. rewrite Hguard.
    cbn [App.bookTotal fold_right]. symmetry. apply add_zero_r.
Qed.

(** ** The properties at concrete accounts *)

(** Closing one of two positions that share an id removes both and credits
    one: the account is short of the other's margin, 50. *)
Lemma close_keeps_account_value_witness :
  View.accountValue Cases.twins
  == View.accountValue (App.closePosition 1700000000000 Cases.twins)
     + Js.Fin 50
  /\ View.accountValue
       (App.closePosition 1700000000000
          (App.afterOpen Scenario.env0 Scenario.fresh))
     == Js.Fin 1000.
Proof.
  split.
  - destruct (close_keeps_account_value 1700000000000 Cases.twins) as [H _].
    etransitivity; [exact H|]. vm_compute. reflexivity.
  - destruct (close_keeps_account_value 1700000000000
                (App.afterOpen Scenario.env0 Scenario.fresh)) as [_ H].
    etransitivity; [apply H; vm_compute; lia|]. vm_compute. reflexivity.
Defined.

Lemma tick_settles_at_revalued_worth_witness :
  View.accountValue
    (App.updatePositions (Scenario.quotes 76000 3500 140)
       (App.afterOpen Scenario.env0 Scenario.fresh))
  == Js.Fin 950.
Proof.
  destruct (tick_settles_at_revalued_worth (Scenario.quotes 76000 3500 140)
              (App.afterOpen Scenario.env0 Scenario.fresh)) as [H _].
  - repeat constructor.
  - etransitivity; [apply H; [discriminate|reflexivity]|].
    vm_compute. reflexivity.
Defined.

Lemma tick_twice_is_tick_once_witness :
  App.updatePositions (Scenario.quotes 94000 3500 140)
    (App.updatePositions (Scenario.quotes 94000 3500 140)
       (App.afterOpen Scenario.env0 Scenario.fresh))
  = App.updatePositions (Scenario.quotes 94000 3500 140)
      (App.afterOpen Scenario.env0 Scenario.fresh).
Proof.
  apply (tick_twice_is_tick_once (Scenario.quotes 94000 3500 140)
           (App.afterOpen Scenario.env0 Scenario.fresh)).
  repeat constructor.
Defined.

Lemma zero_leverage_is_always_rejected_witness :
  App.openPosition Scenario.env0 Cases.zero_leverage
  = App.Rejected InsufficientBalance.
Proof.
  exact (proj1 (proj2 (zero_leverage_is_always_rejected
                         Scenario.env0 Cases.zero_leverage 0 50 1000
                         eq_refl eq_refl eq_refl eq_refl eq_refl eq_refl
                         eq_refl eq_refl eq_refl))).
Defined.

Lemma negative_leverage_is_accepted_witness :
  exists st' p,
    App.openPosition Scenario.env0 Cases.negative_leverage = App.Opened st'
    /\ App.positions st' = [p]
    /\ App.Pos.size p = Js.Fin (50 * - (5)).
Proof.
  assert (0 <= 1000)%Q as Hb by (vm_compute; discriminate).
  destruct (negative_leverage_is_accepted Scenario.env0 Cases.negative_leverage
              (- (5)) 50 1000 eq_refl eq_refl eq_refl eq_refl eq_refl eq_refl
              Hb) as (st' & p & Ho & Hp & _ & Hs & _).
  exists st', p. split; [exact Ho|]. split; [exact Hp|exact Hs].
Defined.

Lemma preview_liquidation_is_booked_witness :
  View.liquidationPrice Scenario.env0 Scenario.fresh
  = Js.VNum (App.Pos.liquidationPrice Scenario.long_btc).
Proof.
  destruct (preview_liquidation_is_booked Scenario.env0 Scenario.fresh
              (App.afterOpen Scenario.env0 Scenario.fresh) Scenario.long_btc
              eq_refl eq_refl) as (_ & H & _).
  apply H. reflexivity.
Defined.

Lemma preview_pnl_is_tick_pnl_witness :
  let p := App.newPosition Scenario.env0 Cases.advanced (Js.Fin 95000)
             (Js.Fin 4) in
  View.calculateTPPnL Scenario.env0 Cases.advanced
  = Js.VNum (App.pnlAt (Js.VNum (Js.Fin 100000)) p)
  /\ View.calculateSLPnL Scenario.env0 Cases.advanced
     = Js.VNum (App.pnlAt (Js.VNum (Js.Fin 90000)) p).
Proof.
  exact (preview_pnl_is_tick_pnl Scenario.env0 Cases.advanced
           (App.afterOpen Scenario.env0 Cases.advanced)
           (App.newPosition Scenario.env0 Cases.advanced (Js.Fin 95000)
              (Js.Fin 4))
           eq_refl eq_refl eq_refl eq_refl).
Defined.

Lemma selected_feed_always_has_a_price_witness :
  let quotes :=
    Feed.selectPrices Cases.partial_live
      (Feed.jitterRun [(Cases.partial_live, Cases.draws)]
         Feed.fallbackPrices0) in
  (forall m, Js.truthy_value (quotes m) = true)
  /\ App.openPosition (mkEnv quotes 1700000000000 "10:00:00") Scenario.fresh
     <> App.Rejected NoPriceAvailable.
Proof.
  destruct (selected_feed_always_has_a_price
              [(Cases.partial_live, Cases.draws)] Cases.partial_live
              1700000000000 "10:00:00" Scenario.fresh) as (_ & _ & Ht & Ho).
  - repeat constructor. intros m. exists (3 # 4). simpl.
    split; [reflexivity|]. split; [discriminate|reflexivity].
  - split; [exact Ht|exact Ho].
Defined.

Lemma chart_points_stay_in_the_frame_witness :
  List.length (Chart.normalizedData (Some (map Js.Fin [95000; 96000; 94000])))
  = 3%nat
  /\ exists x y : Q,
       Marker.pulse
         (Chart.normalizedData (Some (map Js.Fin [95000; 96000; 94000])))
       = (Js.Fin x, Js.Fin y)
       /\ (x == 580)%Q.
Proof.
  destruct (chart_points_stay_in_the_frame [95000; 96000; 94000])
    as (Hlen & _ & _ & (x & y & _ & Hpulse & Hx) & _).
  - discriminate.
  - split; [exact Hlen|]. exists x, y. split; [exact Hpulse|].
    apply Hx. simpl. lia.
Defined.

Lemma mark_to_close_open_reserves_nothing_witness :
  exists p,
    App.positions Cases.marked = [p]
    /\ App.balance Cases.marked = Js.Fin 1000
    /\ (Js.zero <? App.Pos.leverage p) = true
    /\ exists st'',
         MarkToClose.openPosition Scenario.env0 Cases.marked = App.Opened st''.
Proof.
  destruct (mark_to_close_open_reserves_nothing Scenario.env0 Scenario.fresh
              Cases.marked eq_refl) as (p & Hp & Hb & HL & _ & _ & Hagain).
  exists p. split; [exact Hp|]. split; [exact Hb|]. split; [exact HL|].
  exact Hagain.
Defined.

Lemma mark_to_close_tick_keeps_live_balance_witness :
  View.liveBalance
    (MarkToClose.updatePositions (Scenario.quotes 76000 3500 140) Cases.marked)
  == Js.Fin 950.
Proof.
  destruct (mark_to_close_tick_keeps_live_balance
              (Scenario.quotes 76000 3500 140) Cases.marked) as [H _].
  - repeat constructor.
  - discriminate.
  - reflexivity.
  - etransitivity; [exact H|]. vm_compute. reflexivity.
Defined.

(** The default order in the mark-to-close revision (margin 50 on a
    balance of 1000): the margin available is 950 while the long is open,
    and 950 again after the tick at 76000 that liquidates it at -50 and
    frees its margin. *)
Lemma mark_to_close_tick_frees_the_margin_of_closed_witness :
  MarkToClose.availableMargin Cases.marked == Js.Fin 950
  /\ App.positions
       (MarkToClose.updatePositions (Scenario.quotes 76000 3500 140)
          Cases.marked) = []
  /\ MarkToClose.availableMargin
       (MarkToClose.updatePositions (Scenario.quotes 76000 3500 140)
          Cases.marked)
     == Js.Fin 950.
Proof.
  split; [vm_compute; reflexivity|]. split; [reflexivity|].
  etransitivity;
    [apply (mark_to_close_tick_frees_the_margin_of_closed
              (Scenario.quotes 76000 3500 140) Cases.marked);
     repeat constructor|].
  vm_compute. reflexivity.
Defined.

(** ** The markers of the chart *)

Lemma chart_y_of_any (H : Q) (qs : list Q) (q : Q) :
  qs <> [] ->
  exists lo hi t : Q,
    Arr.min (map Js.Fin qs) = Js.Fin lo
    /\ Arr.max (map Js.Fin qs) = Js.Fin hi
    /\ (lo <= hi)%Q
    /\ Chart.yOf (Js.Fin H) (map Js.Fin qs) (Js.Fin q)
       = Js.Fin (H + - (20) + - (t * (H + - (2 * 20))))
    /\ ((lo <= q)%Q -> (q <= hi)%Q -> (0 <= t)%Q /\ (t <= 1)%Q)
    /\ ((hi < q)%Q -> (lo < hi)%Q -> (1 < t)%Q)
    /\ ((q < lo)%Q -> (t < 0)%Q)
    /\ ((lo == hi)%Q -> (t == q - lo)%Q).
Proof.
  intros Hne.
  destruct (max_of_finite _ Hne) as (hi & Ehi & Hinhi & Hhi).
  destruct (min_of_finite _ Hne) as (lo & Elo & _ & Hlo).
  rewrite Forall_forall in Hlo.
  pose proof (Hlo hi Hinhi) as Hlohi.
  exists lo, hi.
  unfold Chart.yOf, Chart.priceRange, Chart.padding. rewrite Ehi, Elo.
  unfold Js.or_else. simpl Js.sub. simpl Js.truthy.
  destruct (Qeq_bool (hi + - lo) 0) eqn:E; simpl negb; cbv iota.
  - apply Qeq_bool_iff in E.
    exists ((q + - lo) / 1)%Q.
    assert ((q + - lo) / 1 == q + - lo)%Q as E1 by field.
    split; [reflexivity|]. split; [reflexivity|]. split; [exact Hlohi|].
    split; [reflexivity|]. rewrite E1.
    split; [intros; split; lra|]. split; [intros; lra|].
    split; intros; lra.
  - assert (~ (hi + - lo == 0)%Q) as Hne0.
    { intros H0. apply Qeq_bool_iff in H0. congruence. }
    assert (0 < hi + - lo)%Q as Hpos by lra.
    exists ((q + - lo) / (hi + - lo))%Q.
    split; [reflexivity|]. split; [reflexivity|]. split; [exact Hlohi|].
    split; [simpl; rewrite E; reflexivity|].
    split; [|split; [|split]].
    + intros H0 H1. split.
      * apply Qle_shift_div_l; [exact Hpos|lra].
      * apply Qle_shift_div_r; [exact Hpos|lra].
    + intros H1 _. apply Qlt_shift_div_l; [exact Hpos|lra].
    + intros H0. apply Qlt_shift_div_r; [exact Hpos|lra].
    + intros H0. lra.
Qed.

(** The entry marker and the current-price marker are not clamped to the
    chart.  Over a non-empty series of finite prices, a non-zero finite
    price puts the entry marker at x = 300 and the current marker at
    x = 580, both at the same height y; y is within [20, 230] when the price
    lies between the lowest and the highest price of the series, below the
    frame (y > 230) when it is lower than all of them, and above the frame
    (y < 20) when it is higher than all of them and the series is not flat;
    over a flat series y = 230 - 210 * (price - level).  A missing, zero or
    NaN price draws no marker. *)
Theorem chart_markers_follow_the_price_out_of_the_frame (qs : list Q) (e : Q) :
  qs <> [] -> ~ (e == 0)%Q ->
  exists lo hi y : Q,
    Arr.min (map Js.Fin qs) = Js.Fin lo
    /\ Arr.max (map Js.Fin qs) = Js.Fin hi
    /\ Chart.entryPoint (Some (map Js.Fin qs)) (Js.VNum (Js.Fin e))
       = Some (Js.Fin (600 / 2), Js.Fin y)
    /\ Chart.currentPoint (Some (map Js.Fin qs)) (Js.VNum (Js.Fin e))
       = Some (Js.Fin (600 + - (20)), Js.Fin y)
    /\ ((lo <= e)%Q -> (e <= hi)%Q -> (20 <= y)%Q /\ (y <= 230)%Q)
    /\ ((hi < e)%Q -> (lo < hi)%Q -> (y < 20)%Q)
    /\ ((e < lo)%Q -> (230 < y)%Q)
    /\ ((lo == hi)%Q -> (y == 230 - 210 * (e - lo))%Q)
    /\ (forall v, Js.truthy_value v = false ->
          Chart.entryPoint (Some (map Js.Fin qs)) v = None
          /\ Chart.currentPoint (Some (map Js.Fin qs)) v = None).
Proof.
  intros Hne He.
  destruct (chart_y_of_any 250 qs e Hne)
    as (lo & hi & t & Elo & Ehi & _ & Hy & Hin & Habove & Hbelow & Hflat).
  assert (Qeq_bool e 0 = false) as Ee.
  { destruct (Qeq_bool e 0) eqn:E; [apply Qeq_bool_iff in E; tauto|reflexivity]. }
  exists lo, hi, (250 + - (20) + - (t * (250 + - (2 * 20))))%Q.
  split; [exact Elo|]. split; [exact Ehi|].
  destruct qs as [|q qs]; [congruence|].
  unfold Chart.entryPoint, Chart.currentPoint.
  cbn [map Js.truthy_value Js.truthy Js.toNumber] in Hy |- *.
  rewrite Ee. cbn [negb]. cbv zeta. rewrite Hy.
  split; [reflexivity|]. split; [reflexivity|].
  split; [intros H0 H1; destruct (Hin H0 H1); split; lra|].
  split; [intros H1 H2; specialize (Habove H1 H2); lra|].
  split; [intros H0; specialize (Hbelow H0); lra|].
  split; [intros H0; specialize (Hflat H0); lra|].
  intros v Hv. rewrite Hv. split; reflexivity.
Qed.

(** Over the series 95000, 96000, 94000 an entry at 97000 puts the marker
    above the viewBox. *)
Lemma chart_markers_follow_the_price_out_of_the_frame_witness :
  exists y : Q,
    Chart.entryPoint (Some (map Js.Fin [95000; 96000; 94000]))
                     (Js.VNum (Js.Fin 97000))
    = Some (Js.Fin (600 / 2), Js.Fin y)
    /\ (y < 20)%Q.
Proof.
  destruct (chart_markers_follow_the_price_out_of_the_frame
              [95000; 96000; 94000] 97000)
    as (lo & hi & y & Elo & Ehi & Hentry & _ & _ & Habove & _).
  - discriminate.
  - vm_compute. discriminate.
  - exists y. split; [exact Hentry|].
    vm_compute in Elo, Ehi. injection Elo as <-. injection Ehi as <-.
    apply Habove; reflexivity.
Defined.

(** ** Lifecycles on a shared book *)




















